(** * pulzz-v1-backend: the version lifecycle engine

    A shallow embedding of the hot-update backend's core
    ([app/src/server.js], [app/src/lib/state.js], [app/src/lib/lock.js],
    [app/src/lib/storage.js]) and the properties of its archive inspector,
    registry, publish lock and storage sync.

    JavaScript values are embedded as follows.  Strings are [string];
    [async] functions are computations in a state-and-exception monad over
    an explicit world (file system, clock, request log); a thrown value is a
    [Thrown]; a JS [Set] is the list of its elements in insertion order; a
    JS object read from JSON is a finite map from property names to
    values. *)

From Stdlib Require Import ZArith Lia Ascii String List.
From Stdlib Require OrderedTypeEx.
From stdpp Require Import gmap strings list fin_maps sorting countable pretty.

Local Set Warnings "-register-all".
Local Open Scope Z_scope.

(** ** Strings as the runtime has them *)

Module Str.

Definition slash : ascii := ascii_of_nat 47.
Definition backslash : ascii := ascii_of_nat 92.
Definition newline : string := String (ascii_of_nat 10) EmptyString.

(** [Boolean(s)] for a string: the empty string is falsy. *)
Definition truthy (s : string) : bool :=
  match s with EmptyString => false | String _ _ => true end.

(** [a || b] on strings. *)
Definition or_else (a b : string) : string := if truthy a then a else b.

(** [s.split(sep)] for a one-character separator: never the empty list. *)
Fixpoint split (sep : ascii) (s : string) : list string :=
  match s with
  | EmptyString => [EmptyString]
  | String c rest =>
      if Ascii.eqb c sep then EmptyString :: split sep rest
      else match split sep rest with
           | h :: t => String c h :: t
           | [] => [String c EmptyString]
           end
  end.

(** [s.replaceAll(a, b)] for characters. *)
Fixpoint replaceAll (a b : ascii) (s : string) : string :=
  match s with
  | EmptyString => EmptyString
  | String c rest => String (if Ascii.eqb c a then b else c) (replaceAll a b rest)
  end.

(** [s.replace(/^c+/, '')]: drop the leading run of [c]. *)
Fixpoint dropLeading (c : ascii) (s : string) : string :=
  match s with
  | EmptyString => EmptyString
  | String d rest => if Ascii.eqb d c then dropLeading c rest else s
  end.

Definition startsWith (s p : string) : bool := String.prefix p s.

Fixpoint endsWithChar (s : string) (c : ascii) : bool :=
  match s with
  | EmptyString => false
  | String d EmptyString => Ascii.eqb d c
  | String _ rest => endsWithChar rest c
  end.

(** [s.includes(p)]. *)
Fixpoint includes (s p : string) : bool :=
  String.prefix p s ||
  match s with
  | EmptyString => false
  | String _ rest => includes rest p
  end.

(** [s.replace(/c+$/, '')]: drop the trailing run of [c]. *)
Fixpoint dropTrailing (c : ascii) (s : string) : string :=
  match s with
  | EmptyString => EmptyString
  | String d rest =>
      match dropTrailing c rest with
      | EmptyString => if Ascii.eqb d c then EmptyString else String d EmptyString
      | kept => String d kept
      end
  end.

Definition isDigit (c : ascii) : bool :=
  let n := nat_of_ascii c in ((48 <=? n)%nat && (n <=? 57)%nat)%bool.

Fixpoint allDigits (s : string) : bool :=
  match s with
  | EmptyString => true
  | String c rest => isDigit c && allDigits rest
  end.

(** [/^\d+$/.test(s)] *)
Definition isNumeric (s : string) : bool := truthy s && allDigits s.

(** [s.slice(n)] *)
Fixpoint slice (n : nat) (s : string) : string :=
  match n, s with
  | O, _ => s
  | S n', String _ rest => slice n' rest
  | S _, EmptyString => EmptyString
  end.

End Str.

(** [set.add(x)] on a JS [Set], kept as the list of its elements in
    insertion order. *)
Definition setAdd {A} `{EqDecision A} (x : A) (s : list A) : list A :=
  if bool_decide (x ∈ s) then s else s ++ [x].

(** ** Thrown values and the monad of [async] functions *)

(** What a [throw] carries: [null], or an error object with the fields the
    program reads ([undefined] is [None]). *)
Inductive Thrown : Type :=
| ThrownNull
| ThrownError (message : string) (code : option string) (statusCode : option Z).

(** [const e = new Error(msg); e.code = c]. *)
Definition newError (msg c : string) : Thrown := ThrownError msg (Some c) None.

(** [error.code] ([undefined] on absent). *)
Definition errorCode (e : Thrown) : option string :=
  match e with
  | ThrownNull => None
  | ThrownError _ c _ => c
  end.

(** How an awaited call ends: it returns, it throws, or it is still running
    when the turns given to an unbounded loop are used up. *)
Inductive Result (A : Type) : Type :=
| Ok (a : A)
| Err (e : Thrown)
| Pending.
Arguments Ok {A} a.
Arguments Err {A} e.
Arguments Pending {A}.

(** A computation over a world [S]: it leaves a world however it ends. *)
Definition M (S A : Type) : Type := S -> Result A * S.

Definition ret {S A} (a : A) : M S A := fun w => (Ok a, w).
Definition throw {S A} (e : Thrown) : M S A := fun w => (Err e, w).
Definition pending {S A} : M S A := fun w => (Pending, w).

Definition bind {S A B} (m : M S A) (k : A -> M S B) : M S B :=
  fun w => match m w with
           | (Ok a, w') => k a w'
           | (Err e, w') => (Err e, w')
           | (Pending, w') => (Pending, w')
           end.

(** [try { m } catch (e) { h(e) }]. *)
Definition tryCatch {S A} (m : M S A) (h : Thrown -> M S A) : M S A :=
  fun w => match m w with
           | (Err e, w') => h e w'
           | r => r
           end.

(** [try { m } finally { f }]: [f] runs on both paths; when [f] throws, its
    error replaces the outcome of [m]. *)
Definition tryFinally {S A} (m : M S A) (f : M S unit) : M S A :=
  fun w => match m w with
           | (Pending, w') => (Pending, w')
           | (r, w') => match f w' with
                        | (Ok _, w'') => (r, w'')
                        | (Err e, w'') => (Err e, w'')
                        | (Pending, w'') => (Pending, w'')
                        end
           end.

(** Worlds in which time can pass. *)
Class Timer (S : Type) := elapse : Z -> S -> S.

(** [sleep(ms)]: the timer never rejects. *)
Definition sleep {S} `{Timer S} (ms : Z) : M S unit :=
  fun w => (Ok tt, elapse ms w).

(** What reading a property of [null] throws. *)
Definition TypeError : Thrown :=
  ThrownError "Cannot read properties of null" None None.

(** [error.code] in a [catch] block, handed to the rest of the block. *)
Definition readCode {S A} (error : Thrown) (k : option string -> M S A) : M S A :=
  match error with
  | ThrownNull => throw TypeError
  | ThrownError _ code _ => k code
  end.

Declare Scope js_scope.
Delimit Scope js_scope with js.
Notation "'let!' x ':=' m 'in' k" := (bind m (fun x => k))
  (at level 10, x name, m at level 100, k at level 200) : js_scope.
Notation "'do!' m 'in' k" := (bind m (fun _ => k))
  (at level 10, m at level 100, k at level 200) : js_scope.
Local Open Scope js_scope.

(** ** The archive inspector ([server.js]) *)

Module Archive.

(** An entry of the uploaded zip as the archive library exposes it. *)
Record ZipEntry := mkEntry {
  entryName : string;
  isDirectory : bool;
  data : string
}.

(** The entry after the first [map] of [inspectArchiveLayout]. *)
Record Entry := mkNorm {
  name : string;
  isDir : bool
}.

Record Layout := mkLayout { ok : bool; flatten : bool }.

Definition normalizeZipEntryName (n : string) : string :=
  Str.dropLeading Str.slash (Str.replaceAll Str.backslash Str.slash n).

Definition normalizeEntry (entry : ZipEntry) : Entry :=
  let normalized := normalizeZipEntryName (entryName entry) in
  {| name := normalized;
     isDir := isDirectory entry || Str.endsWithChar normalized Str.slash |}.

Definition usable (entry : Entry) : bool :=
  Str.truthy (name entry)
  && negb (Str.startsWith (name entry) "__MACOSX/")
  && negb (String.eqb (name entry) "__MACOSX").

(** [zip.getEntries().map(...).filter(...)]. *)
Definition usableEntries (zip : list ZipEntry) : list Entry :=
  List.filter usable (List.map normalizeEntry zip).

(** [entry.name.split('/').filter(Boolean)]. *)
Definition parts (entry : Entry) : list string :=
  List.filter Str.truthy (Str.split Str.slash (name entry)).

(** One turn of the [for (const entry of entries)] loop over the pair
    [(topFolders, hasRootFile)]; [parts[0]] is [undefined], here [None],
    when [parts] is empty. *)
Definition scanEntry (acc : list (option string) * bool) (entry : Entry)
  : list (option string) * bool :=
  let '(topFolders, hasRootFile) := acc in
  let ps := parts entry in
  if isDir entry then
    if (1 <=? length ps)%nat then (setAdd (head ps) topFolders, hasRootFile)
    else (topFolders, hasRootFile)
  else if (length ps =? 1)%nat then (topFolders, true)
  else (setAdd (head ps) topFolders, hasRootFile).

Definition scanEntries (entries : list Entry) : list (option string) * bool :=
  fold_left scanEntry entries ([], false).

Definition inspectArchiveLayout (zip : list ZipEntry) (version : string) : Layout :=
  let entries := usableEntries zip in
  if (length entries =? 0)%nat then {| ok := false; flatten := false |}
  else
    let '(topFolders, hasRootFile) := scanEntries entries in
    if (length topFolders =? 1)%nat && negb hasRootFile then
      let onlyFolder := head topFolders in
      if bool_decide (onlyFolder ≠ Some (Some version))
      then {| ok := false; flatten := false |}
      else {| ok := true; flatten := true |}
    else if (1 <? length topFolders)%nat && negb hasRootFile then
      {| ok := false; flatten := false |}
    else {| ok := true; flatten := false |}.

(** The words of the specification: the first path segment of an entry, and
    a root file (a file entry whose path has exactly one segment). *)
Definition topSegment (entry : Entry) : option string := head (parts entry).

Definition isRootFile (entry : Entry) : bool :=
  negb (isDir entry) && (length (parts entry) =? 1)%nat.

End Archive.

(** ** JSON values *)

(** A value that [JSON.parse] returns: objects are finite maps, so equality
    of values is comparison regardless of the order of fields.  [number] is
    the type of the numbers that JSON text denotes. *)
Inductive json (number : Type) : Type :=
| JNull
| JBool (b : bool)
| JNum (n : number)
| JStr (s : string)
| JArr (l : list (json number))
| JObj (o : gmap string (json number)).
Arguments JNull {number}.
Arguments JBool {number} b.
Arguments JNum {number} n.
Arguments JStr {number} s.
Arguments JArr {number} l.
Arguments JObj {number} o.

(** What the program takes from its platform: the JSON codec, the case
    mapping of strings, the clock, the [path] module and the process
    environment. *)
Class Runtime := {
  number : Type;
  (** [s.toLowerCase()] *)
  toLowerCase : string -> string;
  (** [JSON.stringify(v, null, 2)] *)
  JSON_stringify : json number -> string;
  (** [JSON.parse(text)]; [None] when it throws *)
  JSON_parse : string -> option (json number);
  (** the n-th reading of [new Date().toISOString()] since the start *)
  clock : nat -> string;
  path_dirname : string -> string;
  path_join : list string -> string;
  os_tmpdir : string;
  (** the random suffix [fs.mkdtemp] gives its n-th directory *)
  tmpSuffix : nat -> string;
  (** [versions.sort((a, b) => Number(b) - Number(a))] *)
  sortDescending : list string -> list string;
  (** [process.env]: an unset variable reads [undefined] *)
  env : gmap string string
}.

(** [JSON.parse] undoes [JSON.stringify], also with the newline the
    registry appends. *)
Definition JSON_lossless `{Runtime} : Prop :=
  forall v : json number, JSON_parse (JSON_stringify v +:+ Str.newline) = Some v.

(** ** The world: file system, clock and bucket *)

Module Sys.

(** One event per call into [fs], the timer, the archive library or the
    object-store client. *)
Inductive Event : Type :=
| EMkdir (p : string)
| EAccess (p : string)
| EReadFile (p : string)
| EWriteFile (p content : string)
| ERename (src dst : string)
| EOpenWx (p : string)
| EClose (p : string)
| ERm (p : string)
| ERmTree (p : string)
| ECopyTree (src dst : string)
| EMkdtemp (p : string)
| EExtractAll (dst : string)
| EReaddir (p : string)
| ESleep (ms : Z)
| EGetBucket (Bucket Region Prefix Marker : string) (MaxKeys : Z)
| EDeleteMultipleObject (Bucket Region : string) (Keys : list string)
| EPutObject (Bucket Region Key Body : string).

(** The regular files by path, the objects of the bucket by key, the number
    of clock readings and of temporary directories taken so far, the
    outcomes the network has in store for the next requests ([Some e]: the
    request fails with [e]), and the calls made.  Directories are not
    tracked: [mkdir] leaves its event only. *)
Record World := mkWorld {
  files : gmap string string;
  bucket : gmap string string;
  ticks : nat;
  temps : nat;
  faults : list (option Thrown);
  trace : list Event
}.

Definition log (e : Event) (w : World) : World :=
  {| files := files w; bucket := bucket w; ticks := ticks w; temps := temps w;
     faults := faults w; trace := trace w ++ [e] |}.

Definition setFiles (f : gmap string string) (w : World) : World :=
  {| files := f; bucket := bucket w; ticks := ticks w; temps := temps w;
     faults := faults w; trace := trace w |}.

Definition setBucket (b : gmap string string) (w : World) : World :=
  {| files := files w; bucket := b; ticks := ticks w; temps := temps w;
     faults := faults w; trace := trace w |}.

Definition setFaults (fs : list (option Thrown)) (w : World) : World :=
  {| files := files w; bucket := bucket w; ticks := ticks w; temps := temps w;
     faults := fs; trace := trace w |}.

Definition tick (w : World) : World :=
  {| files := files w; bucket := bucket w; ticks := S (ticks w); temps := temps w;
     faults := faults w; trace := trace w |}.

Definition tickTemp (w : World) : World :=
  {| files := files w; bucket := bucket w; ticks := ticks w; temps := S (temps w);
     faults := faults w; trace := trace w |}.

Definition ENOENT : Thrown := newError "ENOENT: no such file or directory" "ENOENT".
Definition EEXIST : Thrown := newError "EEXIST: file already exists" "EEXIST".

(** [fs.mkdir(p, { recursive: true })] *)
Definition mkdir (p : string) : M World unit :=
  fun w => (Ok tt, log (EMkdir p) w).

(** [fs.access(p)] *)
Definition access (p : string) : M World unit :=
  fun w => match files w !! p with
           | Some _ => (Ok tt, log (EAccess p) w)
           | None => (Err ENOENT, log (EAccess p) w)
           end.

(** [fs.readFile(p, 'utf8')] *)
Definition readFile (p : string) : M World string :=
  fun w => match files w !! p with
           | Some c => (Ok c, log (EReadFile p) w)
           | None => (Err ENOENT, log (EReadFile p) w)
           end.

(** [fs.writeFile(p, content, 'utf8')] *)
Definition writeFile (p content : string) : M World unit :=
  fun w => (Ok tt, log (EWriteFile p content) (setFiles (<[p := content]> (files w)) w)).

(** [fs.rename(src, dst)] *)
Definition rename (src dst : string) : M World unit :=
  fun w => match files w !! src with
           | Some c => (Ok tt, log (ERename src dst)
                                 (setFiles (<[dst := c]> (delete src (files w))) w))
           | None => (Err ENOENT, log (ERename src dst) w)
           end.

(** [fs.open(p, 'wx')]: exclusive creation; the handle is the path. *)
Definition openWx (p : string) : M World string :=
  fun w => match files w !! p with
           | Some _ => (Err EEXIST, log (EOpenWx p) w)
           | None => (Ok p, log (EOpenWx p) (setFiles (<[p := ""]> (files w)) w))
           end.

(** [handle.close()] *)
Definition close (h : string) : M World unit :=
  fun w => (Ok tt, log (EClose h) w).

(** [fs.rm(p, { force: true })] *)
Definition rm (p : string) : M World unit :=
  fun w => (Ok tt, log (ERm p) (setFiles (delete p (files w)) w)).

(** The timer of this world leaves an event. *)
#[global] Instance timer : Timer World :=
  fun ms w => log (ESleep ms) w.

(** [new Date().toISOString()] *)
Definition nowISO `{Runtime} : M World string :=
  fun w => (Ok (clock (ticks w)), tick w).

(** A path is inside the tree at [root] when it is [root/rest]. *)
Definition under (root p : string) : bool :=
  Str.startsWith p (root +:+ String Str.slash EmptyString).

(** The part of [p] after [root/]. *)
Definition relativeTo (root p : string) : string :=
  String.substring (S (String.length root)) (String.length p - S (String.length root)) p.

(** The names directly below [rootDir] among the files by path, each with
    its [isDirectory()]: a directory when a file lies deeper. *)
Definition dirents (rootDir : string) (fs : gmap string string) : list (string * bool) :=
  fold_left
    (fun acc p =>
       match Str.split Str.slash (relativeTo rootDir p) with
       | [] => acc
       | [name] => setAdd (name, false) acc
       | name :: _ => setAdd (name, true) acc
       end)
    (List.filter (under rootDir) (map fst (map_to_list fs))) [].

(** [fs.readdir(p, { withFileTypes: true })]: a directory exists when a
    file lies below it. *)
Definition readdir (p : string) : M World (list (string * bool)) :=
  fun w => match dirents p (files w) with
           | [] => (Err ENOENT, log (EReaddir p) w)
           | entries => (Ok entries, log (EReaddir p) w)
           end.

(** [fs.rm(p, { recursive: true, force: true })] *)
Definition rmTree (p : string) : M World unit :=
  fun w => (Ok tt, log (ERmTree p)
                     (setFiles (filter (fun kv => negb (under p kv.1) && negb (String.eqb kv.1 p) = true)
                                       (files w)) w)).

(** [fs.cp(src, dst, { recursive: true, force: true })] for a directory
    [src] that exists: every file of the tree at [src] lands at the same
    relative path under [dst]. *)
Definition cpTree (src dst : string) : M World unit :=
  fun w =>
    let copied : gmap string string :=
      list_to_map
        (List.map (fun kv : string * string =>
                     (dst +:+ String Str.slash (relativeTo src kv.1), kv.2))
                  (List.filter (fun kv : string * string => under src kv.1)
                               (map_to_list (files w)))) in
    (Ok tt, log (ECopyTree src dst) (setFiles (copied ∪ files w) w)).

(** [fs.mkdtemp(prefix)]: a fresh directory name. *)
Definition mkdtemp `{Runtime} (pfx : string) : M World string :=
  fun w => (Ok (pfx +:+ tmpSuffix (temps w)),
            log (EMkdtemp (pfx +:+ tmpSuffix (temps w))) (tickTemp w)).

End Sys.

(** ** Paths ([lib/paths.js]) *)

Module Paths.
Section Paths.
Context `{Runtime}.

(** [process.env.NAME || fallback] *)
Definition envOr (name fallback : string) : string :=
  Str.or_else (default "" (env !! name)) fallback.

Definition ROOT : string := envOr "PULZZ_ROOT" "/opt/pulzz-hotupdate".
Definition APP_ROOT : string := envOr "PULZZ_APP_ROOT" (path_join [ROOT; "app"]).
Definition CDN_ROOT : string := envOr "PULZZ_CDN_ROOT" (path_join [ROOT; "cdn"]).

Definition getStateFilePath : string :=
  envOr "PULZZ_STATE_PATH" (path_join [APP_ROOT; "config"; "state.json"]).

Definition getUploadRoot (platformKey : string) : string :=
  path_join [CDN_ROOT; "gameres"; platformKey].

End Paths.
End Paths.

(** ** The version registry ([lib/state.js]) *)

Module State.
Section State.
Context `{Runtime}.

Local Abbreviation value := (json number).

(** The registry document after [normalizeState]. *)
Record Doc := mkDoc {
  currentVersion : string;
  versions : list value;
  history : list value
}.

(** The object literal [{ currentVersion, versions, history }]. *)
Definition docObject (d : Doc) : value :=
  JObj (<["currentVersion" := JStr (currentVersion d)]>
        (<["versions" := JArr (versions d)]>
         (<["history" := JArr (history d)]> ∅))).

Definition DEFAULT_DOC : Doc :=
  {| currentVersion := ""; versions := []; history := [] |}.

Definition DEFAULT_STATE : value := docObject DEFAULT_DOC.

(** [raw?.key] for one of the registry's property names: [undefined]
    ([None]) on anything but an object that has the key. *)
Definition optProp (raw : value) (key : string) : option value :=
  match raw with
  | JObj o => o !! key
  | _ => None
  end.

Definition normalizeState (raw : value) : Doc :=
  {| currentVersion := match optProp raw "currentVersion" with
                       | Some (JStr s) => s
                       | _ => ""
                       end;
     versions := match optProp raw "versions" with
                 | Some (JArr l) => l
                 | _ => []
                 end;
     history := match optProp raw "history" with
                | Some (JArr l) => l
                | _ => []
                end |}.

Definition tempPath : string := Paths.getStateFilePath +:+ ".tmp".

Definition atomicWriteState (state : value) : M Sys.World unit :=
  let statePath := Paths.getStateFilePath in
  let normalized := normalizeState state in
  let content := JSON_stringify (docObject normalized) +:+ Str.newline in
  do! Sys.mkdir (path_dirname statePath) in
  do! Sys.writeFile tempPath content in
  Sys.rename tempPath statePath.

Definition ensureStateFile : M Sys.World unit :=
  let statePath := Paths.getStateFilePath in
  do! Sys.mkdir (path_dirname statePath) in
  tryCatch (Sys.access statePath) (fun _ => atomicWriteState DEFAULT_STATE).

Definition readState : M Sys.World Doc :=
  do! ensureStateFile in
  let statePath := Paths.getStateFilePath in
  let! text := Sys.readFile statePath in
  let json := match JSON_parse text with
              | Some v => v
              | None => DEFAULT_STATE
              end in
  ret (normalizeState json).

(** [v.key]: reading a property of [null] throws. *)
Definition prop (v : value) (key : string) : Result (option value) :=
  match v with
  | JNull => Err TypeError
  | JObj o => Ok (o !! key)
  | _ => Ok None
  end.

(** The callback [(v) => v.version === version]. *)
Definition isVersion (version : string) (v : value) : Result bool :=
  match prop v "version" with
  | Ok (Some (JStr s)) => Ok (String.eqb s version)
  | Ok _ => Ok false
  | Err e => Err e
  | Pending => Pending
  end.

(** [versions.findIndex(pred)], as the position [find] stops at. *)
Fixpoint findFirst (pred : value -> Result bool) (l : list value) : Result (option nat) :=
  match l with
  | [] => Ok None
  | v :: rest =>
      match pred v with
      | Ok true => Ok (Some 0%nat)
      | Ok false => match findFirst pred rest with
                    | Ok (Some i) => Ok (Some (S i))
                    | r => r
                    end
      | Err e => Err e
      | Pending => Pending
      end
  end.

(** [versions.some(pred)] *)
Definition some (pred : value -> Result bool) (l : list value) : Result bool :=
  match findFirst pred l with
  | Ok (Some _) => Ok true
  | Ok None => Ok false
  | Err e => Err e
  | Pending => Pending
  end.

Definition liftR {S A} (r : Result A) : M S A :=
  fun w => (r, w).

(** [o.key = x] and [{ ...o, key: x }] on an object. *)
Definition setProp (v : value) (key : string) (x : value) : value :=
  match v with
  | JObj o => JObj (<[key := x]> o)
  | _ => v
  end.

(** The record [{ version, uploadedAt: now }]. *)
Definition uploadedRecord (version now : string) : value :=
  JObj (<["version" := JStr version]> (<["uploadedAt" := JStr now]> ∅)).

(** [upsertVersion]: the record found is updated in place, so the array
    returned is the one passed with that record changed. *)
Definition upsertVersion (vs : list value) (version : string)
  : M Sys.World (list value * bool) :=
  let! now := Sys.nowISO in
  let! existing := liftR (findFirst (isVersion version) vs) in
  match existing with
  | Some i => ret (alter (fun v => setProp v "uploadedAt" (JStr now)) i vs, true)
  | None => ret (vs ++ [uploadedRecord version now], false)
  end.

(** The history entry [{ action, version, at }]. *)
Definition historyEntry (action version at_ : string) : value :=
  JObj (<["action" := JStr action]>
        (<["version" := JStr version]>
         (<["at" := JStr at_]> ∅))).

Definition recordUpload (version : string) : M Sys.World bool :=
  let! state := readState in
  let! result := upsertVersion (versions state) version in
  let! at_ := Sys.nowISO in
  let history' :=
    history state ++
    [historyEntry (if result.2 then "upload_overwrite" else "upload") version at_] in
  let nextState :=
    docObject {| currentVersion := currentVersion state;
                 versions := result.1;
                 history := history' |} in
  do! atomicWriteState nextState in
  ret result.2.

(** [vs.map((v) => v.version === version ? { ...v, publishedAt: now() } : v)] *)
Fixpoint markPublished (version : string) (vs : list value) : M Sys.World (list value) :=
  match vs with
  | [] => ret []
  | v :: rest =>
      let! hit := liftR (isVersion version v) in
      let! v' := (if hit : bool
                  then let! now := Sys.nowISO in ret (setProp v "publishedAt" (JStr now))
                  else ret v) in
      let! rest' := markPublished version rest in
      ret (v' :: rest')
  end.

(** The record [{ version, uploadedAt, publishedAt }] of a version the
    registry did not know. *)
Definition publishedRecord (version uploadedAt publishedAt : string) : value :=
  JObj (<["version" := JStr version]>
        (<["uploadedAt" := JStr uploadedAt]>
         (<["publishedAt" := JStr publishedAt]> ∅))).

Definition setCurrentVersion (version action : string) : M Sys.World unit :=
  let! state := readState in
  let! known := liftR (some (isVersion version) (versions state)) in
  let! nextVersions :=
    (if known : bool
     then markPublished version (versions state)
     else let! uploadedAt := Sys.nowISO in
          let! publishedAt := Sys.nowISO in
          ret (versions state ++ [publishedRecord version uploadedAt publishedAt])) in
  let! at_ := Sys.nowISO in
  let nextState :=
    docObject {| currentVersion := version;
                 versions := nextVersions;
                 history := history state ++ [historyEntry action version at_] |} in
  atomicWriteState nextState.

End State.
End State.

(** ** The publish lock ([lib/lock.js]) *)

Module Lock.

Record Options := mkOptions {
  retries : option Z;
  retryDelayMs : option Z
}.

(** [{}] *)
Definition noOptions : Options := {| retries := None; retryDelayMs := None |}.

(** The [for (attempt = 0; attempt < retries; attempt += 1)] loop with [n]
    turns left; [None] is the [handle] still [undefined] after the loop. *)
Fixpoint acquire (lockPath : string) (retryDelayMs : Z) (n : nat)
  : M Sys.World (option string) :=
  match n with
  | O => ret None
  | S n' =>
      tryCatch (let! handle := Sys.openWx lockPath in ret (Some handle))
               (fun error =>
                  readCode error (fun code =>
                    if bool_decide (code ≠ Some "EEXIST") then throw error
                    else do! sleep retryDelayMs in acquire lockPath retryDelayMs n'))
  end.

Definition withFileLock {A} (lockPath : string) (fn : M Sys.World A) (options : Options)
  : M Sys.World A :=
  let retries := default 60 (retries options) in
  let retryDelayMs := default 100 (retryDelayMs options) in
  let! handle := acquire lockPath retryDelayMs (Z.to_nat retries) in
  match handle with
  | None => throw (newError "lock_timeout" "LOCK_TIMEOUT")
  | Some h => tryFinally fn (do! Sys.close h in Sys.rm lockPath)
  end.

End Lock.

(** ** Storage sync ([lib/storage.js]) *)

Module Storage.

Section Retryable.
Context `{Runtime}.

Definition isRetryableCosError (error : Thrown) : bool :=
  match error with
  | ThrownNull => false
  | ThrownError message code statusCode =>
      let code := default "" code in
      let message := toLowerCase message in
      let statusCode := default 0 statusCode in
      if 500 <=? statusCode then true
      else if bool_decide (code ∈ ["ETIMEDOUT"; "ECONNRESET"; "EAI_AGAIN"; "ESOCKETTIMEDOUT"])
      then true
      else if bool_decide (code ∈ ["RequestTimeout"; "InternalError"; "ServiceUnavailable";
                                   "SlowDown"; "NetworkingError"])
      then true
      else Str.includes message "timeout" || Str.includes message "timed out"
           || Str.includes message "socket hang up"
  end.

End Retryable.

Record RetryOptions := mkRetryOptions {
  retries : option Z;
  baseDelayMs : option Z
}.

(** [{}] *)
Definition noOptions : RetryOptions := {| retries := None; baseDelayMs := None |}.

Section Retry.
Context {S A : Type} `{Timer S} `{Runtime}.

(** [Number(process.env.COS_RETRY_COUNT || 3)], read when the module loads. *)
Variable COS_RETRY_COUNT : Z.

(** The [for (let i = 0; i <= retries; i++)] loop at index [i] with [turns]
    turns left. *)
Fixpoint retryLoop (task : M S A) (retries baseDelay : Z) (turns : nat) (i : Z)
    (lastError : Thrown) : M S A :=
  match turns with
  | O => throw lastError
  | Datatypes.S turns' =>
      tryCatch task
        (fun error =>
           if (retries <=? i) || negb (isRetryableCosError error) then throw error
           else do! sleep (baseDelay * (i + 1)) in
                retryLoop task retries baseDelay turns' (i + 1) error)
  end.

Definition withRetry (task : M S A) (options : RetryOptions) : M S A :=
  let retries := default COS_RETRY_COUNT (retries options) in
  let baseDelay := default 250 (baseDelayMs options) in
  retryLoop task retries baseDelay (Z.to_nat (retries + 1)) 0 ThrownNull.

End Retry.

(** *** The object store as the client sees it *)

Record Client := mkClient { Bucket : string; Region : string }.

(** A page of a listing: the keys of [Contents], and [IsTruncated]. *)
Record Page := mkPage { Contents : list string; IsTruncated : bool }.

Definition StringLe (a b : string) : Prop := String.leb a b = true.

#[global] Instance StringLe_dec : RelDecision StringLe.
Proof. intros a b. unfold StringLe. apply _. Defined.

(** The keys of the bucket that start with [prefix], in the order of the
    service's listings. *)
Definition keysUnder (b : gmap string string) (pfx : string) : list string :=
  merge_sort StringLe (List.filter (fun k => Str.startsWith k pfx) (map fst (map_to_list b))).

(** What the service answers to a listing: at most [maxKeys] keys that
    start with [prefix] and come after [marker]. *)
Definition servePage (b : gmap string string) (pfx marker : string) (maxKeys : Z) : Page :=
  let after :=
    if Str.truthy marker
    then List.filter (fun k => String.ltb marker k) (keysUnder b pfx)
    else keysUnder b pfx in
  {| Contents := take (Z.to_nat maxKeys) after;
     IsTruncated := (Z.to_nat maxKeys <? length after)%nat |}.

(** A request to the service: it is logged, then fails when the network has
    a fault in store for it, and is served otherwise. *)
Definition request {A} (e : Sys.Event) (serve : Sys.World -> A * Sys.World) : M Sys.World A :=
  fun w =>
    let w1 := Sys.log e w in
    match Sys.faults w1 with
    | Some err :: rest => (Err err, Sys.setFaults rest w1)
    | None :: rest => let '(a, w2) := serve (Sys.setFaults rest w1) in (Ok a, w2)
    | [] => let '(a, w2) := serve w1 in (Ok a, w2)
    end.

(** The promise around [cos.getBucket]. *)
Definition getBucket (c : Client) (pfx marker : string) (maxKeys : Z) : M Sys.World Page :=
  request (Sys.EGetBucket (Bucket c) (Region c) pfx marker maxKeys)
          (fun w => (servePage (Sys.bucket w) pfx marker maxKeys, w)).

(** The promise around [cos.deleteMultipleObject]. *)
Definition deleteMultipleObject (c : Client) (keys : list string) : M Sys.World unit :=
  request (Sys.EDeleteMultipleObject (Bucket c) (Region c) keys)
          (fun w => (tt, Sys.setBucket (foldr delete (Sys.bucket w) keys) w)).

(** The promise around [cos.putObject]. *)
Definition putObject (c : Client) (key body : string) : M Sys.World unit :=
  request (Sys.EPutObject (Bucket c) (Region c) key body)
          (fun w => (tt, Sys.setBucket (<[key := body]> (Sys.bucket w)) w)).

(** [for (const x of xs) { await body(x) }] *)
Fixpoint forEach {S A} (xs : list A) (body : A -> M S unit) : M S unit :=
  match xs with
  | [] => ret tt
  | x :: rest => do! body x in forEach rest body
  end.

(** [keys.slice(i, i + 1000)] for [i = 0, 1000, ...]: at most [turns] chunks. *)
Fixpoint chunksOf (size turns : nat) (keys : list string) : list (list string) :=
  match turns with
  | O => []
  | Datatypes.S turns' =>
      match keys with
      | [] => []
      | _ => take size keys :: chunksOf size turns' (drop size keys)
      end
  end.

Section Sync.
Context `{Runtime}.

Variable COS_RETRY_COUNT : Z.

(** [getLegacyHotupdatePrefixRoot()] of [lib/paths.js]. *)
Variable legacyPrefixRoot : string.

(** [path.sep] of the host. *)
Definition path_sep : ascii := Str.slash.

(** [relPath.split(path.sep).join('/')] *)
Definition normalizeRelPath (relPath : string) : string :=
  Str.replaceAll path_sep Str.slash relPath.

(** [listFiles(rootDir)]: the regular files of the tree, as full paths.
    Its first [readdir] throws when there is no directory [rootDir], which
    here, as for [Sys.readdir], is when no file lies below it. *)
Definition listFiles (rootDir : string) : M Sys.World (list string) :=
  fun w => match List.filter (Sys.under rootDir) (map fst (map_to_list (Sys.files w))) with
           | [] => (Err Sys.ENOENT, Sys.log (Sys.EReaddir rootDir) w)
           | files => (Ok files, Sys.log (Sys.EReaddir rootDir) w)
           end.

Definition createCosClient : M Sys.World Client :=
  let secretId := default "" (env !! "TENCENT_SECRET_ID") in
  let secretKey := default "" (env !! "TENCENT_SECRET_KEY") in
  let bucket := default "" (env !! "TENCENT_COS_BUCKET") in
  let region := default "" (env !! "TENCENT_COS_REGION") in
  if negb (Str.truthy secretId) || negb (Str.truthy secretKey)
     || negb (Str.truthy bucket) || negb (Str.truthy region)
  then throw (newError "cos_config_missing" "COS_CONFIG_MISSING")
  else ret {| Bucket := bucket; Region := region |}.

(** The [while (true)] loop of [listAllKeysByPrefix] with [fuel] turns. *)
Fixpoint listLoop (fuel : nat) (c : Client) (pfx marker : string) (all : list string)
  : M Sys.World (list string) :=
  match fuel with
  | O => pending
  | S fuel' =>
      let! page := withRetry COS_RETRY_COUNT (getBucket c pfx marker 1000) noOptions in
      let keys := List.filter Str.truthy (Contents page) in
      let all := all ++ keys in
      if negb (IsTruncated page) || (length keys =? 0)%nat then ret all
      else listLoop fuel' c pfx (List.last keys "") all
  end.

Definition listAllKeysByPrefix (fuel : nat) (c : Client) (pfx : string)
  : M Sys.World (list string) :=
  listLoop fuel c pfx "" [].

Definition deleteKeys (c : Client) (keys : list string) : M Sys.World unit :=
  if (length keys =? 0)%nat then ret tt
  else
    let chunks := chunksOf 1000 (length keys) keys in
    forEach chunks
      (fun chunk => withRetry COS_RETRY_COUNT (deleteMultipleObject c chunk) noOptions).

Definition versionPrefixes (version : string) : list string :=
  [legacyPrefixRoot +:+ "/" +:+ version +:+ "/"].

Definition syncToCosReal (fuel : nat) (platform version sourceDir : string)
  : M Sys.World unit :=
  let! c := createCosClient in
  do! forEach (versionPrefixes version)
        (fun versionPrefix =>
           let! staleKeys := listAllKeysByPrefix fuel c versionPrefix in
           deleteKeys c staleKeys) in
  let! files := listFiles sourceDir in
  forEach (versionPrefixes version)
    (fun versionPrefix =>
       forEach files
         (fun file =>
            let rel := normalizeRelPath (Sys.relativeTo sourceDir file) in
            let key := versionPrefix +:+ rel in
            let! body := Sys.readFile file in
            withRetry COS_RETRY_COUNT (putObject c key body) noOptions)).

Definition syncToCosMock (platform version sourceDir : string) : M Sys.World unit :=
  let mockRoot := default "" (env !! "PULZZ_COS_MOCK_ROOT") in
  if negb (Str.truthy mockRoot) then ret tt
  else
    let legacyRoot := path_join [mockRoot; legacyPrefixRoot; version] in
    do! Sys.rmTree legacyRoot in
    do! Sys.mkdir (path_dirname legacyRoot) in
    Sys.cpTree sourceDir legacyRoot.

Definition syncUploadedVersion (fuel : nat) (platform version sourceDir : string)
  : M Sys.World unit :=
  let driver := toLowerCase (Paths.envOr "STORAGE_DRIVER" "local") in
  if negb (String.eqb driver "cos") then ret tt
  else if Str.truthy (default "" (env !! "PULZZ_COS_MOCK_ROOT")) then
    syncToCosMock platform version sourceDir
  else syncToCosReal fuel platform version sourceDir.

(** [listVersionsByFsRoot]: any error of [readdir] gives the empty list. *)
Definition listVersionsByFsRoot (rootDir : string) : M Sys.World (list string) :=
  tryCatch
    (let! entries := Sys.readdir rootDir in
     ret (sortDescending
            (map fst (List.filter (fun entry : string * bool =>
                                     entry.2 && Str.isNumeric entry.1) entries))))
    (fun _ => ret []).

(** The [for (const key of keys)] loop of [scan] over the set [discovered]. *)
Definition discover (pfx : string) (keys discovered : list string) : list string :=
  fold_left
    (fun discovered key =>
       let rest := Str.slice (String.length pfx) key in
       let version := hd "" (Str.split Str.slash rest) in
       if Str.isNumeric version then setAdd version discovered else discovered)
    keys discovered.

(** The [while (true)] loop of [scan] with [fuel] turns. *)
Fixpoint scanLoop (fuel : nat) (c : Client) (pfx marker : string) (discovered : list string)
  : M Sys.World (list string) :=
  match fuel with
  | O => pending
  | S fuel' =>
      let! page := withRetry COS_RETRY_COUNT (getBucket c pfx marker 1000) noOptions in
      let keys := List.filter Str.truthy (Contents page) in
      let discovered := discover pfx keys discovered in
      if negb (IsTruncated page) || (length keys =? 0)%nat then ret discovered
      else scanLoop fuel' c pfx (List.last keys "") discovered
  end.

Definition listVersionsFromCos (fuel : nat) (platform : string) : M Sys.World (list string) :=
  let! c := createCosClient in
  let legacyPrefix := legacyPrefixRoot +:+ "/" in
  let! discovered := scanLoop fuel c legacyPrefix "" [] in
  ret (sortDescending discovered).

Definition listAvailableVersions (fuel : nat) (platform : string)
  : M Sys.World (list string) :=
  let driver := toLowerCase (Paths.envOr "STORAGE_DRIVER" "local") in
  if String.eqb driver "cos" then
    if Str.truthy (default "" (env !! "PULZZ_COS_MOCK_ROOT")) then
      let mockRoot := default "" (env !! "PULZZ_COS_MOCK_ROOT") in
      listVersionsByFsRoot (path_join [mockRoot; legacyPrefixRoot])
    else listVersionsFromCos fuel platform
  else
    let localRoot :=
      if Str.truthy (default "" (env !! "PULZZ_CDN_ROOT"))
      then path_join [default "" (env !! "PULZZ_CDN_ROOT"); legacyPrefixRoot]
      else path_join ["/opt/pulzz-hotupdate"; "cdn"; legacyPrefixRoot] in
    listVersionsByFsRoot localRoot.

(** The primary prefix, keyed by platform and version, of the sync's earlier
    revision: [`${prefixRoot}/${platform}/${version}/`]. *)
Definition primaryPrefix (prefixRoot platform version : string) : string :=
  prefixRoot +:+ "/" +:+ platform +:+ "/" +:+ version +:+ "/".

End Sync.
End Storage.

(** ** The coordinator and the extractor ([server.js]) *)

Module Server.
Section Server.
Context `{Runtime}.

(** [COS_RETRY_COUNT] and [getLegacyHotupdatePrefixRoot()], as in
    [lib/storage.js]. *)
Variable COS_RETRY_COUNT : Z.
Variable legacyPrefixRoot : string.

Definition ADMIN_PLATFORM : string := "wxmini".

(** [String(url || '').replace(/\/+$/, '')] *)
Definition ensureNoTrailingSlash (url : string) : string :=
  Str.dropTrailing Str.slash (Str.or_else url "").

Definition joinUrl (base endpointPath : string) : string :=
  let normalizedBase := ensureNoTrailingSlash base in
  let normalizedPath :=
    if Str.startsWith endpointPath "/" then endpointPath else "/" +:+ endpointPath in
  normalizedBase +:+ normalizedPath.

Record Applied := mkApplied { alreadyCurrent : bool }.

(** [zip.extractAllTo(dst, true)] of the archive library, for an archive
    whose entries name plain relative paths that do not clash
    ([plainArchive] below): every file entry is written at its name below
    [dst].  What the library does with other names (dot segments, a file
    in the way of a directory) is not modelled, and the statements about
    an extraction are for plain archives. *)
Definition extractAllTo (zip : list Archive.ZipEntry) (dst : string) : M Sys.World unit :=
  fun w =>
    let written :=
      fold_left
        (fun (f : gmap string string) (e : Archive.ZipEntry) =>
           if Archive.isDirectory e then f
           else <[dst +:+ String Str.slash (Archive.normalizeZipEntryName (Archive.entryName e))
                  := Archive.data e]> f)
        zip (Sys.files w) in
    (Ok tt, Sys.log (Sys.EExtractAll dst) (Sys.setFiles written w)).

Definition extractZipToVersion (zip : list Archive.ZipEntry) (version uploadRoot : string)
  : M Sys.World unit :=
  let layout := Archive.inspectArchiveLayout zip version in
  if negb (Archive.ok layout) then
    throw (newError "zip_structure_mismatch" "ZIP_STRUCTURE_MISMATCH")
  else
    let! tempDir := Sys.mkdtemp (path_join [os_tmpdir; "pulzz-upload-"]) in
    let destDir := path_join [uploadRoot; version] in
    tryFinally
      (do! extractAllTo zip tempDir in
       do! Sys.rmTree destDir in
       do! Sys.mkdir destDir in
       let sourceDir :=
         if Archive.flatten layout then path_join [tempDir; version] else tempDir in
       Sys.cpTree sourceDir destDir)
      (Sys.rmTree tempDir).

Definition lockPath : string := Paths.getStateFilePath +:+ ".publish.lock".

(** The critical section of [applyVersion]; [fuel] bounds the turns of the
    listing's paging loop. *)
Definition applyLocked (fuel : nat) (version action : string) : M Sys.World Applied :=
  let! available :=
    Storage.listAvailableVersions COS_RETRY_COUNT legacyPrefixRoot fuel ADMIN_PLATFORM in
  if negb (bool_decide (version ∈ available)) then
    throw (newError "version_not_found" "VERSION_NOT_FOUND")
  else
    let! state := State.readState in
    if String.eqb (State.currentVersion state) version then
      ret {| alreadyCurrent := true |}
    else
      do! State.setCurrentVersion version action in
      ret {| alreadyCurrent := false |}.

Definition applyVersion (fuel : nat) (version action : string) : M Sys.World Applied :=
  tryCatch
    (Lock.withFileLock lockPath (applyLocked fuel version action) Lock.noOptions)
    (fun error =>
       readCode error (fun code =>
         if bool_decide (code = Some "LOCK_TIMEOUT")
         then throw (newError "lock_busy" "LOCK_BUSY")
         else throw error)).

End Server.
End Server.

(** ** Replies ([lib/response.js]) *)

Module Response.

Record HttpJsonResult := mkResult { Code : Z; Message : string; Data : string }.

Section Response.
Context `{Runtime}.

(** [JSON.stringify(data)], without indentation. *)
Variable stringify : json number -> string.

Definition httpJsonResult (code : Z) (message : string) (data : json number)
  : HttpJsonResult :=
  {| Code := code;
     Message := message;
     Data := match data with JStr s => s | _ => stringify data end |}.

(** [success(data, message = 'ok')] *)
Definition success (data : json number) (message : option string) : HttpJsonResult :=
  httpJsonResult 0 (default "ok" message) data.

(** [failure(code, message, data = {})] *)
Definition failure (code : Z) (message : string) (data : option (json number))
  : HttpJsonResult :=
  httpJsonResult code message (default (JObj ∅) data).

End Response.
End Response.

(** ** The publish and switch routes ([server.js], in [createServer]) *)

Module Routes.

Definition INVALID_VERSION_NAME : Z := 4001.
Definition ZIP_STRUCTURE_MISMATCH : Z := 4002.
Definition INVALID_PLATFORM : Z := 4003.
Definition VERSION_NOT_FOUND : Z := 4004.
Definition INVALID_REQUEST : Z := 4005.
Definition LOCK_BUSY : Z := 4006.
Definition FILE_TOO_LARGE : Z := 4007.
Definition INTERNAL : Z := 5000.

(** What a route sends: [reply.code(c).send(x)], or the value it returns,
    sent with the status 200. *)
Record Reply := mkReply { statusCode : Z; payload : Response.HttpJsonResult }.

Section Routes.
Context `{Runtime}.

Variable COS_RETRY_COUNT : Z.
Variable legacyPrefixRoot : string.

(** [JSON.stringify(data)], and [Boolean(n)] and [String(n)] for a number. *)
Variable stringify : json number -> string.
Variable Number_truthy : number -> bool.
Variable Number_toString : number -> string.

(** [s.trim()]; [path.parse(p)], as its [name] and its [ext]; and
    [new AdmZip(filePath)] on the content of the file: the entries of the
    archive, or what the constructor throws. *)
Variable trim : string -> string.
Variable path_parse : string -> string * string.
Variable unzip : string -> Thrown + list Archive.ZipEntry.

Local Abbreviation value := (json number).

(** A part of a multipart body: a field with its value, or a file with
    its name and what [part.toBuffer()] gives. *)
Inductive Part : Type :=
| Field (fieldname value : string)
| File (fieldname filename : string) (toBuffer : Result string).

(** The request as the routes read it: the parsed body ([undefined] is
    [None]), the parts of a multipart body and the logger. *)
Record Request := mkRequest {
  body : option value;
  parts : list Part;
  log_error : Thrown -> M Sys.World unit
}.

(** [Boolean(v)] *)
Definition truthy (v : option value) : bool :=
  match v with
  | None | Some JNull => false
  | Some (JBool b) => b
  | Some (JNum n) => Number_truthy n
  | Some (JStr s) => Str.truthy s
  | Some (JArr _) | Some (JObj _) => true
  end.

(** [parts.join(',')] *)
Fixpoint joinComma (parts : list string) : string :=
  match parts with
  | [] => ""
  | [p] => p
  | p :: rest => p +:+ "," +:+ joinComma rest
  end.

(** [String(v)]: an array is its elements joined by commas, [null] among
    them as the empty string. *)
Fixpoint toString (v : value) : string :=
  match v with
  | JNull => "null"
  | JBool true => "true"
  | JBool false => "false"
  | JNum n => Number_toString n
  | JStr s => s
  | JArr l => joinComma (map (fun x => match x with JNull => "" | _ => toString x end) l)
  | JObj _ => "[object Object]"
  end.

(** [const { key } = request.body || {}]: a body that is not an object
    has no such property. *)
Definition bodyField (request : Request) (key : string) : option value :=
  match body request with
  | Some (JObj o) => o !! key
  | _ => None
  end.

(** [v === s] for a string [s]. *)
Definition isString (v : option value) (s : string) : bool :=
  match v with
  | Some (JStr t) => String.eqb t s
  | _ => false
  end.

(** [discovered.includes(version)]: the list holds strings only. *)
Definition includes (discovered : list string) (version : option value) : bool :=
  match version with
  | Some (JStr s) => bool_decide (s ∈ discovered)
  | _ => false
  end.

Definition send (code : Z) (result : Response.HttpJsonResult) : Reply :=
  {| statusCode := code; payload := result |}.

Definition failed (status code : Z) (message : string) : Reply :=
  send status (Response.failure stringify code message (Some (JObj ∅))).

(** [success({ version, platform }, message)], returned by the route. *)
Definition applied (version platform message : string) : Reply :=
  send 200 (Response.success stringify
              (JObj (<["version" := JStr version]> (<["platform" := JStr platform]> ∅)))
              (Some message)).

Definition handlePublishOrSwitch (fuel : nat) (request : Request) (action : string)
  : M Sys.World Reply :=
  let platform := bodyField request "platform" in
  let version := bodyField request "version" in
  if negb (isString platform Server.ADMIN_PLATFORM)
  then ret (failed 400 INVALID_PLATFORM "invalid_platform")
  else if negb (Str.isNumeric (match version with
                               | Some v => if truthy version then toString v else ""
                               | None => ""
                               end))
  then ret (failed 400 INVALID_REQUEST "invalid_version")
  else
    tryCatch
      (let! discovered :=
         Storage.listAvailableVersions COS_RETRY_COUNT legacyPrefixRoot fuel
           Server.ADMIN_PLATFORM in
       (* for a [version] that is not a string, [includes] is [false] *)
       match version with
       | Some (JStr v) =>
           if negb (includes discovered version)
           then ret (failed 400 VERSION_NOT_FOUND "version_not_found")
           else
             let! result :=
               Server.applyVersion COS_RETRY_COUNT legacyPrefixRoot fuel v action in
             if Server.alreadyCurrent result
             then ret (applied v Server.ADMIN_PLATFORM "already_current")
             else ret (applied v Server.ADMIN_PLATFORM
                         (if String.eqb action "publish" then "published" else "switched"))
       | _ => ret (failed 400 VERSION_NOT_FOUND "version_not_found")
       end)
      (fun error =>
         do! log_error request error in
         readCode error (fun code =>
           if bool_decide (code = Some "LOCK_BUSY")
           then ret (failed 409 LOCK_BUSY "lock_busy")
           else if bool_decide (code = Some "VERSION_NOT_FOUND")
           then ret (failed 400 VERSION_NOT_FOUND "version_not_found")
           else ret (failed 500 INTERNAL "internal_error"))).

(** [app.post('/admin/publish', ...)] and [app.post('/admin/switch', ...)] *)
Definition publish (fuel : nat) (request : Request) : M Sys.World Reply :=
  handlePublishOrSwitch fuel request "publish".

Definition switch (fuel : nat) (request : Request) : M Sys.World Reply :=
  handlePublishOrSwitch fuel request "switch".

(** [parseVersionFromFilename] of [server.js]. *)
Definition parseVersionFromFilename (filename : string) : option string :=
  let parsed := path_parse (Str.or_else filename "") in
  if negb (String.eqb (toLowerCase parsed.2) ".zip") then None
  else if negb (Str.isNumeric parsed.1) then None
  else Some parsed.1.

(** One turn of [for await (const part of parts)] over
    [(platform, fileName, fileBuffer)]. *)
Definition scanPart (acc : string * string * option string) (part : Part)
  : Result (string * string * option string) :=
  let '(platform, fileName, fileBuffer) := acc in
  match part with
  | Field fieldname value =>
      Ok (if String.eqb fieldname "platform" then trim (Str.or_else value "") else platform,
          fileName, fileBuffer)
  | File fieldname filename toBuffer =>
      if String.eqb fieldname "file" then
        match toBuffer with
        | Ok buffer => Ok (platform, Str.or_else filename "", Some buffer)
        | Err e => Err e
        | Pending => Pending
        end
      else Ok acc
  end.

Fixpoint scanParts (acc : string * string * option string) (ps : list Part)
  : Result (string * string * option string) :=
  match ps with
  | [] => Ok acc
  | part :: rest =>
      match scanPart acc part with
      | Ok acc' => scanParts acc' rest
      | r => r
      end
  end.

(** The [catch] block of the upload route. *)
Definition uploadFailed (request : Request) (error : Thrown) : M Sys.World Reply :=
  do! log_error request error in
  match error with
  | ThrownNull => throw TypeError
  | ThrownError message code statusCode =>
      if bool_decide (code = Some "FST_REQ_FILE_TOO_LARGE") || bool_decide (statusCode = Some 413)
      then ret (failed 413 FILE_TOO_LARGE "file_too_large")
      else if bool_decide (code = Some "ZIP_STRUCTURE_MISMATCH")
      then ret (failed 400 ZIP_STRUCTURE_MISMATCH "zip_structure_mismatch")
      else if bool_decide (code = Some "COS_CONFIG_MISSING")
      then ret (failed 500 INTERNAL "cos_config_missing")
      else if Str.truthy message
      then ret (failed 500 INTERNAL ("internal_error:" +:+ message))
      else ret (failed 500 INTERNAL "internal_error")
  end.

(** [app.post('/admin/upload', ...)]; [tempName] is the name that
    [Date.now()] and [Math.random()] give the temporary file. *)
Definition upload (fuel : nat) (request : Request) (tempName : string) : M Sys.World Reply :=
  let! scanned := State.liftR (scanParts ("", "", None) (parts request)) in
  let '(platform, fileName, fileBuffer) := scanned in
  if negb (String.eqb platform Server.ADMIN_PLATFORM)
  then ret (failed 400 INVALID_PLATFORM "invalid_platform")
  else
    match fileBuffer with
    | None => ret (failed 400 INVALID_REQUEST "missing_file")
    | Some buffer =>
        match parseVersionFromFilename fileName with
        | None => ret (failed 400 INVALID_VERSION_NAME "invalid_version_filename")
        | Some version =>
            let tempFile := path_join [os_tmpdir; tempName] in
            let uploadRoot := Paths.getUploadRoot Server.ADMIN_PLATFORM in
            tryFinally
              (tryCatch
                 (do! Sys.mkdir uploadRoot in
                  do! Sys.writeFile tempFile buffer in
                  let! content := Sys.readFile tempFile in
                  let! zip := (match unzip content with
                               | inl error => throw error
                               | inr entries => ret entries
                               end) in
                  do! Server.extractZipToVersion zip version uploadRoot in
                  do! Storage.syncUploadedVersion COS_RETRY_COUNT legacyPrefixRoot fuel platform
                        version (path_join [uploadRoot; version]) in
                  let! overwrite := State.recordUpload version in
                  ret (applied version platform
                         (if overwrite : bool then "uploaded_overwrite" else "uploaded")))
                 (uploadFailed request))
              (Sys.rm tempFile)
        end
    end.

End Routes.
End Routes.

(** ** A reference platform

    A concrete [Runtime] at which the statements below are instantiated:
    integers for numbers, a lossless codec, a clock that counts, and a
    POSIX-like [path]. *)

Module Reference.

Definition leaf : Type := bool + Z + string.

Fixpoint to_tree (v : json Z) : gen_tree leaf :=
  match v with
  | JNull => GenNode 0 []
  | JBool b => GenLeaf (inl (inl b))
  | JNum n => GenLeaf (inl (inr n))
  | JStr s => GenLeaf (inr s)
  | JArr l => GenNode 1 (map to_tree l)
  | JObj o =>
      GenNode 2 (map (fun kv : string * gen_tree leaf => GenNode 3 [GenLeaf (inr kv.1); kv.2])
                     (map_to_list (to_tree <$> o)))
  end.

Definition of_field (of_tree : gen_tree leaf -> json Z) (t : gen_tree leaf)
  : string * json Z :=
  match t with
  | GenNode _ [GenLeaf (inr k); t'] => (k, of_tree t')
  | _ => ("", JNull)
  end.

Fixpoint of_tree (t : gen_tree leaf) : json Z :=
  match t with
  | GenLeaf (inl (inl b)) => JBool b
  | GenLeaf (inl (inr n)) => JNum n
  | GenLeaf (inr s) => JStr s
  | GenNode 1 ts => JArr (map of_tree ts)
  | GenNode 2 ts => JObj (list_to_map (map (of_field of_tree) ts))
  | GenNode _ _ => JNull
  end.

Fixpoint size (v : json Z) : nat :=
  match v with
  | JArr l => S (foldr (fun v n => size v + n)%nat 0%nat l)
  | JObj o => S (map_fold (fun _ v n => size v + n)%nat 0%nat o)
  | _ => 1%nat
  end.

Definition zero : ascii := ascii_of_nat 48.
Definition one : ascii := ascii_of_nat 49.

Fixpoint bits (p : positive) : string :=
  match p with
  | xH => EmptyString
  | xO q => String zero (bits q)
  | xI q => String one (bits q)
  end.

(** Reads binary digits up to the first other character. *)
Fixpoint unbits (s : string) : positive :=
  match s with
  | EmptyString => xH
  | String c rest =>
      if Ascii.eqb c zero then xO (unbits rest)
      else if Ascii.eqb c one then xI (unbits rest)
      else xH
  end.

Definition stringify (v : json Z) : string := bits (encode (to_tree v)).

Definition parse (s : string) : option (json Z) :=
  of_tree <$> decode (unbits s).

Definition join (parts : list string) : string :=
  match parts with
  | [] => "."
  | p :: rest => fold_left (fun acc q => acc +:+ "/" +:+ q) rest p
  end.

(** The path up to its last separator. *)
Definition dirname (p : string) : string :=
  match reverse (Str.split Str.slash p) with
  | _ :: (_ :: _) as front => join (reverse front)
  | _ => "."
  end.

(** The lower case of ASCII text, which is all the reference platform
    is given. *)
Definition lowerChar (c : ascii) : ascii :=
  let n := nat_of_ascii c in
  if ((65 <=? n)%nat && (n <=? 90)%nat)%bool then ascii_of_nat (n + 32) else c.

Fixpoint lowerCase (s : string) : string :=
  match s with
  | EmptyString => EmptyString
  | String c rest => String (lowerChar c) (lowerCase rest)
  end.

(** The number a string of digits denotes. *)
Fixpoint numberOf (acc : N) (s : string) : N :=
  match s with
  | EmptyString => acc
  | String c rest => numberOf (10 * acc + N.of_nat (nat_of_ascii c - 48)) rest
  end.

Definition NumberGe (a b : string) : Prop := (numberOf 0 b <= numberOf 0 a)%N.

#[global] Instance NumberGe_dec : RelDecision NumberGe.
Proof. intros a b. unfold NumberGe. apply _. Defined.

Definition environment : gmap string string :=
  <["PULZZ_STATE_PATH" := "/srv/app/config/state.json"]>
  (<["STORAGE_DRIVER" := "cos"]>
   (<["TENCENT_SECRET_ID" := "id"]>
    (<["TENCENT_SECRET_KEY" := "key"]>
     (<["TENCENT_COS_BUCKET" := "pulzz-1250000000"]>
      (<["TENCENT_COS_REGION" := "ap-guangzhou"]> ∅))))).

Definition runtime : Runtime := {|
  number := Z;
  toLowerCase := lowerCase;
  JSON_stringify := stringify;
  JSON_parse := parse;
  clock := fun n => "2026-01-01T00:00:00." +:+ pretty n +:+ "Z";
  path_dirname := dirname;
  path_join := join;
  os_tmpdir := "/tmp";
  tmpSuffix := fun n => pretty n;
  sortDescending := merge_sort NumberGe;
  env := environment
|}.

(** An empty machine. *)
Definition fresh : Sys.World :=
  {| Sys.files := ∅; Sys.bucket := ∅; Sys.ticks := 0; Sys.temps := 0;
     Sys.faults := []; Sys.trace := [] |}.

End Reference.

(** * Vocabulary of the statements *)

Module Vocabulary.

(** An entry adds its first segment to [topFolders] unless it is a root
    file or has no segment at all. *)
Definition contributes (e : Archive.Entry) : bool :=
  if Archive.isDir e then (1 <=? length (Archive.parts e))%nat else negb (length (Archive.parts e) =? 1)%nat.

(** An archive with the two top-level folders [a] and [b] and no root file. *)
Definition twoFolders : list Archive.ZipEntry :=
  [Archive.mkEntry "a/x.txt" false "x"; Archive.mkEntry "b/y.txt" false "y"].

(** An archive whose only top-level folder is named [99]. *)
Definition folder99 : list Archive.ZipEntry :=
  [Archive.mkEntry "99/" true ""; Archive.mkEntry "99/config.json" false "{}"].

(** A computation that leaves the files as they were, whatever it
    returns or throws. *)
Definition keepsFiles {A} (m : M Sys.World A) : Prop :=
  forall w, Sys.files (m w).2 = Sys.files w.

(** The world after the lock file at [p] was created. *)
Definition locked (p : string) (w : Sys.World) : Sys.World :=
  Sys.log (Sys.EOpenWx p) (Sys.setFiles (<[p := ""]> (Sys.files w)) w).

(** The world after the [finally] block of [withFileLock] released [p]. *)
Definition released (p : string) (w : Sys.World) : Sys.World :=
  Sys.log (Sys.ERm p) (Sys.setFiles (delete p (Sys.files (Sys.log (Sys.EClose p) w)))
                                 (Sys.log (Sys.EClose p) w)).

(** The world after [n] attempts on the lock file at [p] met a conflict,
    each followed by a sleep of [ms]. *)
Fixpoint polled (p : string) (ms : Z) (n : nat) (w : Sys.World) : Sys.World :=
  match n with
  | O => w
  | S n' => polled p ms n' (Sys.log (Sys.ESleep ms) (Sys.log (Sys.EOpenWx p) w))
  end.

(** The strict order of the service's listings. *)
Definition StringLt (a b : string) : Prop := String.ltb a b = true.

(** The world after the calls [evs] left the bucket as [b]. *)
Definition requested (evs : list Sys.Event) (b : gmap string string) (w : Sys.World) : Sys.World :=
  {| Sys.files := Sys.files w; Sys.bucket := b; Sys.ticks := Sys.ticks w; Sys.temps := Sys.temps w;
     Sys.faults := Sys.faults w; Sys.trace := Sys.trace w ++ evs |}.

(** The bucket after the delete requests for [chunks]. *)
Definition purged (chunks : list (list string)) (b : gmap string string) : gmap string string :=
  fold_left (fun b chunk => foldr delete b chunk) chunks b.

(** The key the sync gives the file [file] of [sourceDir] under [pfx]. *)
Definition keyOf (pfx sourceDir file : string) : string :=
  pfx +:+ Storage.normalizeRelPath (Sys.relativeTo sourceDir file).

(** The bucket after the files [files], read from [local], were put under
    [pfx]. *)
Definition mirrored (pfx sourceDir : string) (local : gmap string string)
    (files : list string) (b : gmap string string) : gmap string string :=
  fold_left (fun b file => <[keyOf pfx sourceDir file := default "" (local !! file)]> b) files b.

(** The two calls the sync makes for one file. *)
Definition uploadEvents (c : Storage.Client) (pfx sourceDir : string)
    (local : gmap string string) (file : string) : list Sys.Event :=
  [Sys.EReadFile file;
   Sys.EPutObject (Storage.Bucket c) (Storage.Region c) (keyOf pfx sourceDir file)
                 (default "" (local !! file))].

(** A listing request for the prefix [pfx]. *)
Definition isListing (c : Storage.Client) (pfx : string) (e : Sys.Event) : Prop :=
  exists marker, e = Sys.EGetBucket (Storage.Bucket c) (Storage.Region c) pfx marker 1000.

(** The files [listFiles] finds below [rootDir]. *)
Definition filesBelow (rootDir : string) (local : gmap string string) : list string :=
  List.filter (Sys.under rootDir) (map fst (map_to_list local)).

(** The first segment of a key after the prefix [pfx]: the version the
    listing reads from it. *)
Definition versionOfKey (pfx key : string) : string :=
  hd "" (Str.split Str.slash (Str.slice (String.length pfx) key)).

(** A path segment that names a file or a directory. *)
Definition plainSegment (s : string) : bool :=
  Str.truthy s && negb (String.eqb s ".") && negb (String.eqb s "..").

(** A plain relative path: no backslash, and between its slashes only
    segments that name something. *)
Definition plainPath (p : string) : bool :=
  negb (Str.includes p (String Str.backslash EmptyString))
  && forallb plainSegment (Str.split Str.slash p).

(** The path an entry names: the name of a directory entry ends with a
    slash. *)
Definition entryPath (e : Archive.ZipEntry) : string :=
  if Archive.isDirectory e then Str.dropTrailing Str.slash (Archive.entryName e)
  else Archive.entryName e.

Definition plainEntry (e : Archive.ZipEntry) : bool :=
  plainPath (entryPath e)
  && String.eqb (Archive.entryName e)
       (if Archive.isDirectory e then entryPath e +:+ "/" else entryPath e).

(** An archive whose extraction is the writing of its files: every entry
    names a plain path, no name comes twice, and no entry lies at or below
    the path of a file entry. *)
Definition plainArchive (zip : list Archive.ZipEntry) : bool :=
  forallb plainEntry zip
  && bool_decide (NoDup (Archive.entryName <$> zip))
  && forallb
       (fun e =>
          Archive.isDirectory e
          || forallb (fun e' => negb (Sys.under (Archive.entryName e) (Archive.entryName e')))
               zip)
       zip.

(** The path a file entry is extracted to below [dst], and one step of
    the extraction. *)
Definition extractedTo (dst : string) (e : Archive.ZipEntry) : string :=
  dst +:+ String Str.slash (Archive.normalizeZipEntryName (Archive.entryName e)).

Definition extractEntry (dst : string) (f : gmap string string) (e : Archive.ZipEntry)
  : gmap string string :=
  if Archive.isDirectory e then f else <[extractedTo dst e := Archive.data e]> f.

(** Where the file entry named [name] lands below the directory of the
    version: with [flatten], the entries below the folder named as the
    version land without that folder and the others are not installed. *)
Definition installedAs (flatten : bool) (version name : string) : option string :=
  if flatten then
    if Sys.under version name then Some (Sys.relativeTo version name) else None
  else Some name.

(** Two directories neither of which is, or lies inside, the other. *)
Definition apart (a b : string) : bool :=
  negb (Str.startsWith (a +:+ "/") (b +:+ "/"))
  && negb (Str.startsWith (b +:+ "/") (a +:+ "/")).

Section Retry.
Context {S A : Type} `{Timer S} `{Runtime}.

(** [failing task baseDelay i n w w']: from the world [w], [n] invocations
    of [task] in a row throw a retryable error, the k-th of them (counted
    from [i + 1]) followed by a sleep of [baseDelay * k]; [w'] is the world
    after the last sleep. *)
Inductive failing (task : M S A) (baseDelay : Z) : Z -> nat -> S -> S -> Prop :=
| failing_none i w : failing task baseDelay i 0 w w
| failing_more i n w e w1 w' :
    task w = (Err e, w1) ->
    Storage.isRetryableCosError e = true ->
    failing task baseDelay (i + 1) n (elapse (baseDelay * (i + 1)) w1) w' ->
    failing task baseDelay i (Datatypes.S n) w w'.

End Retry.

Section Registry.
Context `{Runtime}.

(** The text of a document, as [atomicWriteState] writes it. *)
Definition textOf (d : State.Doc) : string :=
  JSON_stringify (State.docObject d) +:+ Str.newline.

(** The document [readState] makes of the text of the live file. *)
Definition docOfText (text : string) : State.Doc :=
  State.normalizeState (match JSON_parse text with
                        | Some v => v
                        | None => State.DEFAULT_STATE
                        end).

(** The world after [atomicWriteState] wrote [text]: the three calls it
    makes, in order. *)
Definition written (text : string) (w : Sys.World) : Sys.World :=
  let w1 := Sys.log (Sys.EMkdir (path_dirname Paths.getStateFilePath)) w in
  let w2 := Sys.log (Sys.EWriteFile State.tempPath text)
                   (Sys.setFiles (<[State.tempPath := text]> (Sys.files w1)) w1) in
  Sys.log (Sys.ERename State.tempPath Paths.getStateFilePath)
         (Sys.setFiles (<[Paths.getStateFilePath := text]> (delete State.tempPath (Sys.files w2)))
                      w2).

(** The world after [readState] found the live file. *)
Definition readPresent (w : Sys.World) : Sys.World :=
  Sys.log (Sys.EReadFile Paths.getStateFilePath)
         (Sys.log (Sys.EAccess Paths.getStateFilePath)
                 (Sys.log (Sys.EMkdir (path_dirname Paths.getStateFilePath)) w)).

(** The world after [readState] created the live file. *)
Definition readAbsent (w : Sys.World) : Sys.World :=
  Sys.log (Sys.EReadFile Paths.getStateFilePath)
         (written (textOf State.DEFAULT_DOC)
                  (Sys.log (Sys.EAccess Paths.getStateFilePath)
                          (Sys.log (Sys.EMkdir (path_dirname Paths.getStateFilePath)) w))).

(** The document the registry holds in a world: the one [readState] makes
    of the live file, and the default document when there is none. *)
Definition currentDoc (w : Sys.World) : State.Doc :=
  match Sys.files w !! Paths.getStateFilePath with
  | Some text => docOfText text
  | None => State.DEFAULT_DOC
  end.

(** The world after [readState]. *)
Definition afterRead (w : Sys.World) : Sys.World :=
  match Sys.files w !! Paths.getStateFilePath with
  | Some _ => readPresent w
  | None => readAbsent w
  end.

(** [k] readings of the clock later. *)
Fixpoint ticked (k : nat) (w : Sys.World) : Sys.World :=
  match k with
  | O => w
  | S k' => ticked k' (Sys.tick w)
  end.

(** The record [r] is the record of [version]: its [version] field is that
    string. *)
Definition recordOf (version : string) (r : json number) : bool :=
  match State.optProp r "version" with
  | Some (JStr s) => String.eqb s version
  | _ => false
  end.

(** The current version is unset or names a record of [versions]. *)
Definition currentKnown (d : State.Doc) : Prop :=
  State.currentVersion d = ""
  \/ exists r, r ∈ State.versions d /\ recordOf (State.currentVersion d) r = true.

(** The documents in which no record is [null]. *)
Definition wellKept (d : State.Doc) : Prop :=
  Forall (fun v : json number => v <> JNull) (State.versions d).

(** The operations of the registry. *)
Inductive Op : Type :=
| RecordUpload (version : string)
| SetCurrentVersion (version action : string).

Definition runOp (op : Op) : M Sys.World unit :=
  match op with
  | RecordUpload version => (let! _ := State.recordUpload version in ret tt)%js
  | SetCurrentVersion version action => State.setCurrentVersion version action
  end.

(** The world after the operations [ops], one after the other, whether
    they return or throw. *)
Fixpoint runOps (ops : list Op) (w : Sys.World) : Sys.World :=
  match ops with
  | [] => w
  | op :: rest => runOps rest (runOp op w).2
  end.

(** The history entry [e] is the one the operation [op] leaves. *)
Definition logged (op : Op) (e : json number) : Prop :=
  match op with
  | RecordUpload version =>
      exists t, e = State.historyEntry "upload" version t
                \/ e = State.historyEntry "upload_overwrite" version t
  | SetCurrentVersion version action => exists t, e = State.historyEntry action version t
  end.

End Registry.

End Vocabulary.
Import Vocabulary.

(** * Sample inputs *)

Module Examples.
#[local] Existing Instance Reference.runtime.

(** A registry that knows version [100] only. *)
Definition knows100 : State.Doc :=
  {| State.currentVersion := "";
     State.versions := [State.uploadedRecord "100" "t0"];
     State.history := [State.historyEntry "upload" "100" "t1"] |}.

(** A registry whose current version is [100]. *)
Definition current100 : State.Doc :=
  {| State.currentVersion := "100";
     State.versions := [State.publishedRecord "100" "t0" "t1"];
     State.history := [State.historyEntry "upload" "100" "t0";
                       State.historyEntry "publish" "100" "t2"] |}.

(** A client of the reference bucket, and three errors of the service. *)
Definition client : Storage.Client :=
  {| Storage.Bucket := "pulzz-1250000000"; Storage.Region := "ap-guangzhou" |}.
Definition unavailable : Thrown := ThrownError "Service Unavailable" None (Some 503).
Definition reset : Thrown := ThrownError "read ECONNRESET" (Some "ECONNRESET") None.
Definition denied : Thrown := ThrownError "Access Denied" (Some "AccessDenied") (Some 403).

(** The legacy prefix root of the deployment, and a machine whose upload
    root holds the bundle of version [100] while the bucket holds a stale
    object of that version under the legacy prefix and another under the
    primary prefix [pulzz-gameres/wxmini/100/]. *)
Definition legacyRoot : string :=
  "hotupdate/com.smartdog.bbqgame/WebGLWxMiniGame/1.0.0/WxMiniGame/DefaultPackage".

Definition bundle100 : Sys.World :=
  {| Sys.files := {[ "/srv/cdn/gameres/wxmini/100/config.json" := "{k:1}" ]};
     Sys.bucket :=
       <[legacyRoot +:+ "/100/old.bin" := "stale"]>
         {[ "pulzz-gameres/wxmini/100/old.bin" := "stale" ]};
     Sys.ticks := 0; Sys.temps := 0; Sys.faults := []; Sys.trace := [] |}.

(** A bundle with a root file beside two folders. *)
Definition rootAndFolders : list Archive.ZipEntry :=
  [Archive.mkEntry "version.json" false "{}";
   Archive.mkEntry "assets\a.bin" false "a";
   Archive.mkEntry "/scripts/b.js" false "b"].

(** The numbers of the reference platform as a route reads them, and a
    logger that keeps nothing. *)
Definition numberTruthy (n : Z) : bool := negb (n =? 0).
Definition numberToString (n : Z) : string := pretty n.
Definition quiet : Thrown -> M Sys.World unit := fun _ => ret tt.

(** The request [{platform, version}] with string values. *)
Definition requestFor (platform version : string) : Routes.Request :=
  {| Routes.body :=
       Some (JObj (<["platform" := JStr platform]> (<["version" := JStr version]> ∅)));
     Routes.parts := [];
     Routes.log_error := quiet |}.

(** A [path.parse] for plain file names: the name and the extension from
    its last dot on; and an archive library that knows two archives. *)
Fixpoint splitExt (s : string) : string * string :=
  match s with
  | EmptyString => (EmptyString, EmptyString)
  | String c rest =>
      let '(name, ext) := splitExt rest in
      if Str.truthy ext then (String c name, ext)
      else if Ascii.eqb c (ascii_of_nat 46) then (EmptyString, String c rest)
      else (String c name, EmptyString)
  end.

Definition archives (content : string) : Thrown + list Archive.ZipEntry :=
  if String.eqb content "zip:folder99" then inr folder99
  else if String.eqb content "zip:twoFolders" then inr twoFolders
  else inl (ThrownError "Invalid or unsupported zip format" None None).

(** The multipart request of an upload. *)
Definition uploadOf {R : Runtime} (fileName content : string) : Routes.Request (H := R) :=
  {| Routes.body := None;
     Routes.parts := [Routes.Field "platform" "wxmini";
                      Routes.File "file" fileName (Ok content)];
     Routes.log_error := quiet |}.

(** The reference platform with another environment. *)
Definition platformWith (e : gmap string string) : Runtime := {|
  number := Z;
  toLowerCase := Reference.lowerCase;
  JSON_stringify := Reference.stringify;
  JSON_parse := Reference.parse;
  clock := fun n => "2026-01-01T00:00:00." +:+ pretty n +:+ "Z";
  path_dirname := Reference.dirname;
  path_join := Reference.join;
  os_tmpdir := "/tmp";
  tmpSuffix := fun n => pretty n;
  sortDescending := merge_sort Reference.NumberGe;
  env := e
|}.

(** A deployment that names no storage driver, one that names the [cos]
    driver in capitals without credentials, and one that mocks the bucket
    under [/srv/mock]. *)
Definition localEnv : gmap string string :=
  {[ "PULZZ_STATE_PATH" := "/srv/app/config/state.json" ]}.

Definition keylessEnv : gmap string string :=
  <["STORAGE_DRIVER" := "COS"]> (<["TENCENT_COS_BUCKET" := "pulzz-1250000000"]> ∅).

Definition mockEnv : gmap string string :=
  <["STORAGE_DRIVER" := "cos"]> (<["PULZZ_COS_MOCK_ROOT" := "/srv/mock"]> ∅).

End Examples.
Import Examples.

(** * Properties *)

(** ** Strings *)

Lemma split_cons_head sep a r :
  Ascii.eqb a sep = false ->
  exists h t, Str.split sep (String a r) = String a h :: t.
Proof.
  intros Ha. simpl. rewrite Ha.
  destruct (Str.split sep r) as [|h t]; eauto.
Qed.

Lemma dropLeading_head c s a r :
  Str.dropLeading c s = String a r -> Ascii.eqb a c = false.
Proof.
  induction s as [|d s IH]; simpl; [discriminate|].
  destruct (Ascii.eqb d c) eqn:E; [exact IH|].
  intros [= -> _]. exact E.
Qed.

Lemma append_length (a b : string) :
  String.length (a +:+ b) = (String.length a + String.length b)%nat.
Proof. induction a as [|c a IH]; simpl; [reflexivity|]. now rewrite IH. Qed.

Lemma append_suffix_neq (a b : string) : b <> EmptyString -> a +:+ b <> a.
Proof.
  intros Hb Heq. apply (f_equal String.length) in Heq.
  rewrite append_length in Heq. destruct b; [congruence|]. simpl in Heq. lia.
Qed.

(** ** The archive inspector *)

Section ArchiveFacts.
Import Archive.

Lemma elem_of_setAdd {A} `{EqDecision A} (x y : A) s : y ∈ setAdd x s <-> y = x \/ y ∈ s.
Proof.
  unfold setAdd. case_bool_decide as Hin.
  - split; [auto|]. intros [->|]; assumption.
  - rewrite elem_of_app, list_elem_of_singleton. tauto.
Qed.

Lemma NoDup_setAdd {A} `{EqDecision A} (x : A) s : NoDup s -> NoDup (setAdd x s).
Proof.
  intros Hs. unfold setAdd. case_bool_decide as Hin; [assumption|].
  apply NoDup_app. split; [assumption|]. split.
  - intros y Hy Hy'. apply list_elem_of_singleton in Hy'. now subst.
  - apply NoDup_singleton.
Qed.

Lemma scanEntry_spec acc e :
  (scanEntry acc e).2 = acc.2 || isRootFile e
  /\ (forall x, x ∈ (scanEntry acc e).1 <->
                x ∈ acc.1 \/ (contributes e = true /\ x = head (parts e)))
  /\ (NoDup acc.1 -> NoDup (scanEntry acc e).1).
Proof.
  destruct acc as [tf hr]. unfold scanEntry, isRootFile, Vocabulary.contributes.
  destruct (isDir e); cbn [negb andb fst snd].
  - destruct (1 <=? length (parts e))%nat; cbn [fst snd].
    + split; [now rewrite orb_false_r|]. split.
      * intros x. rewrite elem_of_setAdd. intuition congruence.
      * apply NoDup_setAdd.
    + split; [now rewrite orb_false_r|]. split; [|auto].
      intros x. intuition congruence.
  - destruct (length (parts e) =? 1)%nat; cbn [negb fst snd].
    + split; [now rewrite orb_true_r|]. split; [|auto].
      intros x. intuition congruence.
    + split; [now rewrite orb_false_r|]. split.
      * intros x. rewrite elem_of_setAdd. intuition congruence.
      * apply NoDup_setAdd.
Qed.

Lemma scan_fold_spec entries acc :
  (fold_left scanEntry entries acc).2 = acc.2 || existsb isRootFile entries
  /\ (forall x, x ∈ (fold_left scanEntry entries acc).1 <->
                x ∈ acc.1 \/ exists e, e ∈ entries /\ contributes e = true /\ x = head (parts e))
  /\ (NoDup acc.1 -> NoDup (fold_left scanEntry entries acc).1).
Proof.
  revert acc. induction entries as [|e entries IH]; intros acc; simpl.
  - split; [now rewrite orb_false_r|]. split; [|auto].
    intros x. split; [auto|]. intros [?|(e & He & _)]; [assumption|].
    now apply elem_of_nil in He.
  - destruct (IH (scanEntry acc e)) as (Hr & Hin & Hnd).
    destruct (scanEntry_spec acc e) as (Hr1 & Hin1 & Hnd1).
    split; [rewrite Hr, Hr1; now rewrite orb_assoc|]. split; [|auto].
    intros x. rewrite Hin, Hin1. split.
    + intros [[?|[Hc ->]]|(e' & He' & Hc & ->)]; [auto| |].
      * right. exists e. split; [left|]; auto.
      * right. exists e'. split; [now right|]; auto.
    + intros [?|(e' & He' & Hc & ->)]; [auto|].
      apply elem_of_cons in He' as [->|He']; [auto|].
      right. exists e'. auto.
Qed.

Lemma no_root_file entries :
  (forall e, e ∈ entries -> isRootFile e = false) -> existsb isRootFile entries = false.
Proof.
  intros Hno. apply not_true_is_false. intros Hex.
  apply existsb_exists in Hex as (e & He & Hroot).
  apply list_elem_of_In in He. rewrite (Hno e He) in Hroot. discriminate.
Qed.

(** Without being a root file, an entry that has a first segment adds it. *)
Lemma contributes_of_segment e s :
  isRootFile e = false -> topSegment e = Some s -> contributes e = true.
Proof.
  unfold isRootFile, contributes, topSegment. intros Hroot Hseg.
  destruct (parts e) as [|p ps]; [discriminate|]. simpl in *.
  destruct (isDir e); simpl in *; [reflexivity|].
  now rewrite Hroot.
Qed.

(** Every usable entry has a first segment: its name is not empty and
    does not start with a slash. *)
Lemma usable_has_segment zip e :
  e ∈ usableEntries zip -> is_Some (topSegment e).
Proof.
  unfold usableEntries. intros He. apply list_elem_of_In, filter_In in He as [He Hus].
  apply in_map_iff in He as (raw & <- & _).
  unfold usable in Hus. apply andb_prop in Hus as [Hus _]. apply andb_prop in Hus as [Hne _].
  unfold topSegment, parts. simpl in *.
  destruct (normalizeZipEntryName (entryName raw)) as [|a r] eqn:Hname; [discriminate|].
  apply dropLeading_head in Hname.
  destruct (split_cons_head Str.slash a r Hname) as (h & t & ->).
  simpl. eauto.
Qed.

End ArchiveFacts.

(** C1, as stated, fails: the archive [twoFolders] has two distinct
    top-level segments and no root file, and the inspector rejects it. *)
Lemma two_folders_rejected :
  Archive.topSegment <$> Archive.usableEntries twoFolders = [Some "a"; Some "b"]
  /\ Archive.isRootFile <$> Archive.usableEntries twoFolders = [false; false]
  /\ Archive.inspectArchiveLayout twoFolders "100"
     = {| Archive.ok := false; Archive.flatten := false |}
  /\ Archive.inspectArchiveLayout twoFolders "100"
     <> {| Archive.ok := true; Archive.flatten := false |}.
Proof. repeat split; try reflexivity. discriminate. Qed.

(** C1, amended: an archive whose usable entries have two or more distinct
    top-level segments and no root file is rejected, [{ok: false, flatten:
    false}], for every target version. *)
Theorem several_top_folders_rejected (zip : list Archive.ZipEntry) (version : string)
    (e1 e2 : Archive.Entry) :
  e1 ∈ Archive.usableEntries zip ->
  e2 ∈ Archive.usableEntries zip ->
  Archive.topSegment e1 <> Archive.topSegment e2 ->
  (forall e, e ∈ Archive.usableEntries zip -> Archive.isRootFile e = false) ->
  Archive.inspectArchiveLayout zip version
  = {| Archive.ok := false; Archive.flatten := false |}.
Proof.
  intros H1 H2 Hne Hno. unfold Archive.inspectArchiveLayout.
  destruct (Archive.usableEntries zip) as [|e0 es] eqn:Hus.
  { now apply elem_of_nil in H1. }
  rewrite <- Hus in *. clear e0 es Hus.
  destruct (length (Archive.usableEntries zip) =? 0)%nat; [reflexivity|].
  unfold Archive.scanEntries.
  destruct (scan_fold_spec (Archive.usableEntries zip) ([], false)) as (Hr & Hin & _).
  destruct (fold_left Archive.scanEntry (Archive.usableEntries zip) ([], false))
    as [topFolders hasRootFile].
  simpl in *. rewrite (no_root_file _ Hno) in Hr. subst hasRootFile.
  destruct (usable_has_segment zip e1 H1) as [s1 Hs1].
  destruct (usable_has_segment zip e2 H2) as [s2 Hs2].
  assert (In1 : Some s1 ∈ topFolders).
  { apply Hin. right. exists e1. split; [assumption|]. split; [|now symmetry].
    eapply contributes_of_segment; eauto. }
  assert (In2 : Some s2 ∈ topFolders).
  { apply Hin. right. exists e2. split; [assumption|]. split; [|now symmetry].
    eapply contributes_of_segment; eauto. }
  assert (Hs : s1 <> s2) by congruence.
  assert (Hlen : (2 <= length topFolders)%nat).
  { destruct topFolders as [|x [|y l]]; simpl; [|exfalso|lia].
    - now apply elem_of_nil in In1.
    - apply list_elem_of_singleton in In1, In2. congruence. }
  destruct (length topFolders =? 1)%nat eqn:E1; [apply Nat.eqb_eq in E1; lia|].
  destruct (1 <? length topFolders)%nat eqn:E2; [reflexivity|].
  apply Nat.ltb_ge in E2. lia.
Qed.

(** The witness of C1: the archive [twoFolders] is rejected for version [100]. *)
Lemma several_top_folders_rejected_witness :
  Archive.inspectArchiveLayout twoFolders "100"
  = {| Archive.ok := false; Archive.flatten := false |}.
Proof.
  apply (several_top_folders_rejected twoFolders "100"
           (Archive.mkNorm "a/x.txt" false) (Archive.mkNorm "b/y.txt" false)).
  - vm_compute. apply list_elem_of_here.
  - vm_compute. apply list_elem_of_further, list_elem_of_here.
  - vm_compute. discriminate.
  - apply Forall_forall. vm_compute. repeat constructor.
Defined.

(** ** The extractor *)

Section ExtractorFacts.
Context `{Runtime}.


End ExtractorFacts.


(** ** The monad *)

Lemma bind_ok {S A B} (m : M S A) (k : A -> M S B) w a w' :
  m w = (Ok a, w') -> bind m k w = k a w'.
Proof. intros Hm. unfold bind. now rewrite Hm. Qed.

(** ** The registry *)

Section RegistryFacts.
Context `{Runtime}.

Local Abbreviation statePath := Paths.getStateFilePath.
Local Abbreviation tempPath := State.tempPath.

Lemma tempPath_neq : tempPath <> statePath.
Proof. unfold State.tempPath. now apply append_suffix_neq. Qed.

Lemma normalize_docObject (d : State.Doc) : State.normalizeState (State.docObject d) = d.
Proof.
  destruct d as [cv vs hs]. unfold State.normalizeState, State.docObject, State.optProp.
  cbn [State.currentVersion State.versions State.history].
  rewrite lookup_insert_eq.
  rewrite lookup_insert_ne by discriminate. rewrite lookup_insert_eq.
  rewrite !lookup_insert_ne by discriminate. rewrite lookup_insert_eq.
  reflexivity.
Qed.

Lemma docOfText_textOf (d : State.Doc) : JSON_lossless -> docOfText (textOf d) = d.
Proof.
  intros Hlaw. unfold docOfText, textOf. rewrite Hlaw. apply normalize_docObject.
Qed.

Lemma atomicWriteState_run (v : json number) (w : Sys.World) :
  State.atomicWriteState v w = (Ok tt, written (textOf (State.normalizeState v)) w).
Proof.
  unfold State.atomicWriteState, written, bind, Sys.mkdir, Sys.writeFile, Sys.rename.
  cbn [Sys.files Sys.log Sys.setFiles]. rewrite lookup_insert_eq. reflexivity.
Qed.

Lemma files_written text w :
  Sys.files (written text w) = <[statePath := text]> (delete tempPath (Sys.files w)).
Proof.
  unfold written. cbn [Sys.files Sys.log Sys.setFiles]. now rewrite delete_insert_eq.
Qed.

Lemma trace_written text w :
  Sys.trace (written text w)
  = Sys.trace w ++ [Sys.EMkdir (path_dirname statePath); Sys.EWriteFile tempPath text;
                   Sys.ERename tempPath statePath].
Proof.
  unfold written. cbn [Sys.trace Sys.log Sys.setFiles]. now rewrite <- !app_assoc.
Qed.

Lemma readState_present w text :
  Sys.files w !! statePath = Some text ->
  State.readState w = (Ok (docOfText text), readPresent w).
Proof.
  intros Hf. unfold State.readState, State.ensureStateFile, bind, tryCatch, Sys.mkdir,
    Sys.access, Sys.readFile, ret.
  cbn [Sys.files Sys.log]. rewrite Hf. cbn [Sys.files Sys.log]. rewrite Hf. reflexivity.
Qed.

Lemma readState_absent w :
  Sys.files w !! statePath = None ->
  State.readState w = (Ok (docOfText (textOf State.DEFAULT_DOC)), readAbsent w).
Proof.
  intros Hf. unfold State.readState, State.ensureStateFile, bind, tryCatch, Sys.mkdir,
    Sys.access, Sys.readFile, ret.
  cbn [Sys.files Sys.log]. rewrite Hf. rewrite atomicWriteState_run.
  unfold State.DEFAULT_STATE. rewrite normalize_docObject.
  rewrite files_written. rewrite lookup_insert_eq. reflexivity.
Qed.

End RegistryFacts.

(** ** The reference platform is lossless *)

Section ReferenceFacts.
Import Reference.

Lemma size_elem (v : json Z) (l : list (json Z)) :
  v ∈ l -> (size v < size (JArr l))%nat.
Proof.
  intros Hin. cbn [size]. induction Hin as [v l|v u l _ IH]; cbn [foldr]; lia.
Qed.

Lemma size_field (o : gmap string (json Z)) k v :
  o !! k = Some v -> (size v < size (JObj o))%nat.
Proof.
  cbn [size]. intros Hk. apply Nat.lt_succ_r. revert k v Hk.
  apply (map_fold_weak_ind
           (fun (r : nat) (m : gmap string (json Z)) =>
              forall k v, m !! k = Some v -> (size v <= r)%nat)).
  - intros k v Hk. now rewrite lookup_empty in Hk.
  - intros i x m r Hi IH k v Hk.
    destruct (decide (i = k)) as [->|Hne].
    + rewrite lookup_insert_eq in Hk. injection Hk as ->. lia.
    + rewrite lookup_insert_ne in Hk by assumption. specialize (IH k v Hk). lia.
Qed.

Lemma json_ind' (P : json Z -> Prop) :
  P JNull -> (forall b, P (JBool b)) -> (forall n, P (JNum n)) -> (forall s, P (JStr s)) ->
  (forall l, Forall P l -> P (JArr l)) ->
  (forall o, map_Forall (fun _ => P) o -> P (JObj o)) ->
  forall v, P v.
Proof.
  intros Hnull Hbool Hnum Hstr Harr Hobj v.
  remember (size v) as n eqn:Hn. revert v Hn.
  induction (lt_wf n) as [n _ IH]. intros v ->.
  assert (forall u, (size u < size v)%nat -> P u) as IHv.
  { intros u Hu. eapply IH; [exact Hu|reflexivity]. }
  clear IH.
  destruct v as [| | | |l|o]; auto.
  - apply Harr. apply Forall_forall. intros u Hu. apply IHv. now apply size_elem.
  - apply Hobj. intros k u Hk. apply IHv. eapply size_field; eauto.
Qed.

Lemma of_to_tree (v : json Z) : of_tree (to_tree v) = v.
Proof.
  induction v as [| | | |l IH|o IH] using json_ind'; try reflexivity.
  - cbn [to_tree of_tree]. f_equal. rewrite map_map.
    induction IH as [|u l Hu _ IHl]; cbn [map]; [reflexivity|]. now rewrite Hu, IHl.
  - cbn [to_tree of_tree]. f_equal. rewrite map_map.
    rewrite (map_ext _ (prod_map id of_tree)) by (now intros [k t]).
    change (map (prod_map id of_tree) ?l) with (prod_map id of_tree <$> l).
    rewrite list_to_map_fmap, list_to_map_to_list, <- map_fmap_compose.
    rewrite <- (map_fmap_id o) at 2. apply map_fmap_ext.
    intros k u Hk. apply (IH k u Hk).
Qed.

Lemma unbits_bits (p : positive) (s : string) :
  unbits (bits p +:+ Str.newline +:+ s) = p.
Proof.
  induction p as [p IH|p IH|]; cbn [bits].
  - change (unbits (String one (bits p +:+ Str.newline +:+ s)) = (p~1)%positive).
    change (xI (unbits (bits p +:+ Str.newline +:+ s)) = (p~1)%positive). now rewrite IH.
  - change (xO (unbits (bits p +:+ Str.newline +:+ s)) = (p~0)%positive). now rewrite IH.
  - reflexivity.
Qed.

Lemma reference_lossless : JSON_lossless (H := runtime).
Proof.
  intros v. cbn [JSON_parse JSON_stringify runtime]. unfold parse, stringify.
  pose proof (unbits_bits (encode (to_tree v)) EmptyString) as Hb.
  replace (Str.newline +:+ "") with Str.newline in Hb by reflexivity.
  rewrite Hb, decode_encode. cbn. now rewrite of_to_tree.
Qed.

End ReferenceFacts.

Section RegistryRoundTrip.
Context `{Runtime}.

(** C4: [atomicWriteState] writes the text of a well-formed document to the
    temporary path and renames it over the live path, in that order; the
    [readState] that follows returns the same document (objects are finite
    maps, so this is equality whatever the order of fields). *)
Theorem write_then_read (d : State.Doc) (w : Sys.World) :
  JSON_lossless ->
  State.atomicWriteState (State.docObject d) w = (Ok tt, written (textOf d) w)
  /\ Sys.trace (written (textOf d) w)
     = Sys.trace w ++ [Sys.EMkdir (path_dirname Paths.getStateFilePath);
                      Sys.EWriteFile State.tempPath (textOf d);
                      Sys.ERename State.tempPath Paths.getStateFilePath]
  /\ Sys.files (written (textOf d) w)
     = <[Paths.getStateFilePath := textOf d]> (delete State.tempPath (Sys.files w))
  /\ Sys.files (written (textOf d) w) !! State.tempPath = None
  /\ State.readState (written (textOf d) w) = (Ok d, readPresent (written (textOf d) w)).
Proof.
  intros Hlaw. split; [|split; [|split; [|split]]].
  - rewrite atomicWriteState_run. now rewrite normalize_docObject.
  - apply trace_written.
  - apply files_written.
  - rewrite files_written, lookup_insert_ne by (apply not_eq_sym, tempPath_neq).
    apply lookup_delete_eq.
  - rewrite (readState_present _ (textOf d)).
    + now rewrite docOfText_textOf.
    + rewrite files_written. apply lookup_insert_eq.
Qed.

(** C5: [readState] returns a document for every state of the live file,
    and the default document when the file is absent or its text is not
    JSON. *)
Theorem readState_never_fails (w : Sys.World) :
  JSON_lossless ->
  exists d w',
    State.readState w = (Ok d, w')
    /\ (Sys.files w !! Paths.getStateFilePath = None ->
        d = {| State.currentVersion := ""; State.versions := []; State.history := [] |})
    /\ (forall text, Sys.files w !! Paths.getStateFilePath = Some text ->
                     JSON_parse text = None ->
        d = {| State.currentVersion := ""; State.versions := []; State.history := [] |}).
Proof.
  intros Hlaw. destruct (Sys.files w !! Paths.getStateFilePath) as [text|] eqn:Hf.
  - exists (docOfText text), (readPresent w). split; [now apply readState_present|].
    split; [discriminate|]. intros text' [= <-] Hparse.
    unfold docOfText. rewrite Hparse. apply normalize_docObject.
  - exists (docOfText (textOf State.DEFAULT_DOC)), (readAbsent w).
    split; [now apply readState_absent|]. split; [|discriminate].
    intros _. now rewrite docOfText_textOf.
Qed.

End RegistryRoundTrip.


Section RegistryOps.
Context `{Runtime}.

Local Abbreviation value := (json number).
Local Abbreviation statePath := Paths.getStateFilePath.

Lemma readState_run w :
  JSON_lossless -> State.readState w = (Ok (currentDoc w), afterRead w).
Proof.
  intros Hlaw. unfold currentDoc, afterRead.
  destruct (Sys.files w !! statePath) as [text|] eqn:Hf.
  - now apply readState_present.
  - rewrite (readState_absent w Hf). now rewrite docOfText_textOf.
Qed.

Lemma currentDoc_written d w :
  JSON_lossless -> currentDoc (written (textOf d) w) = d.
Proof.
  intros Hlaw. unfold currentDoc. rewrite files_written, lookup_insert_eq.
  now apply docOfText_textOf.
Qed.

Lemma isVersion_nonnull version (v : value) :
  v <> JNull -> State.isVersion version v = Ok (recordOf version v).
Proof.
  intros Hv. unfold State.isVersion, recordOf, State.prop, State.optProp.
  destruct v as [| | | | |o]; try reflexivity; [congruence|].
  destruct (o !! "version") as [[]|]; reflexivity.
Qed.

Lemma recordOf_setProp version (v : value) key x :
  key <> "version" -> recordOf version (State.setProp v key x) = recordOf version v.
Proof.
  intros Hkey. unfold recordOf, State.setProp, State.optProp.
  destruct v; try reflexivity. now rewrite lookup_insert_ne.
Qed.

Lemma setProp_nonnull (v : value) key x : v <> JNull -> State.setProp v key x <> JNull.
Proof. destruct v; cbn; congruence. Qed.

(** [findFirst] on records none of which is [null]: the first record of
    [version], if any. *)
Lemma findFirst_nonnull version (vs : list value) :
  Forall (fun v => v <> JNull) vs ->
  (State.findFirst (State.isVersion version) vs = Ok None
   /\ Forall (fun v => recordOf version v = false) vs)
  \/ (exists i r, State.findFirst (State.isVersion version) vs = Ok (Some i)
                  /\ vs !! i = Some r /\ recordOf version r = true).
Proof.
  induction 1 as [|v vs Hv _ IH]; cbn [State.findFirst].
  - left. split; [reflexivity|constructor].
  - rewrite (isVersion_nonnull version v Hv).
    destruct (recordOf version v) eqn:Hrec.
    + right. exists 0%nat, v. auto.
    + destruct IH as [[-> Hall]|(i & r & -> & Hi & Hr)].
      * left. split; [reflexivity|]. now constructor.
      * right. exists (S i), r. auto.
Qed.


(** [recordUpload] on a well-kept registry returns, and what it writes is
    the document with the record of [version] refreshed or appended and the
    current version kept. *)
Lemma recordUpload_run version w :
  JSON_lossless -> wellKept (currentDoc w) ->
  exists overwrite w' d',
    State.recordUpload version w = (Ok overwrite, w')
    /\ currentDoc w' = d'
    /\ State.currentVersion d' = State.currentVersion (currentDoc w)
    /\ wellKept d'
    /\ (forall v r, r ∈ State.versions (currentDoc w) -> recordOf v r = true ->
                    exists r', r' ∈ State.versions d' /\ recordOf v r' = true).
Proof.
  intros Hlaw Hkept. unfold State.recordUpload.
  rewrite (bind_ok _ _ _ _ _ (readState_run w Hlaw)).
  set (st := currentDoc w) in *. set (w1 := afterRead w).
  unfold State.upsertVersion, bind at 1. unfold bind at 1.
  cbn [Sys.nowISO]. unfold bind at 1. unfold State.liftR at 1.
  destruct (findFirst_nonnull version (State.versions st) Hkept)
    as [[Hfind Hnone]|(i & r & Hfind & Hi & Hr)]; rewrite Hfind.
  - cbn [ret]. unfold bind at 1. cbn [Sys.nowISO fst snd]. unfold bind at 1.
    rewrite atomicWriteState_run, normalize_docObject. cbn [ret].
    eexists _, _, _. split; [reflexivity|]. split; [now apply currentDoc_written|].
    cbn [State.currentVersion State.versions]. split; [reflexivity|]. split.
    + unfold wellKept. cbn [State.versions]. apply Forall_app. split; [exact Hkept|].
      constructor; [discriminate|constructor].
    + intros v r' Hin Hrec. exists r'. split; [|exact Hrec].
      apply elem_of_app. now left.
  - cbn [ret]. unfold bind at 1. cbn [Sys.nowISO fst snd]. unfold bind at 1.
    rewrite atomicWriteState_run, normalize_docObject. cbn [ret].
    eexists _, _, _. split; [reflexivity|]. split; [now apply currentDoc_written|].
    cbn [State.currentVersion State.versions]. split; [reflexivity|]. split.
    + unfold wellKept. cbn [State.versions]. apply Forall_forall. intros x Hx.
      apply list_elem_of_lookup in Hx as [j Hj].
      unfold wellKept in Hkept. rewrite Forall_forall in Hkept.
      destruct (decide (i = j)) as [<-|Hij].
      * rewrite list_lookup_alter_eq, Hi in Hj. cbn in Hj. injection Hj as <-.
        apply setProp_nonnull. apply Hkept. eapply list_elem_of_lookup_2; eauto.
      * rewrite list_lookup_alter_ne in Hj by assumption.
        apply Hkept. eapply list_elem_of_lookup_2; eauto.
    + intros v r' Hin Hrec. apply list_elem_of_lookup in Hin as [j Hj].
      destruct (decide (i = j)) as [<-|Hij].
      * exists (State.setProp r' "uploadedAt" (JStr (clock (Sys.ticks w1)))). split.
        -- apply (list_elem_of_lookup_2 _ i). now rewrite list_lookup_alter_eq, Hj.
        -- now rewrite recordOf_setProp.
      * exists r'. split; [|exact Hrec].
        apply (list_elem_of_lookup_2 _ j). now rewrite list_lookup_alter_ne.
Qed.


(** [markPublished] on records none of which is [null]: it returns, reads
    the clock once per record of [version], and changes nothing but the
    [publishedAt] of those records. *)
Lemma markPublished_run version (vs : list value) w :
  Forall (fun v => v <> JNull) vs ->
  exists vs' k,
    State.markPublished version vs w = (Ok vs', ticked k w)
    /\ Forall2 (fun v v' => v' = v
                            \/ (recordOf version v = true
                                /\ exists t, v' = State.setProp v "publishedAt" (JStr t)))
               vs vs'.
Proof.
  intros Hkept. revert w. induction Hkept as [|v vs Hv _ IH]; intros w.
  - exists [], 0%nat. split; [reflexivity|constructor].
  - cbn [State.markPublished]. unfold bind at 1. unfold State.liftR at 1.
    rewrite (isVersion_nonnull version v Hv).
    destruct (recordOf version v) eqn:Hrec.
    + unfold bind at 1. unfold bind at 1. cbn [Sys.nowISO ret].
      destruct (IH (Sys.tick w)) as (vs' & k & Hrun & Hall).
      unfold bind at 1. rewrite Hrun. cbn [ret].
      exists (State.setProp v "publishedAt" (JStr (clock (Sys.ticks w))) :: vs'), (S k).
      split; [reflexivity|]. constructor; [|exact Hall]. right. eauto.
    + unfold bind at 1. cbn [ret].
      destruct (IH w) as (vs' & k & Hrun & Hall).
      unfold bind at 1. rewrite Hrun. cbn [ret].
      exists (v :: vs'), k. split; [reflexivity|]. constructor; [|exact Hall]. now left.
Qed.

Lemma some_nonnull version (vs : list value) :
  Forall (fun v => v <> JNull) vs ->
  State.some (State.isVersion version) vs = Ok (existsb (recordOf version) vs).
Proof.
  intros Hkept. unfold State.some.
  destruct (findFirst_nonnull version vs Hkept) as [[-> Hnone]|(i & r & -> & Hi & Hr)].
  - symmetry. f_equal. apply not_true_is_false. intros Hex.
    apply existsb_exists in Hex as (x & Hx & Hrec).
    rewrite Forall_forall in Hnone. apply list_elem_of_In in Hx.
    rewrite (Hnone x Hx) in Hrec. discriminate.
  - symmetry. f_equal. apply existsb_exists. exists r. split; [|exact Hr].
    apply list_elem_of_In. eapply list_elem_of_lookup_2; eauto.
Qed.

(** [setCurrentVersion] on a well-kept registry returns, and what it writes
    is a well-kept document whose current version is [version] and has a
    record. *)
Lemma setCurrentVersion_run version action w :
  JSON_lossless -> wellKept (currentDoc w) ->
  exists w' d',
    State.setCurrentVersion version action w = (Ok tt, w')
    /\ currentDoc w' = d'
    /\ State.currentVersion d' = version
    /\ wellKept d'
    /\ exists r, r ∈ State.versions d' /\ recordOf version r = true.
Proof.
  intros Hlaw Hkept. unfold State.setCurrentVersion.
  rewrite (bind_ok _ _ _ _ _ (readState_run w Hlaw)).
  set (st := currentDoc w) in *. set (w1 := afterRead w).
  unfold bind at 1. unfold State.liftR at 1. rewrite (some_nonnull version _ Hkept).
  destruct (existsb (recordOf version) (State.versions st)) eqn:Hex.
  - destruct (markPublished_run version (State.versions st) w1 Hkept)
      as (vs' & k & Hrun & Hall).
    unfold bind at 1. rewrite Hrun. unfold bind at 1. cbn [Sys.nowISO].
    rewrite atomicWriteState_run, normalize_docObject.
    eexists _, _. split; [reflexivity|]. split; [now apply currentDoc_written|].
    cbn [State.currentVersion State.versions]. split; [reflexivity|]. split.
    + unfold wellKept. cbn [State.versions]. unfold wellKept in Hkept.
      clear Hrun Hex. induction Hall as [|v v' vs vs' Hv _ IH]; [constructor|].
      apply Forall_cons in Hkept as [Hv0 Hkept]. constructor; [|now apply IH].
      destruct Hv as [->|(_ & t & ->)]; [assumption|]. now apply setProp_nonnull.
    + apply existsb_exists in Hex as (r & Hin & Hrec). apply list_elem_of_In in Hin.
      clear Hrun Hkept. induction Hall as [|v v' vs vs' Hv _ IH].
      * now apply elem_of_nil in Hin.
      * apply elem_of_cons in Hin as [->|Hin].
        -- exists v'. split; [left|].
           destruct Hv as [->|(_ & t & ->)]; [assumption|]. now rewrite recordOf_setProp.
        -- destruct (IH Hin) as (r' & Hin' & Hrec'). exists r'. split; [now right|assumption].
  - unfold bind at 1. unfold bind at 1. unfold bind at 1. cbn [Sys.nowISO ret].
    unfold bind at 1. cbn [Sys.nowISO].
    rewrite atomicWriteState_run, normalize_docObject.
    eexists _, _. split; [reflexivity|]. split; [now apply currentDoc_written|].
    cbn [State.currentVersion State.versions]. split; [reflexivity|]. split.
    + unfold wellKept. cbn [State.versions]. apply Forall_app. split; [exact Hkept|].
      constructor; [discriminate|constructor].
    + exists (State.publishedRecord version (clock (Sys.ticks w1))
                (clock (Sys.ticks (Sys.tick w1)))).
      split; [apply elem_of_app; right; left|].
      unfold recordOf, State.publishedRecord, State.optProp.
      rewrite lookup_insert_eq. apply String.eqb_refl.
Qed.

End RegistryOps.

Section RegistryInvariant.
Context `{Runtime}.

Lemma runOp_keeps op w :
  JSON_lossless ->
  wellKept (currentDoc w) /\ currentKnown (currentDoc w) ->
  wellKept (currentDoc (runOp op w).2) /\ currentKnown (currentDoc (runOp op w).2).
Proof.
  intros Hlaw [Hkept Hknown]. destruct op as [version|version action]; cbn [runOp].
  - destruct (recordUpload_run version w Hlaw Hkept)
      as (b & w' & d' & Hrun & Hdoc & Hcv & Hkept' & Hrec).
    unfold bind. rewrite Hrun. cbn [ret snd]. rewrite Hdoc. split; [exact Hkept'|].
    unfold currentKnown. rewrite Hcv. destruct Hknown as [Hempty|(r & Hin & Hr)]; [now left|].
    right. exact (Hrec _ r Hin Hr).
  - destruct (setCurrentVersion_run version action w Hlaw Hkept)
      as (w' & d' & Hrun & Hdoc & Hcv & Hkept' & Hrec).
    rewrite Hrun. cbn [snd]. rewrite Hdoc. split; [exact Hkept'|].
    unfold currentKnown. rewrite Hcv. now right.
Qed.

(** C9: from a registry that reads as the default document, after any
    sequence of [recordUpload] and [setCurrentVersion] calls the registry
    reads as a document whose current version is empty or is the [version]
    of one of its records. *)
Theorem current_version_is_recorded (ops : list Op) (w : Sys.World) :
  JSON_lossless ->
  (State.readState w).1 = Ok State.DEFAULT_DOC ->
  exists d w',
    State.readState (runOps ops w) = (Ok d, w')
    /\ (State.currentVersion d = ""
        \/ exists r, r ∈ State.versions d
                     /\ State.optProp r "version" = Some (JStr (State.currentVersion d))).
Proof.
  intros Hlaw Hstart. rewrite (readState_run w Hlaw) in Hstart. cbn [fst] in Hstart.
  injection Hstart as Hstart.
  assert (Hinv : wellKept (currentDoc w) /\ currentKnown (currentDoc w)).
  { rewrite Hstart. split; [constructor|now left]. }
  clear Hstart. revert w Hinv. induction ops as [|op ops IH]; intros w Hinv.
  - cbn [runOps]. exists (currentDoc w), (afterRead w).
    split; [now apply readState_run|].
    destruct Hinv as [_ [Hempty|(r & Hin & Hr)]]; [now left|]. right. exists r.
    split; [exact Hin|]. unfold recordOf in Hr.
    destruct (State.optProp r "version") as [[| | |s| |]|]; try discriminate.
    apply String.eqb_eq in Hr. now subst.
  - cbn [runOps]. apply IH. now apply runOp_keeps.
Qed.

(** C10: [setCurrentVersion] for a version that no record of the registry
    names keeps the records there are and appends one more: an object
    with exactly the three fields [version], [uploadedAt] and
    [publishedAt], where [version] is the version and both timestamps are
    readings of the clock made during the call, [uploadedAt] first.  So
    the version, which the registry never saw uploaded, reads back with an
    [uploadedAt].  The call also makes the version current and appends the
    history entry. *)
Theorem publish_unknown_version (version action : string) (w w1 : Sys.World) (st : State.Doc) :
  JSON_lossless ->
  State.readState w = (Ok st, w1) ->
  (forall r, r ∈ State.versions st ->
             r <> JNull /\ State.optProp r "version" <> Some (JStr version)) ->
  let t := Sys.ticks w1 in
  let record : json number :=
    JObj (<["version" := JStr version]>
          (<["uploadedAt" := JStr (clock t)]>
           (<["publishedAt" := JStr (clock (S t))]> ∅))) in
  let d' :=
    {| State.currentVersion := version;
       State.versions := State.versions st ++ [record];
       State.history :=
         State.history st ++ [State.historyEntry action version (clock (S (S t)))] |} in
  exists w',
    State.setCurrentVersion version action w = (Ok tt, w')
    /\ State.readState w' = (Ok d', afterRead w')
    /\ State.optProp record "version" = Some (JStr version)
    /\ State.optProp record "uploadedAt" = Some (JStr (clock t))
    /\ State.optProp record "publishedAt" = Some (JStr (clock (S t)))
    /\ (forall key, State.optProp record key <> None ->
                    key = "version" \/ key = "uploadedAt" \/ key = "publishedAt").
Proof.
  intros Hlaw Hread Hnone t record d'.
  assert (Hkept : Forall (fun v : json number => v <> JNull) (State.versions st)).
  { apply Forall_forall. intros r Hr. now apply Hnone. }
  assert (Hex : existsb (recordOf version) (State.versions st) = false).
  { apply not_true_is_false. intros Hex. apply existsb_exists in Hex as (r & Hin & Hrec).
    apply list_elem_of_In in Hin. destruct (Hnone r Hin) as [_ Hv]. apply Hv.
    unfold recordOf in Hrec.
    destruct (State.optProp r "version") as [[| | |s| |]|]; try discriminate.
    apply String.eqb_eq in Hrec. now subst. }
  exists (written (textOf d') (ticked 3 w1)). split; [|split; [|split; [|split; [|split]]]].
  - unfold State.setCurrentVersion. rewrite (bind_ok _ _ _ _ _ Hread).
    unfold bind at 1. unfold State.liftR at 1. rewrite (some_nonnull version _ Hkept), Hex.
    unfold bind at 1. unfold bind at 1. unfold bind at 1. cbn [Sys.nowISO ret].
    unfold bind at 1. cbn [Sys.nowISO].
    rewrite atomicWriteState_run, normalize_docObject. reflexivity.
  - rewrite (readState_run _ Hlaw). now rewrite currentDoc_written.
  - reflexivity.
  - reflexivity.
  - reflexivity.
  - intros key Hkey. unfold record, State.optProp in Hkey.
    destruct (decide (key = "version")) as [|H1]; [now left|].
    destruct (decide (key = "uploadedAt")) as [|H2]; [now right; left|].
    destruct (decide (key = "publishedAt")) as [|H3]; [now right; right|].
    rewrite !lookup_insert_ne in Hkey by congruence. now rewrite lookup_empty in Hkey.
Qed.

End RegistryInvariant.

(** ** The listing reads and never writes *)

Section ListingFacts.
Context `{Runtime}.
Variable COS_RETRY_COUNT : Z.
Variable legacyPrefixRoot : string.

Lemma keepsFiles_ret {A} (x : A) : keepsFiles (ret x).
Proof. now intros w. Qed.

Lemma keepsFiles_throw {A} (e : Thrown) : keepsFiles (@throw Sys.World A e).
Proof. now intros w. Qed.

Lemma keepsFiles_pending {A} : keepsFiles (@pending Sys.World A).
Proof. now intros w. Qed.

Lemma keepsFiles_bind {A B} (m : M Sys.World A) (k : A -> M Sys.World B) :
  keepsFiles m -> (forall x, keepsFiles (k x)) -> keepsFiles (bind m k).
Proof.
  intros Hm Hk w. unfold bind. specialize (Hm w).
  destruct (m w) as [[x|e|] w1]; cbn [snd] in *; try exact Hm.
  now rewrite Hk.
Qed.

Lemma keepsFiles_tryCatch {A} (m : M Sys.World A) (h : Thrown -> M Sys.World A) :
  keepsFiles m -> (forall e, keepsFiles (h e)) -> keepsFiles (tryCatch m h).
Proof.
  intros Hm Hh w. unfold tryCatch. specialize (Hm w).
  destruct (m w) as [[x|e|] w1]; cbn [snd] in *; try exact Hm.
  now rewrite Hh.
Qed.

Lemma keepsFiles_sleep (ms : Z) : keepsFiles (sleep ms).
Proof. now intros w. Qed.

Lemma keepsFiles_retryLoop {A} (task : M Sys.World A) (retries baseDelay : Z)
    (turns : nat) :
  keepsFiles task ->
  forall i lastError, keepsFiles (Storage.retryLoop task retries baseDelay turns i lastError).
Proof.
  intros Htask. induction turns as [|turns IH]; intros i lastError; cbn [Storage.retryLoop].
  - apply keepsFiles_throw.
  - apply keepsFiles_tryCatch; [exact Htask|]. intros e.
    destruct (_ || _); [apply keepsFiles_throw|].
    apply keepsFiles_bind; [apply keepsFiles_sleep|]. intros _. apply IH.
Qed.

Lemma keepsFiles_withRetry {A} (task : M Sys.World A) (options : Storage.RetryOptions) :
  keepsFiles task -> keepsFiles (Storage.withRetry COS_RETRY_COUNT task options).
Proof. intros Htask. unfold Storage.withRetry. now apply keepsFiles_retryLoop. Qed.

Lemma keepsFiles_getBucket (c : Storage.Client) (pfx marker : string) (maxKeys : Z) :
  keepsFiles (Storage.getBucket c pfx marker maxKeys).
Proof.
  intros w. unfold Storage.getBucket, Storage.request.
  cbn [Sys.faults Sys.log]. now destruct (Sys.faults w) as [|[e|] rest].
Qed.

Lemma keepsFiles_createCosClient : keepsFiles Storage.createCosClient.
Proof.
  unfold Storage.createCosClient.
  destruct (_ || _); [apply keepsFiles_throw|apply keepsFiles_ret].
Qed.

Lemma keepsFiles_readdir (p : string) : keepsFiles (Sys.readdir p).
Proof. intros w. unfold Sys.readdir. now destruct (Sys.dirents p (Sys.files w)). Qed.

Lemma keepsFiles_listVersionsByFsRoot (rootDir : string) :
  keepsFiles (Storage.listVersionsByFsRoot rootDir).
Proof.
  unfold Storage.listVersionsByFsRoot. apply keepsFiles_tryCatch.
  - apply keepsFiles_bind; [apply keepsFiles_readdir|]. intros entries. apply keepsFiles_ret.
  - intros _. apply keepsFiles_ret.
Qed.

Lemma keepsFiles_scanLoop (fuel : nat) (c : Storage.Client) (pfx : string) :
  forall marker discovered,
    keepsFiles (Storage.scanLoop COS_RETRY_COUNT fuel c pfx marker discovered).
Proof.
  induction fuel as [|fuel IH]; intros marker discovered; cbn [Storage.scanLoop].
  - apply keepsFiles_pending.
  - apply keepsFiles_bind; [apply keepsFiles_withRetry, keepsFiles_getBucket|].
    intros page. destruct (_ || _); [apply keepsFiles_ret|apply IH].
Qed.

Lemma keepsFiles_listAvailableVersions (fuel : nat) (platform : string) :
  keepsFiles (Storage.listAvailableVersions COS_RETRY_COUNT legacyPrefixRoot fuel platform).
Proof.
  unfold Storage.listAvailableVersions. destruct (String.eqb _ _).
  - destruct (Str.truthy _); [apply keepsFiles_listVersionsByFsRoot|].
    unfold Storage.listVersionsFromCos.
    apply keepsFiles_bind; [apply keepsFiles_createCosClient|]. intros c.
    apply keepsFiles_bind; [apply keepsFiles_scanLoop|]. intros discovered.
    apply keepsFiles_ret.
  - apply keepsFiles_listVersionsByFsRoot.
Qed.

End ListingFacts.

(** ** The publish lock and the coordinator *)

Lemma trace_polled p ms n w :
  Sys.trace (polled p ms n w)
  = Sys.trace w ++ concat (replicate n [Sys.EOpenWx p; Sys.ESleep ms]).
Proof.
  revert w. induction n as [|n IH]; intros w; cbn [polled replicate concat].
  - now rewrite app_nil_r.
  - rewrite IH. cbn [Sys.trace Sys.log]. now rewrite <- !app_assoc.
Qed.

Lemma files_polled p ms n w : Sys.files (polled p ms n w) = Sys.files w.
Proof. revert w. induction n as [|n IH]; intros w; [reflexivity|]. cbn [polled]. now rewrite IH. Qed.

(** While the lock file exists every attempt meets [EEXIST], and the loop
    ends without a handle. *)
Lemma acquire_busy p ms n w :
  is_Some (Sys.files w !! p) ->
  Lock.acquire p ms n w = (Ok None, polled p ms n w).
Proof.
  revert w. induction n as [|n IH]; intros w [c Hc]; [reflexivity|].
  cbn [Lock.acquire polled]. unfold tryCatch, bind at 1, Sys.openWx. rewrite Hc.
  cbn [readCode Sys.EEXIST newError].
  rewrite bool_decide_eq_false_2 by (intros Hne; now apply Hne).
  unfold bind, sleep, elapse, Sys.timer. apply IH. cbn [Sys.files Sys.log]. eauto.
Qed.

Lemma acquire_free p ms n w :
  Sys.files w !! p = None ->
  Lock.acquire p ms (S n) w = (Ok (Some p), locked p w).
Proof.
  intros Hp. cbn [Lock.acquire]. unfold tryCatch, bind, Sys.openWx. now rewrite Hp.
Qed.

Lemma withFileLock_busy {A} p (fn : M Sys.World A) w :
  is_Some (Sys.files w !! p) ->
  Lock.withFileLock p fn Lock.noOptions w
  = (Err (newError "lock_timeout" "LOCK_TIMEOUT"), polled p 100 60 w).
Proof.
  intros Hp. unfold Lock.withFileLock. cbn [Lock.noOptions Lock.retries Lock.retryDelayMs default].
  unfold bind. now rewrite (acquire_busy p 100 (Z.to_nat 60) w Hp).
Qed.

(** With the lock free the critical section runs, and the lock file is
    closed and removed whether it returned or threw. *)
Lemma withFileLock_free {A} p (fn : M Sys.World A) w r w' :
  Sys.files w !! p = None ->
  fn (locked p w) = (r, w') -> r <> Pending ->
  Lock.withFileLock p fn Lock.noOptions w = (r, released p w').
Proof.
  intros Hp Hfn Hr. unfold Lock.withFileLock.
  cbn [Lock.noOptions Lock.retries Lock.retryDelayMs default].
  unfold bind at 1. change (Z.to_nat 60) with 60%nat. rewrite (acquire_free p 100 59 w Hp).
  unfold tryFinally. rewrite Hfn. unfold bind, Sys.close, Sys.rm.
  destruct r; [reflexivity|reflexivity|congruence].
Qed.

Section CoordinatorFacts.
Context `{Runtime}.
Variable COS_RETRY_COUNT : Z.
Variable legacyPrefixRoot : string.

Lemma lockPath_neq : Server.lockPath <> Paths.getStateFilePath.
Proof. unfold Server.lockPath. now apply append_suffix_neq. Qed.

(** C8: in every world where the lock file exists, [applyVersion] makes
    its 60 attempts to create it, sleeping 100 ms after each conflict, and
    throws [LOCK_BUSY], whatever the storage listing would say, since the
    listing is not reached.  In every world where the lock is free and the
    version is missing from what [listAvailableVersions] returns, it
    throws [VERSION_NOT_FOUND].  The two errors have different codes. *)
Theorem lock_busy_is_not_version_not_found (fuel : nat) (version action : string) :
  (forall wBusy : Sys.World,
     is_Some (Sys.files wBusy !! Server.lockPath) ->
     Server.applyVersion COS_RETRY_COUNT legacyPrefixRoot fuel version action wBusy
     = (Err (newError "lock_busy" "LOCK_BUSY"), polled Server.lockPath 100 60 wBusy)
     /\ Sys.trace (polled Server.lockPath 100 60 wBusy)
        = Sys.trace wBusy
          ++ concat (replicate 60 [Sys.EOpenWx Server.lockPath; Sys.ESleep 100])
     /\ Sys.files (polled Server.lockPath 100 60 wBusy) = Sys.files wBusy)
  /\ (forall (wFree w2 : Sys.World) (available : list string),
        Sys.files wFree !! Server.lockPath = None ->
        Storage.listAvailableVersions COS_RETRY_COUNT legacyPrefixRoot fuel
          Server.ADMIN_PLATFORM (locked Server.lockPath wFree) = (Ok available, w2) ->
        version ∉ available ->
        Server.applyVersion COS_RETRY_COUNT legacyPrefixRoot fuel version action wFree
        = (Err (newError "version_not_found" "VERSION_NOT_FOUND"),
           released Server.lockPath w2))
  /\ errorCode (newError "lock_busy" "LOCK_BUSY") = Some "LOCK_BUSY"
  /\ errorCode (newError "version_not_found" "VERSION_NOT_FOUND") = Some "VERSION_NOT_FOUND"
  /\ errorCode (newError "lock_busy" "LOCK_BUSY")
     <> errorCode (newError "version_not_found" "VERSION_NOT_FOUND").
Proof.
  split; [|split; [|split; [|split]]].
  - intros wBusy Hbusy. split; [|split].
    + unfold Server.applyVersion, tryCatch. now rewrite (withFileLock_busy _ _ _ Hbusy).
    + apply trace_polled.
    + apply files_polled.
  - intros wFree w2 available Hfree Hlist Hnot.
    unfold Server.applyVersion, tryCatch.
    rewrite (withFileLock_free _ _ wFree
               (Err (newError "version_not_found" "VERSION_NOT_FOUND")) w2 Hfree).
    + reflexivity.
    + unfold Server.applyLocked, bind. rewrite Hlist.
      now rewrite bool_decide_eq_false_2.
    + discriminate.
  - reflexivity.
  - reflexivity.
  - discriminate.
Qed.

(** C3: when the version is among those [listAvailableVersions] returns and
    is already the registry's current version, [applyVersion] returns
    [{alreadyCurrent: true}]; after the listing it only reads the registry
    and releases the lock, and the files, hence the registry document with
    its history and records, are as before the call. *)
Theorem apply_current_version_is_noop (fuel : nat) (version action text : string)
    (w w2 : Sys.World) (available : list string) :
  Sys.files w !! Server.lockPath = None ->
  Storage.listAvailableVersions COS_RETRY_COUNT legacyPrefixRoot fuel Server.ADMIN_PLATFORM
    (locked Server.lockPath w) = (Ok available, w2) ->
  version ∈ available ->
  Sys.files w !! Paths.getStateFilePath = Some text ->
  State.currentVersion (docOfText text) = version ->
  let w' := released Server.lockPath (readPresent w2) in
  Server.applyVersion COS_RETRY_COUNT legacyPrefixRoot fuel version action w
  = (Ok {| Server.alreadyCurrent := true |}, w')
  /\ Sys.trace w'
     = Sys.trace w2 ++ [Sys.EMkdir (path_dirname Paths.getStateFilePath);
                       Sys.EAccess Paths.getStateFilePath;
                       Sys.EReadFile Paths.getStateFilePath;
                       Sys.EClose Server.lockPath; Sys.ERm Server.lockPath]
  /\ Sys.files w' = Sys.files w
  /\ currentDoc w' = currentDoc w.
Proof.
  intros Hfree Hlist Hin Htext Hcur w'.
  assert (Hsame : Sys.files w2 = Sys.files (locked Server.lockPath w)).
  { pose proof (keepsFiles_listAvailableVersions COS_RETRY_COUNT legacyPrefixRoot fuel
                  Server.ADMIN_PLATFORM (locked Server.lockPath w)) as Hkeep.
    now rewrite Hlist in Hkeep. }
  assert (Hfiles : Sys.files w' = Sys.files w).
  { unfold w', released, readPresent. cbn [Sys.files Sys.log Sys.setFiles].
    rewrite Hsame. unfold locked. cbn [Sys.files Sys.log Sys.setFiles].
    rewrite delete_insert_eq. now apply delete_id. }
  split; [|split; [|split]].
  - unfold Server.applyVersion, tryCatch.
    rewrite (withFileLock_free _ _ w (Ok {| Server.alreadyCurrent := true |}) (readPresent w2) Hfree).
    + reflexivity.
    + unfold Server.applyLocked. unfold bind at 1. rewrite Hlist.
      rewrite bool_decide_eq_true_2 by assumption. cbn [negb].
      assert (Hstate : Sys.files w2 !! Paths.getStateFilePath = Some text).
      { rewrite Hsame. unfold locked. cbn [Sys.files Sys.log Sys.setFiles].
        rewrite lookup_insert_ne by apply lockPath_neq. exact Htext. }
      unfold bind. rewrite (readState_present w2 text Hstate). rewrite Hcur.
      now rewrite String.eqb_refl.
    + discriminate.
  - unfold w', released, readPresent. cbn [Sys.trace Sys.log Sys.setFiles].
    now rewrite <- !app_assoc.
  - exact Hfiles.
  - unfold currentDoc. now rewrite Hfiles.
Qed.

End CoordinatorFacts.

(** ** Retry *)

Section RetryFacts.
Context {S A : Type} `{Timer S} `{Runtime}.
Variable COS_RETRY_COUNT : Z.

Lemma retryLoop_failing (task : M S A) (retries baseDelay : Z) (v : A) (w' : S)
    (i : Z) (n : nat) (w wN : S) :
  failing task baseDelay i n w wN ->
  forall (turns : nat) (lastError : Thrown),
    i + Z.of_nat n <= retries ->
    Z.of_nat turns = retries + 1 - i ->
    task wN = (Ok v, w') ->
    Storage.retryLoop task retries baseDelay turns i lastError w = (Ok v, w').
Proof.
  induction 1 as [i w|i n w e w1 wN Htask Hretry _ IH]; intros turns lastError Hle Hturns Hok.
  - destruct turns as [|turns]; [lia|]. cbn [Storage.retryLoop]. unfold tryCatch.
    now rewrite Hok.
  - destruct turns as [|turns]; [lia|]. cbn [Storage.retryLoop]. unfold tryCatch.
    rewrite Htask, Hretry. cbn [negb].
    replace (retries <=? i) with false by (symmetry; apply Z.leb_gt; lia).
    cbn [orb]. unfold bind, sleep. apply IH; [lia|lia|exact Hok].
Qed.

(** C6: for every task and every [N] within the retry bound, two things
    hold, each on its own.  When the first [N] invocations of the task
    throw retryable errors and the next one returns, [withRetry] returns
    that value in the world reached by exactly these [N + 1] invocations
    with a sleep of [baseDelay * k] after the k-th failure.  And when an
    invocation of the task throws an error that is not retryable,
    [withRetry] started there rethrows that error in the world this one
    invocation left, without sleeping. *)
Theorem withRetry_attempts (task : M S A) (options : Storage.RetryOptions) (N : nat) :
  let retries := default COS_RETRY_COUNT (Storage.retries options) in
  let baseDelay := default 250 (Storage.baseDelayMs options) in
  Z.of_nat N <= retries ->
  (forall (w wN w' : S) (v : A),
     failing task baseDelay 0 N w wN ->
     task wN = (Ok v, w') ->
     Storage.withRetry COS_RETRY_COUNT task options w = (Ok v, w'))
  /\ (forall (w w' : S) (e : Thrown),
        task w = (Err e, w') ->
        Storage.isRetryableCosError e = false ->
        Storage.withRetry COS_RETRY_COUNT task options w = (Err e, w')).
Proof.
  intros retries baseDelay Hle. split.
  - intros w wN w' v Hfail Hok. unfold Storage.withRetry. fold retries baseDelay.
    eapply retryLoop_failing; eauto; lia.
  - intros w w' e Herr Hfatal. unfold Storage.withRetry. fold retries baseDelay.
    destruct (Z.to_nat (retries + 1)) as [|turns] eqn:Hturns; [lia|].
    cbn [Storage.retryLoop]. unfold tryCatch. rewrite Herr, Hfatal.
    cbn [negb]. now rewrite orb_true_r.
Qed.

End RetryFacts.

(** ** The order of keys *)

Lemma StringLt_lt a b : StringLt a b <-> OrderedTypeEx.String_as_OT.lt a b.
Proof.
  unfold StringLt, String.ltb. rewrite <- OrderedTypeEx.String_as_OT.cmp_lt.
  unfold OrderedTypeEx.String_as_OT.cmp. destruct (String.compare a b); split; congruence.
Qed.

Lemma StringLt_irrefl a : ~ StringLt a a.
Proof.
  intros Hlt. apply StringLt_lt in Hlt.
  apply OrderedTypeEx.String_as_OT.lt_not_eq in Hlt. apply Hlt. reflexivity.
Qed.

Lemma StringLt_trans a b c : StringLt a b -> StringLt b c -> StringLt a c.
Proof.
  rewrite !StringLt_lt. apply OrderedTypeEx.String_as_OT.lt_trans.
Qed.

Lemma StringLe_iff a b : Storage.StringLe a b <-> a = b \/ StringLt a b.
Proof.
  unfold Storage.StringLe, StringLt, String.leb, String.ltb.
  pose proof (OrderedTypeEx.String_as_OT.cmp_eq a b) as Heq.
  unfold OrderedTypeEx.String_as_OT.cmp in Heq.
  destruct (String.compare a b).
  - split; [|reflexivity]. intros _. left. now apply Heq.
  - split; [|reflexivity]. intros _. now right.
  - split; [discriminate|]. intros [Hab|Hlt]; [|discriminate].
    apply Heq in Hab. discriminate.
Qed.

#[local] Instance StringLe_trans : Transitive Storage.StringLe.
Proof.
  intros a b c. rewrite !StringLe_iff. intros [->|Hab] [->|Hbc]; auto.
  right. eapply StringLt_trans; eauto.
Qed.

#[local] Instance StringLe_total : Total Storage.StringLe.
Proof. intros a b. apply String.leb_total. Qed.

Lemma StronglySorted_strict (l : list string) :
  StronglySorted Storage.StringLe l -> NoDup l -> StronglySorted StringLt l.
Proof.
  induction 1 as [|x l _ IH Hall]; intros Hnd; [constructor|].
  apply NoDup_cons in Hnd as [Hx Hnd]. constructor; [now apply IH|].
  rewrite Forall_forall in *. intros y Hy.
  destruct (proj1 (StringLe_iff x y) (Hall y Hy)) as [->|]; [contradiction|assumption].
Qed.

(** In a strictly sorted list, the keys after the last key of a front part
    are the rest. *)
Lemma filter_after_last (front rest : list string) (m : string) :
  StronglySorted StringLt ((front ++ [m]) ++ rest) ->
  List.filter (fun k => String.ltb m k) ((front ++ [m]) ++ rest) = rest.
Proof.
  intros Hsorted. apply StronglySorted_app in Hsorted as (Hcross & Hfront & Hrest).
  rewrite List.filter_app.
  assert (Hdrop : List.filter (fun k => String.ltb m k) (front ++ [m]) = []).
  { apply StronglySorted_app in Hfront as (Hlt & _ & _).
    rewrite List.filter_app. cbn [List.filter].
    replace (String.ltb m m) with false
      by (symmetry; apply not_true_is_false; apply StringLt_irrefl).
    rewrite app_nil_r. clear Hcross Hrest.
    induction front as [|x front IH]; [reflexivity|]. cbn [List.filter].
    replace (String.ltb m x) with false.
    - apply IH. intros a b Ha Hb. apply Hlt; [now right|assumption].
    - symmetry. apply not_true_is_false. intros Hmx.
      apply (StringLt_irrefl m). eapply StringLt_trans; [exact Hmx|].
      apply Hlt; [left|left]. }
  rewrite Hdrop. cbn [app].
  assert (Hall : forall y, y ∈ rest -> String.ltb m y = true).
  { intros y Hy. apply Hcross; [|assumption]. apply elem_of_app. right. left. }
  clear -Hall. induction rest as [|y rest IH]; [reflexivity|]. cbn [List.filter].
  rewrite (Hall y) by left. f_equal. apply IH. intros z Hz. apply Hall. now right.
Qed.

(** The listing of a bucket under a prefix is strictly sorted. *)
Lemma keysUnder_sorted (b : gmap string string) (pfx : string) :
  StronglySorted StringLt (Storage.keysUnder b pfx).
Proof.
  unfold Storage.keysUnder. apply StronglySorted_strict.
  - apply (StronglySorted_merge_sort _).
  - rewrite merge_sort_Permutation.
    apply NoDup_ListNoDup, List.NoDup_filter, NoDup_ListNoDup, NoDup_fst_map_to_list.
Qed.

Lemma elem_of_keysUnder (b : gmap string string) (pfx k : string) :
  k ∈ Storage.keysUnder b pfx <-> is_Some (b !! k) /\ Str.startsWith k pfx = true.
Proof.
  unfold Storage.keysUnder. rewrite merge_sort_Permutation.
  rewrite list_elem_of_In, filter_In, <- list_elem_of_In.
  rewrite list_elem_of_fmap. split.
  - intros [([k' v] & -> & Hkv) Hp]. split; [|exact Hp].
    apply elem_of_map_to_list in Hkv. eauto.
  - intros [[v Hv] Hp]. split; [|exact Hp]. exists (k, v). split; [reflexivity|].
    now apply elem_of_map_to_list.
Qed.

(** ** Storage sync *)

Lemma requested_nil w : requested [] (Sys.bucket w) w = w.
Proof. destruct w. unfold requested. cbn. now rewrite app_nil_r. Qed.

Lemma requested_requested evs1 evs2 b1 b2 w :
  requested evs2 b2 (requested evs1 b1 w) = requested (evs1 ++ evs2) b2 w.
Proof. unfold requested. cbn. now rewrite app_assoc. Qed.

Lemma startsWith_truthy k pfx :
  Str.startsWith k pfx = true -> pfx <> EmptyString -> Str.truthy k = true.
Proof.
  unfold Str.startsWith. destruct pfx as [|c pfx]; [congruence|].
  destruct k; [discriminate|reflexivity].
Qed.

Lemma startsWith_append pfx s : Str.startsWith (pfx +:+ s) pfx = true.
Proof.
  unfold Str.startsWith. induction pfx as [|c pfx IH].
  - now destruct s.
  - change (String c pfx +:+ s) with (String c (pfx +:+ s)). cbn [String.prefix].
    destruct (ascii_dec c c); [exact IH|congruence].
Qed.

Section SyncFacts.
Context `{Runtime}.
Variable COS_RETRY_COUNT : Z.
Variable legacyPrefixRoot : string.
Hypothesis retries_nonneg : 0 <= COS_RETRY_COUNT.

Lemma withRetry_ok {A} (task : M Sys.World A) w a w' :
  task w = (Ok a, w') ->
  Storage.withRetry COS_RETRY_COUNT task Storage.noOptions w = (Ok a, w').
Proof.
  intros Htask. unfold Storage.withRetry.
  cbn [Storage.noOptions Storage.retries Storage.baseDelayMs default].
  destruct (Z.to_nat (COS_RETRY_COUNT + 1)) as [|turns] eqn:Hturns; [lia|].
  cbn [Storage.retryLoop]. unfold tryCatch. now rewrite Htask.
Qed.

Lemma getBucket_run c pfx marker w :
  Sys.faults w = [] ->
  Storage.getBucket c pfx marker 1000 w
  = (Ok (Storage.servePage (Sys.bucket w) pfx marker 1000),
     requested [Sys.EGetBucket (Storage.Bucket c) (Storage.Region c) pfx marker 1000]
               (Sys.bucket w) w).
Proof.
  intros Hf. unfold Storage.getBucket, Storage.request. cbn [Sys.faults Sys.log]. now rewrite Hf.
Qed.

Lemma deleteMultipleObject_run c keys w :
  Sys.faults w = [] ->
  Storage.deleteMultipleObject c keys w
  = (Ok tt, requested [Sys.EDeleteMultipleObject (Storage.Bucket c) (Storage.Region c) keys]
                      (foldr delete (Sys.bucket w) keys) w).
Proof.
  intros Hf. unfold Storage.deleteMultipleObject, Storage.request. cbn [Sys.faults Sys.log].
  now rewrite Hf.
Qed.

Lemma putObject_run c key body w :
  Sys.faults w = [] ->
  Storage.putObject c key body w
  = (Ok tt, requested [Sys.EPutObject (Storage.Bucket c) (Storage.Region c) key body]
                      (<[key := body]> (Sys.bucket w)) w).
Proof.
  intros Hf. unfold Storage.putObject, Storage.request. cbn [Sys.faults Sys.log]. now rewrite Hf.
Qed.


Lemma filter_truthy_keys pfx (b : gmap string string) (l : list string) :
  pfx <> EmptyString ->
  (forall k, k ∈ l -> k ∈ Storage.keysUnder b pfx) ->
  List.filter Str.truthy l = l.
Proof.
  intros Hpfx Hall. induction l as [|k l IH]; [reflexivity|]. cbn [List.filter].
  assert (Hk : Str.truthy k = true).
  { destruct (proj1 (elem_of_keysUnder b pfx k) (Hall k ltac:(left))) as [_ Hp].
    eapply startsWith_truthy; eauto. }
  rewrite Hk. f_equal. apply IH. intros k' Hk'. apply Hall. now right.
Qed.

(** The listing loop on a reliable network returns every key under the
    prefix, by listing requests for that prefix only. *)
Lemma listLoop_run c pfx (fuel : nat) :
  pfx <> EmptyString ->
  forall w marker all rest,
    Sys.faults w = [] ->
    rest = (if Str.truthy marker
            then List.filter (fun k => String.ltb marker k) (Storage.keysUnder (Sys.bucket w) pfx)
            else Storage.keysUnder (Sys.bucket w) pfx) ->
    all ++ rest = Storage.keysUnder (Sys.bucket w) pfx ->
    (length rest < 1000 * fuel)%nat ->
    exists lists,
      Storage.listLoop COS_RETRY_COUNT fuel c pfx marker all w
      = (Ok (Storage.keysUnder (Sys.bucket w) pfx), requested lists (Sys.bucket w) w)
      /\ Forall (isListing c pfx) lists.
Proof.
  intros Hpfx. induction fuel as [|fuel IH]; intros w marker all rest Hfaults Hrest Hall Hlen;
    [lia|].
  cbn [Storage.listLoop]. unfold bind at 1.
  rewrite (withRetry_ok _ _ _ _ (getBucket_run c pfx marker w Hfaults)).
  unfold Storage.servePage. rewrite <- Hrest.
  cbn [Storage.Contents Storage.IsTruncated]. change (Z.to_nat 1000) with 1000%nat.
  set (e := Sys.EGetBucket (Storage.Bucket c) (Storage.Region c) pfx marker 1000).
  assert (Hin : forall k, k ∈ rest -> k ∈ Storage.keysUnder (Sys.bucket w) pfx).
  { intros k Hk. rewrite <- Hall. apply elem_of_app. now right. }
  rewrite (filter_truthy_keys pfx (Sys.bucket w) (take 1000 rest) Hpfx)
    by (intros k Hk; apply Hin; apply elem_of_take in Hk as (i & Hi & _);
        eapply list_elem_of_lookup_2; eauto).
  destruct (1000 <? length rest)%nat eqn:Htrunc.
  - apply Nat.ltb_lt in Htrunc. cbn [negb orb].
    replace (length (take 1000 rest) =? 0)%nat with false
      by (symmetry; apply Nat.eqb_neq; rewrite length_take; lia).
    destruct (exists_last (l := take 1000 rest)) as (front & m & Hlast).
    { intros Hnil. apply (f_equal length) in Hnil. rewrite length_take in Hnil.
      change (length (@nil string)) with 0%nat in Hnil. lia. }
    rewrite Hlast, List.last_last.
    assert (Hsplit : Storage.keysUnder (Sys.bucket w) pfx
                     = ((all ++ front) ++ [m]) ++ drop 1000 rest).
    { rewrite <- Hall, <- (take_drop 1000 rest) at 1. rewrite Hlast.
      now rewrite <- !app_assoc. }
    assert (Hm : Str.truthy m = true).
    { destruct (proj1 (elem_of_keysUnder (Sys.bucket w) pfx m)) as [_ Hp].
      - rewrite Hsplit. apply elem_of_app. left. apply elem_of_app. right. left.
      - eapply startsWith_truthy; eauto. }
    destruct (IH (requested [e] (Sys.bucket w) w) m (all ++ front ++ [m]) (drop 1000 rest))
      as (lists & Hrun & Hlists).
    + exact Hfaults.
    + cbn [Sys.bucket requested]. rewrite Hm. rewrite Hsplit at 1.
      symmetry. apply filter_after_last. rewrite <- Hsplit. apply keysUnder_sorted.
    + cbn [Sys.bucket requested]. rewrite Hsplit. now rewrite <- !app_assoc.
    + rewrite length_drop. lia.
    + cbn [Sys.bucket requested] in Hrun. rewrite Hrun, requested_requested.
      exists ([e] ++ lists). split; [reflexivity|].
      apply Forall_app. split; [|exact Hlists]. constructor; [|constructor]. now exists marker.
  - apply Nat.ltb_ge in Htrunc. cbn [negb orb]. unfold ret.
    rewrite take_ge by lia. rewrite Hall.
    exists [e]. split; [reflexivity|]. constructor; [|constructor]. now exists marker.
Qed.


Lemma deleteChunks_run c (chunks : list (list string)) w :
  Sys.faults w = [] ->
  Storage.forEach chunks
    (fun chunk =>
       Storage.withRetry COS_RETRY_COUNT (Storage.deleteMultipleObject c chunk) Storage.noOptions) w
  = (Ok tt,
     requested (map (Sys.EDeleteMultipleObject (Storage.Bucket c) (Storage.Region c)) chunks)
               (purged chunks (Sys.bucket w)) w).
Proof.
  revert w. induction chunks as [|chunk chunks IH]; intros w Hfaults.
  - cbn [Storage.forEach map purged fold_left]. unfold ret. now rewrite requested_nil.
  - cbn [Storage.forEach]. unfold bind.
    rewrite (withRetry_ok _ _ _ _ (deleteMultipleObject_run c chunk w Hfaults)).
    rewrite IH by exact Hfaults. now rewrite requested_requested.
Qed.

Lemma deleteKeys_run c (keys : list string) w :
  Sys.faults w = [] ->
  Storage.deleteKeys COS_RETRY_COUNT c keys w
  = (Ok tt,
     requested (map (Sys.EDeleteMultipleObject (Storage.Bucket c) (Storage.Region c))
                    (Storage.chunksOf 1000 (length keys) keys))
               (purged (Storage.chunksOf 1000 (length keys) keys) (Sys.bucket w)) w).
Proof.
  intros Hfaults. unfold Storage.deleteKeys.
  destruct keys as [|k keys].
  - cbn [length Nat.eqb Storage.chunksOf map purged fold_left]. unfold ret.
    now rewrite requested_nil.
  - replace (length (k :: keys) =? 0)%nat with false by reflexivity.
    now apply deleteChunks_run.
Qed.

Lemma upload_run c pfx sourceDir (files : list string) w :
  Sys.faults w = [] ->
  (forall file, file ∈ files -> is_Some (Sys.files w !! file)) ->
  Storage.forEach files
    (fun file =>
       let rel := Storage.normalizeRelPath (Sys.relativeTo sourceDir file) in
       let key := pfx +:+ rel in
       let! body := Sys.readFile file in
       Storage.withRetry COS_RETRY_COUNT (Storage.putObject c key body) Storage.noOptions) w
  = (Ok tt,
     requested (concat (map (uploadEvents c pfx sourceDir (Sys.files w)) files))
               (mirrored pfx sourceDir (Sys.files w) files (Sys.bucket w)) w).
Proof.
  revert w. induction files as [|file files IH]; intros w Hfaults Hfiles.
  - cbn [Storage.forEach map concat mirrored fold_left]. unfold ret. now rewrite requested_nil.
  - cbn [Storage.forEach]. unfold bind at 1. unfold bind at 1. unfold Sys.readFile.
    destruct (Hfiles file ltac:(left)) as [body Hbody]. rewrite Hbody.
    change (Sys.log (Sys.EReadFile file) w) with (requested [Sys.EReadFile file] (Sys.bucket w) w).
    erewrite withRetry_ok; [|apply putObject_run; exact Hfaults].
    rewrite requested_requested. cbn [Sys.bucket requested].
    rewrite IH.
    + rewrite requested_requested. cbn [Sys.files Sys.bucket requested].
      cbn [map concat mirrored fold_left]. unfold uploadEvents at 2, keyOf at 2.
      rewrite Hbody. cbn [default]. now rewrite <- app_assoc.
    + exact Hfaults.
    + intros f Hf. cbn [Sys.files requested]. apply Hfiles. now right.
Qed.


Lemma filesBelow_present rootDir (local : gmap string string) file :
  file ∈ filesBelow rootDir local -> is_Some (local !! file).
Proof.
  unfold filesBelow. rewrite list_elem_of_In, filter_In, <- list_elem_of_In.
  intros [Hin _]. apply list_elem_of_fmap in Hin as ([k v] & -> & Hkv).
  apply elem_of_map_to_list in Hkv. eauto.
Qed.

End SyncFacts.

(** * Further properties of the code *)

(** ** Entry names *)

Lemma includes_replaceAll (a b : ascii) (s : string) :
  a <> b -> Str.includes (Str.replaceAll a b s) (String a EmptyString) = false.
Proof.
  intros Hab. induction s as [|c s IH]; [reflexivity|].
  cbn [Str.replaceAll Str.includes String.prefix]. rewrite IH.
  destruct (Ascii.eqb c a) eqn:E.
  - destruct (ascii_dec a b); [contradiction|reflexivity].
  - destruct (ascii_dec a c) as [->|]; [|reflexivity].
    now rewrite Ascii.eqb_refl in E.
Qed.

Lemma includes_dropLeading (c : ascii) (s p : string) :
  Str.includes s p = false -> Str.includes (Str.dropLeading c s) p = false.
Proof.
  induction s as [|d s IH]; [auto|]. intros Hs. cbn [Str.dropLeading].
  destruct (Ascii.eqb d c); [|exact Hs].
  apply IH. cbn [Str.includes] in Hs. now apply orb_false_elim in Hs as [_ Hs].
Qed.

Lemma startsWith_dropLeading (c : ascii) (s : string) :
  Str.startsWith (Str.dropLeading c s) (String c EmptyString) = false.
Proof.
  induction s as [|d s IH]; [reflexivity|]. cbn [Str.dropLeading].
  destruct (Ascii.eqb d c) eqn:E; [exact IH|].
  unfold Str.startsWith. cbn [String.prefix].
  destruct (ascii_dec c d) as [->|]; [|reflexivity]. now rewrite Ascii.eqb_refl in E.
Qed.

Lemma replaceAll_absent (a b : ascii) (s : string) :
  Str.includes s (String a EmptyString) = false -> Str.replaceAll a b s = s.
Proof.
  induction s as [|c s IH]; [reflexivity|]. cbn [Str.includes String.prefix Str.replaceAll].
  intros Hs. apply orb_false_elim in Hs as [Hc Hs]. rewrite (IH Hs).
  destruct (Ascii.eqb c a) eqn:E; [|reflexivity].
  apply Ascii.eqb_eq in E. subst c. destruct (ascii_dec a a); [|contradiction].
  now destruct s.
Qed.

Lemma dropLeading_absent (c : ascii) (s : string) :
  Str.startsWith s (String c EmptyString) = false -> Str.dropLeading c s = s.
Proof.
  destruct s as [|d s]; [reflexivity|]. unfold Str.startsWith. cbn [String.prefix Str.dropLeading].
  destruct (Ascii.eqb d c) eqn:E; [|reflexivity].
  apply Ascii.eqb_eq in E. subst d. destruct (ascii_dec c c); [|contradiction].
  now destruct s.
Qed.

(** X1: a normalized entry name has no backslash and no leading slash, and
    normalizing it again changes nothing. *)
Theorem normalizeZipEntryName_normal (n : string) :
  Str.includes (Archive.normalizeZipEntryName n) (String Str.backslash EmptyString) = false
  /\ Str.startsWith (Archive.normalizeZipEntryName n) "/" = false
  /\ Archive.normalizeZipEntryName (Archive.normalizeZipEntryName n)
     = Archive.normalizeZipEntryName n.
Proof.
  assert (Hbs : Str.includes (Archive.normalizeZipEntryName n)
                  (String Str.backslash EmptyString) = false).
  { unfold Archive.normalizeZipEntryName. apply includes_dropLeading, includes_replaceAll.
    discriminate. }
  assert (Hsl : Str.startsWith (Archive.normalizeZipEntryName n) "/" = false).
  { unfold Archive.normalizeZipEntryName. apply startsWith_dropLeading. }
  split; [exact Hbs|]. split; [exact Hsl|].
  unfold Archive.normalizeZipEntryName at 1.
  rewrite (replaceAll_absent _ _ _ Hbs). now apply dropLeading_absent.
Qed.

(** ** The archive inspector, the remaining branches *)

Section LayoutFacts.
Import Archive.

Lemma filter_Permutation {A} (f : A -> bool) (l l' : list A) :
  l ≡ₚ l' -> List.filter f l ≡ₚ List.filter f l'.
Proof.
  induction 1 as [|x l l' _ IH|x y l|l l' l'' _ IH1 _ IH2]; cbn [List.filter].
  - reflexivity.
  - destruct (f x); [now constructor|assumption].
  - destruct (f x), (f y); try reflexivity. apply perm_swap.
  - now transitivity (List.filter f l').
Qed.

Lemma existsb_Permutation {A} (f : A -> bool) (l l' : list A) :
  l ≡ₚ l' -> existsb f l = existsb f l'.
Proof.
  induction 1 as [|x l l' _ IH|x y l|l l' l'' _ IH1 _ IH2]; cbn [existsb].
  - reflexivity.
  - now rewrite IH.
  - now rewrite !orb_assoc, (orb_comm (f y)).
  - congruence.
Qed.

Lemma scanEntries_Permutation (entries entries' : list Entry) :
  entries ≡ₚ entries' ->
  (scanEntries entries).1 ≡ₚ (scanEntries entries').1
  /\ (scanEntries entries).2 = (scanEntries entries').2.
Proof.
  intros Hperm. unfold scanEntries.
  destruct (scan_fold_spec entries ([], false)) as (Hr & Hin & Hnd).
  destruct (scan_fold_spec entries' ([], false)) as (Hr' & Hin' & Hnd').
  split.
  - apply NoDup_Permutation; [apply Hnd, NoDup_nil_2|apply Hnd', NoDup_nil_2|].
    intros x. rewrite Hin, Hin'. cbn [fst].
    split; (intros [Hx|(e & He & Hc)]; [now left|right; exists e; split; [|exact Hc]]).
    + now rewrite <- Hperm.
    + now rewrite Hperm.
  - rewrite Hr, Hr'. cbn [snd orb]. now apply existsb_Permutation.
Qed.

(** X2: the verdict of the inspector does not depend on the order in which
    the archive lists its entries. *)
Theorem layout_order_independent (zip zip' : list ZipEntry) (version : string) :
  zip ≡ₚ zip' ->
  inspectArchiveLayout zip version = inspectArchiveLayout zip' version.
Proof.
  intros Hperm.
  assert (Hus : usableEntries zip ≡ₚ usableEntries zip').
  { unfold usableEntries. apply filter_Permutation. now apply Permutation_map. }
  unfold inspectArchiveLayout. rewrite (Permutation_length Hus).
  destruct (length (usableEntries zip') =? 0)%nat; [reflexivity|].
  destruct (scanEntries_Permutation _ _ Hus) as [Htf Hrf].
  destruct (scanEntries (usableEntries zip)) as [tf rf].
  destruct (scanEntries (usableEntries zip')) as [tf' rf'].
  cbn [fst snd] in *. subst rf'. rewrite (Permutation_length Htf).
  destruct (length tf' =? 1)%nat eqn:E1; [|reflexivity].
  destruct rf; [reflexivity|]. cbn [negb andb].
  apply Nat.eqb_eq in E1. destruct tf' as [|y [|? ?]]; try discriminate.
  apply Permutation_singleton_r in Htf. now subst tf.
Qed.

Lemma topFolders_without_root (entries : list Entry) :
  (forall e, e ∈ entries -> is_Some (topSegment e)) ->
  existsb isRootFile entries = false ->
  (scanEntries entries).2 = false
  /\ NoDup (scanEntries entries).1
  /\ forall x, x ∈ (scanEntries entries).1 <-> exists e, e ∈ entries /\ x = topSegment e.
Proof.
  intros Hseg Hroot. unfold scanEntries.
  destruct (scan_fold_spec entries ([], false)) as (Hr & Hin & Hnd).
  split; [now rewrite Hr, Hroot|]. split; [apply Hnd, NoDup_nil_2|].
  intros x. rewrite Hin. cbn [fst]. split.
  - intros [Hx|(e & He & _ & ->)]; [now apply elem_of_nil in Hx|]. now exists e.
  - intros (e & He & ->). right. exists e. split; [exact He|]. split; [|reflexivity].
    destruct (Hseg e He) as [s Hs]. apply (contributes_of_segment e s); [|exact Hs].
    apply not_true_is_false. intros Hr'.
    assert (existsb isRootFile entries = true); [|congruence].
    apply existsb_exists. exists e. split; [now apply list_elem_of_In|exact Hr'].
Qed.

(** X3: the inspector accepts an archive exactly when it has a usable
    entry and either a root file among them or every usable entry under
    the folder named as the version; it flattens exactly in the second
    case when there is no root file. *)
Theorem layout_classification (zip : list ZipEntry) (version : string) :
  let entries := usableEntries zip in
  let underVersion := forall e, e ∈ entries -> topSegment e = Some version in
  (ok (inspectArchiveLayout zip version) = true
   <-> entries <> [] /\ (existsb isRootFile entries = true \/ underVersion))
  /\ (flatten (inspectArchiveLayout zip version) = true
      <-> entries <> [] /\ existsb isRootFile entries = false /\ underVersion).
Proof.
  cbv zeta. unfold inspectArchiveLayout.
  set (entries := usableEntries zip).
  assert (Hseg : forall e, e ∈ entries -> is_Some (topSegment e)).
  { intros e He. exact (usable_has_segment zip e He). }
  clearbody entries.
  destruct entries as [|e0 es] eqn:Hent.
  { cbn [length Nat.eqb ok flatten]. split; split; try discriminate; now intros [? _]. }
  cbn [length Nat.eqb]. rewrite <- Hent in *.
  set (underVersion := forall e, e ∈ entries -> topSegment e = Some version).
  assert (Hne : entries <> []) by now rewrite Hent.
  assert (He0 : e0 ∈ entries) by (rewrite Hent; left).
  destruct (existsb isRootFile entries) eqn:Hroot.
  - unfold scanEntries.
    destruct (scan_fold_spec entries ([], false)) as (Hr & _ & _).
    destruct (fold_left scanEntry entries ([], false)) as [tf rf].
    cbn [fst snd orb] in Hr. rewrite Hr, Hroot. cbn [negb]. rewrite !andb_false_r.
    cbn [ok flatten]. split; split; try discriminate; auto. now intros (_ & ? & _).
  - destruct (topFolders_without_root entries) as (Hrf & Hnd & Hin); [|exact Hroot|].
    { exact Hseg. }
    destruct (scanEntries entries) as [tf rf]. cbn [fst snd] in *. subst rf.
    cbn [negb]. rewrite !andb_true_r.
    assert (Hunder : underVersion <-> tf = [Some version]).
    { split.
      - intros Hall.
        assert (Hall' : forall x, x ∈ tf -> x = Some version).
        { intros x Hx. apply Hin in Hx as (e & He & ->). now apply Hall. }
        assert (Hhas : Some version ∈ tf).
        { apply Hin. exists e0. split; [exact He0|]. symmetry. now apply Hall. }
        destruct tf as [|x [|y l]].
        + now apply elem_of_nil in Hhas.
        + f_equal. apply Hall'. left.
        + exfalso. apply NoDup_cons in Hnd as [Hx _]. apply Hx.
          rewrite (Hall' x) by left. rewrite (Hall' y) by (right; left). left.
      - intros -> e He.
        assert (Hx : topSegment e ∈ [Some version]) by (apply Hin; eauto).
        now apply list_elem_of_singleton in Hx. }
    destruct (length tf =? 1)%nat eqn:E1.
    + apply Nat.eqb_eq in E1. destruct tf as [|x [|? ?]]; try discriminate.
      cbn [head]. case_bool_decide as Hx; cbn [ok flatten].
      * assert (Hno : ~ underVersion) by (rewrite Hunder; congruence).
        split; split; try discriminate.
        -- intros (_ & [?|?]); [discriminate|contradiction].
        -- intros (_ & _ & ?); contradiction.
      * assert (Hyes : underVersion).
        { apply Hunder. congruence. }
        split; split; auto.
    + assert (Hno : ~ underVersion).
      { rewrite Hunder. intros ->. discriminate. }
      assert (Hlt : (1 <? length tf)%nat = true).
      { apply Nat.ltb_lt. apply Nat.eqb_neq in E1.
        assert (topSegment e0 ∈ tf) by (apply Hin; eauto).
        destruct tf; [now apply elem_of_nil in H|]. cbn [length] in *. lia. }
      rewrite Hlt. cbn [ok flatten]. split; split; try discriminate.
      * intros (_ & [?|?]); [discriminate|contradiction].
      * intros (_ & _ & ?); contradiction.
Qed.

End LayoutFacts.

(** The witness of X2: the archive [twoFolders] and its reverse. *)
Lemma layout_order_independent_witness :
  Archive.inspectArchiveLayout twoFolders "100"
  = Archive.inspectArchiveLayout (reverse twoFolders) "100".
Proof.
  apply (layout_order_independent twoFolders (reverse twoFolders) "100").
  symmetry. apply reverse_Permutation.
Defined.


(** ** The registry, operation by operation *)

Section RegistrySteps.
Context `{Runtime}.

Local Abbreviation value := (json number).
Local Abbreviation statePath := Paths.getStateFilePath.

Lemma files_ticked k w : Sys.files (ticked k w) = Sys.files w.
Proof. revert w. induction k as [|k IH]; intros w; [reflexivity|]. cbn [ticked]. now rewrite IH. Qed.

Lemma ticks_ticked k w : Sys.ticks (ticked k w) = (k + Sys.ticks w)%nat.
Proof.
  revert w. induction k as [|k IH]; intros w; [reflexivity|]. cbn [ticked].
  rewrite IH. cbn [Sys.ticks Sys.tick]. lia.
Qed.

Lemma ensureStateFile_present w text :
  Sys.files w !! statePath = Some text ->
  State.ensureStateFile w
  = (Ok tt, Sys.log (Sys.EAccess statePath) (Sys.log (Sys.EMkdir (path_dirname statePath)) w)).
Proof.
  intros Hf. unfold State.ensureStateFile, bind, tryCatch, Sys.mkdir, Sys.access.
  cbn [Sys.files Sys.log]. now rewrite Hf.
Qed.

Lemma ensureStateFile_absent w :
  Sys.files w !! statePath = None ->
  State.ensureStateFile w
  = (Ok tt, written (textOf State.DEFAULT_DOC)
              (Sys.log (Sys.EAccess statePath) (Sys.log (Sys.EMkdir (path_dirname statePath)) w))).
Proof.
  intros Hf. unfold State.ensureStateFile, bind, tryCatch, Sys.mkdir, Sys.access.
  cbn [Sys.files Sys.log]. rewrite Hf. rewrite atomicWriteState_run.
  unfold State.DEFAULT_STATE. now rewrite normalize_docObject.
Qed.

(** X4: [ensureStateFile] always returns; it leaves an existing registry
    file as it is, whatever its text, and writes the default document when
    there is none; a second call changes no file. *)
Theorem ensureStateFile_creates_once (w : Sys.World) :
  exists w',
    State.ensureStateFile w = (Ok tt, w')
    /\ Sys.files w' !! statePath
       = Some (default (textOf State.DEFAULT_DOC) (Sys.files w !! statePath))
    /\ (is_Some (Sys.files w !! statePath) -> Sys.files w' = Sys.files w)
    /\ (forall p, p <> statePath -> p <> State.tempPath -> Sys.files w' !! p = Sys.files w !! p)
    /\ exists w'', State.ensureStateFile w' = (Ok tt, w'') /\ Sys.files w'' = Sys.files w'.
Proof.
  destruct (Sys.files w !! statePath) as [text|] eqn:Hf.
  - eexists. split; [now apply (ensureStateFile_present w text)|].
    cbn [Sys.files Sys.log default]. split; [exact Hf|]. split; [reflexivity|].
    split; [reflexivity|]. eexists. split; [now apply (ensureStateFile_present _ text)|].
    reflexivity.
  - eexists. split; [now apply ensureStateFile_absent|].
    rewrite files_written. cbn [Sys.files Sys.log default].
    split; [apply lookup_insert_eq|]. split; [now intros [? ?]|]. split.
    + intros p Hp Hp'. rewrite lookup_insert_ne by congruence.
      now rewrite lookup_delete_ne by congruence.
    + eexists. split.
      * apply (ensureStateFile_present _ (textOf State.DEFAULT_DOC)).
        rewrite files_written. apply lookup_insert_eq.
      * cbn [Sys.files Sys.log]. now rewrite files_written.
Qed.

(** X5: [atomicWriteState] writes the normal form of whatever value it is
    given: the [readState] that follows returns [normalizeState] of the
    value, which is the default document for every value that is not an
    object, and normalizing once more changes nothing. *)
Theorem atomicWriteState_normalizes (v : value) (w : Sys.World) :
  JSON_lossless ->
  let d := State.normalizeState v in
  State.atomicWriteState v w = (Ok tt, written (textOf d) w)
  /\ (State.readState (written (textOf d) w)).1 = Ok d
  /\ State.normalizeState (State.docObject d) = d
  /\ ((forall o, v <> JObj o) -> d = State.DEFAULT_DOC).
Proof.
  intros Hlaw d. split; [apply atomicWriteState_run|]. split; [|split].
  - rewrite (readState_present _ (textOf d)).
    + cbn [fst]. now rewrite docOfText_textOf.
    + rewrite files_written. apply lookup_insert_eq.
  - apply normalize_docObject.
  - intros Hv. unfold d. destruct v; try reflexivity. now destruct (Hv o).
Qed.

(** *** [recordUpload] *)

Lemma findFirst_none version (vs : list value) :
  (forall r, r ∈ vs -> r <> JNull /\ State.optProp r "version" <> Some (JStr version)) ->
  State.findFirst (State.isVersion version) vs = Ok None.
Proof.
  induction vs as [|v vs IH]; intros Hall; [reflexivity|]. cbn [State.findFirst].
  destruct (Hall v ltac:(left)) as [Hv Hne].
  rewrite (isVersion_nonnull version v Hv).
  replace (recordOf version v) with false.
  - rewrite IH; [reflexivity|]. intros r Hr. apply Hall. now right.
  - symmetry. apply not_true_is_false. intros Hrec. apply Hne. unfold recordOf in Hrec.
    destruct (State.optProp v "version") as [[| | |s| |]|]; try discriminate.
    apply String.eqb_eq in Hrec. now subst.
Qed.

Lemma findFirst_at version (vs : list value) (i : nat) (r : value) :
  vs !! i = Some r ->
  State.optProp r "version" = Some (JStr version) ->
  (forall j r', (j < i)%nat -> vs !! j = Some r' ->
                r' <> JNull /\ State.optProp r' "version" <> Some (JStr version)) ->
  State.findFirst (State.isVersion version) vs = Ok (Some i).
Proof.
  revert i. induction vs as [|v vs IH]; intros i Hi Hr Hbefore; [discriminate|].
  cbn [State.findFirst]. destruct i as [|i].
  - injection Hi as ->. unfold State.isVersion, State.prop.
    destruct r; try discriminate. cbn in Hr. rewrite Hr. now rewrite String.eqb_refl.
  - destruct (Hbefore 0%nat v ltac:(lia) eq_refl) as [Hv Hne].
    rewrite (isVersion_nonnull version v Hv).
    replace (recordOf version v) with false.
    + rewrite (IH i); [reflexivity|exact Hi|exact Hr|].
      intros j r' Hj Hj'. apply (Hbefore (S j)); [lia|exact Hj'].
    + symmetry. apply not_true_is_false. intros Hrec. apply Hne. unfold recordOf in Hrec.
      destruct (State.optProp v "version") as [[| | |s| |]|]; try discriminate.
      apply String.eqb_eq in Hrec. now subst.
Qed.

(** What [recordUpload] writes, by what [find] returns. *)
Lemma recordUpload_by_find version w st w1 (found : option nat) :
  State.readState w = (Ok st, w1) ->
  State.findFirst (State.isVersion version) (State.versions st) = Ok found ->
  let t := Sys.ticks w1 in
  let d' :=
    {| State.currentVersion := State.currentVersion st;
       State.versions :=
         match found with
         | Some i => alter (fun v => State.setProp v "uploadedAt" (JStr (clock t))) i
                           (State.versions st)
         | None => State.versions st ++ [State.uploadedRecord version (clock t)]
         end;
       State.history :=
         State.history st
         ++ [State.historyEntry
               (match found with Some _ => "upload_overwrite" | None => "upload" end)
               version (clock (S t))] |} in
  State.recordUpload version w = (Ok (bool_decide (is_Some found)), written (textOf d') (ticked 2 w1)).
Proof.
  intros Hread Hfind t d'. unfold State.recordUpload.
  rewrite (bind_ok _ _ _ _ _ Hread).
  unfold State.upsertVersion, bind at 1. unfold bind at 1.
  cbn [Sys.nowISO]. unfold bind at 1. unfold State.liftR at 1. rewrite Hfind.
  destruct found as [i|]; cbn [ret]; unfold bind at 1; cbn [Sys.nowISO fst snd];
    unfold bind at 1; rewrite atomicWriteState_run, normalize_docObject; reflexivity.
Qed.


Lemma alter_insert {A} (f : A -> A) (l : list A) (i : nat) (x : A) :
  l !! i = Some x -> alter f i l = <[i := f x]> l.
Proof.
  revert i. induction l as [|y l IH]; intros [|i] Hi; try discriminate.
  - now injection Hi as ->.
  - cbn. f_equal. now apply IH.
Qed.


(** *** [setCurrentVersion] *)

Lemma tick_ticked k w : Sys.tick (ticked k w) = ticked k (Sys.tick w).
Proof. revert w. induction k as [|k IH]; intros w; [reflexivity|]. cbn [ticked]. now rewrite IH. Qed.

(** [markPublished] on records none of which is [null]: every record of
    [version] gets a reading of the clock as its [publishedAt], and the
    other records are kept. *)
Lemma markPublished_stamps version (vs : list value) w :
  Forall (fun v => v <> JNull) vs ->
  exists vs' k,
    State.markPublished version vs w = (Ok vs', ticked k w)
    /\ Forall2 (fun v v' =>
                  if recordOf version v
                  then exists n, (Sys.ticks w <= n < Sys.ticks w + k)%nat
                                 /\ v' = State.setProp v "publishedAt" (JStr (clock n))
                  else v' = v)
               vs vs'.
Proof.
  intros Hkept. revert w. induction Hkept as [|v vs Hv _ IH]; intros w.
  - exists [], 0%nat. split; [reflexivity|constructor].
  - cbn [State.markPublished]. unfold bind at 1. unfold State.liftR at 1.
    rewrite (isVersion_nonnull version v Hv).
    destruct (recordOf version v) eqn:Hrec.
    + unfold bind at 1. unfold bind at 1. cbn [Sys.nowISO ret].
      destruct (IH (Sys.tick w)) as (vs' & k & Hrun & Hall).
      unfold bind at 1. rewrite Hrun. cbn [ret].
      exists (State.setProp v "publishedAt" (JStr (clock (Sys.ticks w))) :: vs'), (S k).
      split; [reflexivity|]. constructor.
      * rewrite Hrec. exists (Sys.ticks w). split; [lia|reflexivity].
      * eapply Forall2_impl; [exact Hall|]. intros x y Hxy. cbv beta in *.
        destruct (recordOf version x); [|exact Hxy].
        destruct Hxy as (n & Hn & ->). exists n. split; [|reflexivity].
        cbn [Sys.ticks Sys.tick] in Hn. lia.
    + unfold bind at 1. cbn [ret].
      destruct (IH w) as (vs' & k & Hrun & Hall).
      unfold bind at 1. rewrite Hrun. cbn [ret].
      exists (v :: vs'), k. split; [reflexivity|]. constructor; [|exact Hall].
      now rewrite Hrec.
Qed.

(** What [setCurrentVersion] writes on records none of which is [null]. *)
Lemma setCurrentVersion_steps version action w st w1 :
  State.readState w = (Ok st, w1) ->
  Forall (fun v : value => v <> JNull) (State.versions st) ->
  exists vs' k,
    (if existsb (recordOf version) (State.versions st)
     then State.markPublished version (State.versions st) w1 = (Ok vs', ticked k w1)
     else vs' = State.versions st
                ++ [State.publishedRecord version (clock (Sys.ticks w1))
                                          (clock (S (Sys.ticks w1)))]
          /\ k = 2%nat)
    /\ State.setCurrentVersion version action w
       = (Ok tt,
          written (textOf {| State.currentVersion := version;
                             State.versions := vs';
                             State.history :=
                               State.history st
                               ++ [State.historyEntry action version
                                                      (clock (k + Sys.ticks w1))] |})
                  (ticked (S k) w1)).
Proof.
  intros Hread Hkept. unfold State.setCurrentVersion. rewrite (bind_ok _ _ _ _ _ Hread).
  unfold bind at 1. unfold State.liftR at 1. rewrite (some_nonnull version _ Hkept).
  destruct (existsb (recordOf version) (State.versions st)) eqn:Hex.
  - destruct (markPublished_stamps version (State.versions st) w1 Hkept)
      as (vs' & k & Hrun & _).
    exists vs', k. split; [exact Hrun|].
    unfold bind at 1. rewrite Hrun. unfold bind at 1. cbn [Sys.nowISO].
    rewrite atomicWriteState_run, normalize_docObject.
    rewrite ticks_ticked, tick_ticked. reflexivity.
  - eexists _, 2%nat. split; [split; reflexivity|].
    unfold bind at 1. unfold bind at 1. unfold bind at 1. cbn [Sys.nowISO ret].
    unfold bind at 1. cbn [Sys.nowISO].
    rewrite atomicWriteState_run, normalize_docObject. reflexivity.
Qed.


(** *** The history *)

Lemma runOp_history op w :
  JSON_lossless ->
  wellKept (currentDoc w) ->
  wellKept (currentDoc (runOp op w).2)
  /\ exists e, logged op e
               /\ State.history (currentDoc (runOp op w).2)
                  = State.history (currentDoc w) ++ [e].
Proof.
  intros Hlaw Hkept. destruct op as [version|version action]; cbn [runOp].
  - destruct (recordUpload_run version w Hlaw Hkept)
      as (b & w' & d' & Hrun & Hdoc & _ & Hkept' & _).
    assert (Hfound : exists found,
               State.findFirst (State.isVersion version) (State.versions (currentDoc w))
               = Ok found).
    { destruct (findFirst_nonnull version _ Hkept) as [[-> _]|(i & r & -> & _)]; eauto. }
    destruct Hfound as [found Hfound].
    pose proof (recordUpload_by_find version w _ _ found (readState_run w Hlaw) Hfound) as Hrun'.
    cbv zeta in Hrun'. unfold bind. rewrite Hrun in *. cbn [ret snd].
    split; [now rewrite Hdoc|].
    injection Hrun' as _ ->. rewrite (currentDoc_written _ _ Hlaw). cbn [State.history].
    eexists. split; [|reflexivity]. cbn [logged].
    destruct found; eauto.
  - destruct (setCurrentVersion_run version action w Hlaw Hkept)
      as (w' & d' & Hrun & Hdoc & _ & Hkept' & _).
    destruct (setCurrentVersion_steps version action w _ _ (readState_run w Hlaw) Hkept)
      as (vs' & k & _ & Hrun').
    rewrite Hrun in *. cbn [snd]. split; [now rewrite Hdoc|].
    injection Hrun' as ->. rewrite (currentDoc_written _ _ Hlaw). cbn [State.history].
    eexists. split; [|reflexivity]. cbn [logged]. eauto.
Qed.


(** *** A record that is [null] *)

Lemma null_or_not (v : value) : v = JNull \/ v <> JNull.
Proof. destruct v; auto; right; discriminate. Qed.

Lemma markPublished_null version (vs : list value) w :
  JNull ∈ vs ->
  exists k, State.markPublished version vs w = (Err TypeError, ticked k w).
Proof.
  revert w. induction vs as [|v vs IH]; intros w Hin; [now apply elem_of_nil in Hin|].
  cbn [State.markPublished]. unfold bind at 1. unfold State.liftR at 1.
  destruct (null_or_not v) as [->|Hv].
  { exists 0%nat. reflexivity. }
  apply elem_of_cons in Hin as [Heq|Hin]; [congruence|].
  rewrite (isVersion_nonnull version v Hv).
  destruct (recordOf version v).
  - unfold bind at 1. unfold bind at 1. cbn [Sys.nowISO ret].
    destruct (IH (Sys.tick w) Hin) as (k & Hrun).
    unfold bind at 1. rewrite Hrun. now exists (S k).
  - unfold bind at 1. cbn [ret]. destruct (IH w Hin) as (k & Hrun).
    unfold bind at 1. rewrite Hrun. now exists k.
Qed.

Lemma some_null version (vs : list value) :
  JNull ∈ vs ->
  State.some (State.isVersion version) vs = Ok true
  \/ State.some (State.isVersion version) vs = Err TypeError.
Proof.
  unfold State.some. induction vs as [|v vs IH]; intros Hin; [now apply elem_of_nil in Hin|].
  cbn [State.findFirst]. destruct (null_or_not v) as [->|Hv]; [now right|].
  apply elem_of_cons in Hin as [Heq|Hin]; [congruence|].
  rewrite (isVersion_nonnull version v Hv). destruct (recordOf version v); [now left|].
  destruct (State.findFirst (State.isVersion version) vs) as [[i|]|e|];
    destruct (IH Hin) as [Hs|Hs]; try discriminate; auto.
Qed.

(** X10: while the registry file holds a [null] among its records,
    [setCurrentVersion] throws a [TypeError] for every version and action,
    and leaves every file as it was. *)
Theorem null_record_blocks_publish (version action text : string) (w : Sys.World) :
  Sys.files w !! statePath = Some text ->
  JNull ∈ State.versions (docOfText text) ->
  exists w',
    State.setCurrentVersion version action w = (Err TypeError, w')
    /\ Sys.files w' = Sys.files w.
Proof.
  intros Hf Hnull. unfold State.setCurrentVersion.
  rewrite (bind_ok _ _ _ _ _ (readState_present w text Hf)).
  unfold bind at 1. unfold State.liftR at 1.
  destruct (some_null version _ Hnull) as [-> | ->].
  - destruct (markPublished_null version _ (readPresent w) Hnull) as (k & Hrun).
    unfold bind at 1. rewrite Hrun. eexists. split; [reflexivity|].
    now rewrite files_ticked.
  - eexists. split; [reflexivity|]. reflexivity.
Qed.

End RegistrySteps.

(** ** The publish lock, with options *)

(** X11: with the lock file absent and at least one attempt allowed,
    [withFileLock] creates the lock file, runs the critical section with
    it in place, and closes and removes it whether the section returned or
    threw; the outcome of the section is the outcome of the call. *)
Theorem withFileLock_releases {A} (lockPath : string) (fn : M Sys.World A)
    (options : Lock.Options) (w w' : Sys.World) (r : Result A) :
  1 <= default 60 (Lock.retries options) ->
  Sys.files w !! lockPath = None ->
  fn (locked lockPath w) = (r, w') ->
  r <> Pending ->
  Lock.withFileLock lockPath fn options w = (r, released lockPath w')
  /\ Sys.files (locked lockPath w) !! lockPath = Some ""
  /\ Sys.files (released lockPath w') !! lockPath = None
  /\ Sys.trace (released lockPath w')
     = Sys.trace w' ++ [Sys.EClose lockPath; Sys.ERm lockPath].
Proof.
  intros Hretries Hfree Hfn Hr. split; [|split; [|split]].
  - unfold Lock.withFileLock. unfold bind at 1.
    destruct (Z.to_nat (default 60 (Lock.retries options))) as [|n] eqn:Hn; [lia|].
    rewrite (acquire_free lockPath _ n w Hfree).
    unfold tryFinally. rewrite Hfn. unfold bind, Sys.close, Sys.rm.
    destruct r; [reflexivity|reflexivity|congruence].
  - unfold locked. cbn [Sys.files Sys.log Sys.setFiles]. apply lookup_insert_eq.
  - unfold released. cbn [Sys.files Sys.log Sys.setFiles]. apply lookup_delete_eq.
  - unfold released. cbn [Sys.trace Sys.log Sys.setFiles]. now rewrite <- app_assoc.
Qed.

(** X12: while the lock file exists, and also when the [retries] option is
    zero or negative, [withFileLock] never runs the critical section: it
    makes [retries] attempts, sleeps [retryDelayMs] after each, changes no
    file and throws [LOCK_TIMEOUT]. *)
Theorem withFileLock_gives_up {A} (lockPath : string) (fn : M Sys.World A)
    (options : Lock.Options) (w : Sys.World) :
  let retries := default 60 (Lock.retries options) in
  let retryDelayMs := default 100 (Lock.retryDelayMs options) in
  is_Some (Sys.files w !! lockPath) \/ retries <= 0 ->
  Lock.withFileLock lockPath fn options w
  = (Err (newError "lock_timeout" "LOCK_TIMEOUT"),
     polled lockPath retryDelayMs (Z.to_nat retries) w)
  /\ Sys.files (polled lockPath retryDelayMs (Z.to_nat retries) w) = Sys.files w
  /\ Sys.trace (polled lockPath retryDelayMs (Z.to_nat retries) w)
     = Sys.trace w
       ++ concat (replicate (Z.to_nat retries) [Sys.EOpenWx lockPath; Sys.ESleep retryDelayMs]).
Proof.
  intros retries retryDelayMs Hcase.
  split; [|split; [apply files_polled|apply trace_polled]].
  unfold Lock.withFileLock. fold retries retryDelayMs. unfold bind.
  destruct Hcase as [Hbusy|Hzero].
  - now rewrite (acquire_busy lockPath retryDelayMs (Z.to_nat retries) w Hbusy).
  - replace (Z.to_nat retries) with 0%nat by lia. reflexivity.
Qed.

(** The witness of X11: a critical section that throws, on an empty
    machine with two attempts allowed. *)
Lemma withFileLock_releases_witness :
  let options := {| Lock.retries := Some 2; Lock.retryDelayMs := None |} in
  Lock.withFileLock "/srv/app/lock" (throw (A := unit) denied) options Reference.fresh
  = (Err denied, released "/srv/app/lock" (locked "/srv/app/lock" Reference.fresh))
  /\ Sys.files (released "/srv/app/lock" (locked "/srv/app/lock" Reference.fresh))
     !! "/srv/app/lock" = None.
Proof.
  intros options.
  destruct (withFileLock_releases "/srv/app/lock" (throw (A := unit) denied) options
              Reference.fresh (locked "/srv/app/lock" Reference.fresh) (Err denied))
    as (Hrun & _ & Hgone & _).
  - cbn. lia.
  - reflexivity.
  - reflexivity.
  - discriminate.
  - split; [exact Hrun|exact Hgone].
Defined.

(** The witness of X12: the lock is free, and no attempt is allowed. *)
Lemma withFileLock_gives_up_witness :
  Lock.withFileLock "/srv/app/lock" (ret tt)
    {| Lock.retries := Some 0; Lock.retryDelayMs := None |} Reference.fresh
  = (Err (newError "lock_timeout" "LOCK_TIMEOUT"), Reference.fresh).
Proof.
  destruct (withFileLock_gives_up "/srv/app/lock" (ret tt)
              {| Lock.retries := Some 0; Lock.retryDelayMs := None |} Reference.fresh)
    as (Hrun & _).
  - right. cbn. lia.
  - exact Hrun.
Defined.

(** ** Retry, the giving up *)

Section RetryLimits.
Context {S A : Type} `{Timer S} `{Runtime}.
Variable COS_RETRY_COUNT : Z.

Lemma retryLoop_exhausted (task : M S A) (retries baseDelay : Z) (e : Thrown) (wE : S)
    (i : Z) (n : nat) (w wN : S) :
  failing task baseDelay i n w wN ->
  forall (turns : nat) (lastError : Thrown),
    i + Z.of_nat n = retries ->
    Z.of_nat turns = retries + 1 - i ->
    task wN = (Err e, wE) ->
    Storage.retryLoop task retries baseDelay turns i lastError w = (Err e, wE).
Proof.
  induction 1 as [i w|i n w e' w1 wN Htask Hretry _ IH]; intros turns lastError Hsum Hturns Herr.
  - destruct turns as [|turns]; [lia|]. cbn [Storage.retryLoop]. unfold tryCatch.
    rewrite Herr. replace (retries <=? i) with true by (symmetry; apply Z.leb_le; lia).
    reflexivity.
  - destruct turns as [|turns]; [lia|]. cbn [Storage.retryLoop]. unfold tryCatch.
    rewrite Htask, Hretry. cbn [negb].
    replace (retries <=? i) with false by (symmetry; apply Z.leb_gt; lia).
    cbn [orb]. unfold bind, sleep. apply IH; [lia|lia|exact Herr].
Qed.

(** X13: when the first [retries] invocations of the task throw retryable
    errors and the next one throws as well, retryable or not, [withRetry]
    rethrows that last error at once: it has made [retries + 1] invocations
    and [retries] sleeps, none after the last failure. *)
Theorem withRetry_gives_up (task : M S A) (options : Storage.RetryOptions)
    (w wN wE : S) (e : Thrown) :
  let retries := default COS_RETRY_COUNT (Storage.retries options) in
  let baseDelay := default 250 (Storage.baseDelayMs options) in
  0 <= retries ->
  failing task baseDelay 0 (Z.to_nat retries) w wN ->
  task wN = (Err e, wE) ->
  Storage.withRetry COS_RETRY_COUNT task options w = (Err e, wE).
Proof.
  intros retries baseDelay Hpos Hfail Herr. unfold Storage.withRetry. fold retries baseDelay.
  eapply retryLoop_exhausted; eauto; lia.
Qed.

(** X14: with a negative number of retries [withRetry] never invokes the
    task: it throws [null], the initial value of [lastError], and leaves
    the world as it was. *)
Theorem withRetry_negative_retries (task : M S A) (options : Storage.RetryOptions) (w : S) :
  default COS_RETRY_COUNT (Storage.retries options) < 0 ->
  Storage.withRetry COS_RETRY_COUNT task options w = (Err ThrownNull, w).
Proof.
  intros Hneg. unfold Storage.withRetry.
  replace (Z.to_nat (default COS_RETRY_COUNT (Storage.retries options) + 1)) with 0%nat by lia.
  reflexivity.
Qed.

End RetryLimits.

Section RetryLimitsAtWork.
Local Existing Instance Reference.runtime.

(** The witness of X13: a put that meets a transient fault at each of its
    two attempts, with one retry allowed. *)
Lemma withRetry_gives_up_witness :
  let put := Storage.putObject client "100/config.json" "{}" in
  exists wE,
    Storage.withRetry 3 put {| Storage.retries := Some 1; Storage.baseDelayMs := None |}
      (Sys.setFaults [Some unavailable; Some reset] Reference.fresh) = (Err reset, wE)
    /\ Sys.trace wE
       = [Sys.EPutObject "pulzz-1250000000" "ap-guangzhou" "100/config.json" "{}";
          Sys.ESleep 250;
          Sys.EPutObject "pulzz-1250000000" "ap-guangzhou" "100/config.json" "{}"].
Proof.
  intros put. eexists. split.
  - eapply (withRetry_gives_up 3 put {| Storage.retries := Some 1; Storage.baseDelayMs := None |}).
    + cbn. lia.
    + eapply failing_more; [reflexivity|reflexivity|]. apply failing_none.
    + reflexivity.
  - reflexivity.
Defined.

(** The witness of X14: a put with [retries: -1]. *)
Lemma withRetry_negative_retries_witness :
  Storage.withRetry 3 (Storage.putObject client "100/config.json" "{}")
    {| Storage.retries := Some (-1); Storage.baseDelayMs := None |} Reference.fresh
  = (Err ThrownNull, Reference.fresh).
Proof.
  apply (withRetry_negative_retries 3). cbn. lia.
Defined.

End RetryLimitsAtWork.

(** ** Trees of files *)

Lemma append_cons (c : ascii) (a s : string) : String c a +:+ s = String c (a +:+ s).
Proof. reflexivity. Qed.

Lemma substring_all (s : string) : String.substring 0 (String.length s) s = s.
Proof. induction s as [|c s IH]; [reflexivity|]. cbn. now rewrite IH. Qed.

Lemma prefix_decompose (a p : string) :
  String.prefix a p = true ->
  p = a +:+ String.substring (String.length a) (String.length p - String.length a) p.
Proof.
  revert p. induction a as [|c a IH]; intros p Hp.
  - cbn. rewrite Nat.sub_0_r. symmetry. apply substring_all.
  - destruct p as [|d p]; [discriminate|]. cbn in Hp.
    destruct (ascii_dec c d) as [->|]; [|discriminate].
    rewrite append_cons. cbn [String.length String.substring Nat.sub].
    f_equal. now apply IH.
Qed.

Lemma append_snoc (a : string) (c : ascii) (s : string) :
  (a +:+ String c EmptyString) +:+ s = a +:+ String c s.
Proof. induction a as [|d a IH]; [reflexivity|]. rewrite !append_cons. now rewrite IH. Qed.

(** A path inside the tree at [root] is [root/] followed by its relative
    path. *)
Lemma under_decompose (root p : string) :
  Sys.under root p = true -> p = root +:+ String Str.slash (Sys.relativeTo root p).
Proof.
  unfold Sys.under, Str.startsWith, Sys.relativeTo. intros Hp.
  apply prefix_decompose in Hp. rewrite append_length in Hp. cbn [String.length] in Hp.
  rewrite Nat.add_1_r in Hp. rewrite Hp at 1. apply append_snoc.
Qed.

Lemma under_append (root rel : string) :
  Sys.under root (root +:+ String Str.slash rel) = true.
Proof.
  unfold Sys.under, Str.startsWith. induction root as [|c root IH].
  - cbn. destruct (ascii_dec Str.slash Str.slash); [|contradiction]. now destruct rel.
  - rewrite !append_cons. cbn [String.prefix].
    destruct (ascii_dec c c); [exact IH|contradiction].
Qed.

Lemma append_inv_head (a s t : string) : a +:+ s = a +:+ t -> s = t.
Proof.
  induction a as [|c a IH]; [auto|].
  rewrite !append_cons. intros [= Heq]. now apply IH.
Qed.

Lemma rmTree_run p w :
  exists w',
    Sys.rmTree p w = (Ok tt, w')
    /\ Sys.trace w' = Sys.trace w ++ [Sys.ERmTree p]
    /\ Sys.bucket w' = Sys.bucket w
    /\ Sys.temps w' = Sys.temps w
    /\ (forall q, Sys.under p q = true -> Sys.files w' !! q = None)
    /\ Sys.files w' !! p = None
    /\ (forall q, Sys.under p q = false -> q <> p -> Sys.files w' !! q = Sys.files w !! q).
Proof.
  eexists. split; [reflexivity|]. cbn [Sys.trace Sys.bucket Sys.temps Sys.files Sys.log Sys.setFiles].
  split; [reflexivity|]. split; [reflexivity|]. split; [reflexivity|]. split; [|split].
  - intros q Hq. apply map_lookup_filter_None. right. intros c _ HP.
    cbn [fst] in HP. rewrite Hq in HP. discriminate.
  - apply map_lookup_filter_None. right. intros c _ HP.
    cbn [fst] in HP. rewrite String.eqb_refl, andb_false_r in HP. discriminate.
  - intros q Hq Hne. destruct (Sys.files w !! q) as [c|] eqn:Hc.
    + apply map_lookup_filter_Some. split; [exact Hc|]. cbn [fst]. rewrite Hq.
      now replace (String.eqb q p) with false by (symmetry; now apply String.eqb_neq).
    + apply map_lookup_filter_None. now left.
Qed.

(** The files [cpTree] copies, each with the path it lands at. *)
Lemma copied_NoDup (src dst : string) (m : gmap string string) :
  NoDup (List.map (fun kv : string * string =>
                     (dst +:+ String Str.slash (Sys.relativeTo src kv.1), kv.2))
                  (List.filter (fun kv : string * string => Sys.under src kv.1)
                               (map_to_list m))).*1.
Proof.
  rewrite <- list_fmap_compose. apply NoDup_fmap_2_strong.
  - intros [k v] [k' v'] Hin Hin' Heq. cbn [fst snd compose] in Heq.
    apply list_elem_of_In, filter_In in Hin as [Hin Hu].
    apply list_elem_of_In, filter_In in Hin' as [Hin' Hu'].
    apply list_elem_of_In, elem_of_map_to_list in Hin.
    apply list_elem_of_In, elem_of_map_to_list in Hin'. cbn [fst] in Hu, Hu'.
    apply append_inv_head in Heq. injection Heq as Heq.
    assert (k = k').
    { etransitivity; [exact (under_decompose src k Hu)|]. rewrite Heq. symmetry.
      exact (under_decompose src k' Hu'). }
    subst k'. f_equal. congruence.
  - apply NoDup_ListNoDup, List.NoDup_filter, NoDup_ListNoDup, NoDup_map_to_list.
Qed.

Lemma cpTree_run src dst w :
  exists w',
    Sys.cpTree src dst w = (Ok tt, w')
    /\ Sys.trace w' = Sys.trace w ++ [Sys.ECopyTree src dst]
    /\ Sys.bucket w' = Sys.bucket w
    /\ Sys.temps w' = Sys.temps w
    /\ (forall p c, Sys.under src p = true -> Sys.files w !! p = Some c ->
                    Sys.files w' !! (dst +:+ String Str.slash (Sys.relativeTo src p)) = Some c)
    /\ (forall q, is_Some (Sys.files w' !! q) ->
                  is_Some (Sys.files w !! q)
                  \/ exists p, Sys.under src p = true /\ is_Some (Sys.files w !! p)
                               /\ q = dst +:+ String Str.slash (Sys.relativeTo src p))
    /\ (forall q, (forall p, Sys.under src p = true -> is_Some (Sys.files w !! p) ->
                             q <> dst +:+ String Str.slash (Sys.relativeTo src p)) ->
                  Sys.files w' !! q = Sys.files w !! q).
Proof.
  eexists. split; [reflexivity|]. cbn [Sys.trace Sys.bucket Sys.temps Sys.files Sys.log Sys.setFiles].
  split; [reflexivity|]. split; [reflexivity|]. split; [reflexivity|]. split; [|split].
  - intros p c Hp Hc. apply lookup_union_Some_l.
    apply elem_of_list_to_map_1; [apply copied_NoDup|].
    apply list_elem_of_In, in_map_iff. exists (p, c). split; [reflexivity|].
    apply filter_In. split; [|exact Hp]. now apply list_elem_of_In, elem_of_map_to_list.
  - intros q [c Hq]. apply lookup_union_Some_raw in Hq as [Hq|[_ Hq]]; [|left; eauto].
    right. apply elem_of_list_to_map_2 in Hq.
    apply list_elem_of_In, in_map_iff in Hq as ([p c'] & [= <- <-] & Hin).
    apply filter_In in Hin as [Hin Hu]. apply list_elem_of_In, elem_of_map_to_list in Hin.
    exists p. cbn [fst snd] in *. eauto.
  - intros q Hfresh. apply lookup_union_r. apply not_elem_of_list_to_map_1.
    intros Hin. apply list_elem_of_fmap in Hin as ([q' c] & -> & Hin).
    apply list_elem_of_In, in_map_iff in Hin as ([p c'] & [= <- <-] & Hin).
    apply filter_In in Hin as [Hin Hu]. apply list_elem_of_In, elem_of_map_to_list in Hin.
    cbn [fst snd] in *. now apply (Hfresh p Hu ltac:(eauto)).
Qed.

(** ** The sync without the bucket *)

Section SyncDispatch.
Context `{Runtime}.
Variable COS_RETRY_COUNT : Z.
Variable legacyPrefixRoot : string.

Lemma createCosClient_missing (name : string) (w : Sys.World) :
  name ∈ ["TENCENT_SECRET_ID"; "TENCENT_SECRET_KEY"; "TENCENT_COS_BUCKET"; "TENCENT_COS_REGION"] ->
  Str.truthy (default "" (env !! name)) = false ->
  Storage.createCosClient w = (Err (newError "cos_config_missing" "COS_CONFIG_MISSING"), w).
Proof.
  intros Hname Hmissing. unfold Storage.createCosClient.
  repeat (apply elem_of_cons in Hname as [->|Hname]);
    [..|now apply elem_of_nil in Hname]; rewrite Hmissing; cbn [negb orb];
    rewrite ?orb_true_r; reflexivity.
Qed.


(** X16: with the [cos] driver and a mock root, the sync of a bundle that
    has a file and lies outside the version's tree under the mock root
    replaces that tree by a copy of the bundle: every file of the bundle is
    there at its relative path, every file below that tree is such a copy,
    and no file outside it changes; the bucket is not touched. *)
Theorem sync_mock_replaces_tree (fuel : nat) (platform version sourceDir mockRoot : string)
    (w : Sys.World) :
  toLowerCase (Paths.envOr "STORAGE_DRIVER" "local") = "cos" ->
  env !! "PULZZ_COS_MOCK_ROOT" = Some mockRoot ->
  Str.truthy mockRoot = true ->
  let legacyRoot := path_join [mockRoot; legacyPrefixRoot; version] in
  (exists p, Sys.under sourceDir p = true /\ is_Some (Sys.files w !! p)) ->
  (forall p, Sys.under sourceDir p = true ->
             Sys.under legacyRoot p = false /\ p <> legacyRoot) ->
  exists w',
    Storage.syncUploadedVersion COS_RETRY_COUNT legacyPrefixRoot fuel platform version
      sourceDir w = (Ok tt, w')
    /\ Sys.trace w'
       = Sys.trace w ++ [Sys.ERmTree legacyRoot; Sys.EMkdir (path_dirname legacyRoot);
                         Sys.ECopyTree sourceDir legacyRoot]
    /\ Sys.bucket w' = Sys.bucket w
    /\ (forall p c, Sys.under sourceDir p = true -> Sys.files w !! p = Some c ->
                    Sys.files w' !! (legacyRoot +:+ String Str.slash (Sys.relativeTo sourceDir p))
                    = Some c)
    /\ (forall q, Sys.under legacyRoot q = true -> is_Some (Sys.files w' !! q) ->
                  exists p, Sys.under sourceDir p = true /\ is_Some (Sys.files w !! p)
                            /\ q = legacyRoot +:+ String Str.slash (Sys.relativeTo sourceDir p))
    /\ (forall q, Sys.under legacyRoot q = false -> q <> legacyRoot ->
                  Sys.files w' !! q = Sys.files w !! q).
Proof.
  intros Hdriver Hmock Htruthy legacyRoot _ Hout.
  destruct (rmTree_run legacyRoot w) as (w1 & Hrm & Htr1 & Hb1 & _ & Hgone & _ & Hkept).
  set (w2 := Sys.log (Sys.EMkdir (path_dirname legacyRoot)) w1).
  destruct (cpTree_run sourceDir legacyRoot w2) as (w3 & Hcp & Htr3 & Hb3 & _ & Hcopied & Hfrom & Hrest).
  exists w3. split; [|split; [|split; [|split; [|split]]]].
  - assert (Hroot : default "" (env !! "PULZZ_COS_MOCK_ROOT") = mockRoot) by now rewrite Hmock.
    unfold Storage.syncUploadedVersion. rewrite Hdriver, Hroot, Htruthy.
    cbn [String.eqb Ascii.eqb Bool.eqb negb].
    unfold Storage.syncToCosMock. rewrite Hroot, Htruthy. cbn [negb].
    fold legacyRoot. unfold bind at 1. rewrite Hrm. unfold bind at 1, Sys.mkdir at 1.
    exact Hcp.
  - rewrite Htr3. unfold w2. cbn [Sys.trace Sys.log]. rewrite Htr1.
    now rewrite <- !app_assoc.
  - rewrite Hb3. unfold w2. cbn [Sys.bucket Sys.log]. exact Hb1.
  - intros p c Hp Hc. apply Hcopied; [exact Hp|]. unfold w2. cbn [Sys.files Sys.log].
    destruct (Hout p Hp) as [Hu Hne]. now rewrite Hkept.
  - intros q Hq Hsome. destruct (Hfrom q Hsome) as [[c Hc]|(p & Hp & Hpc & ->)].
    + unfold w2 in Hc. cbn [Sys.files Sys.log] in Hc. rewrite (Hgone q Hq) in Hc. discriminate.
    + exists p. split; [exact Hp|]. split; [|reflexivity]. unfold w2 in Hpc.
      cbn [Sys.files Sys.log] in Hpc. destruct (Hout p Hp) as [Hu Hne].
      now rewrite Hkept in Hpc.
  - intros q Hq Hne. rewrite Hrest.
    + unfold w2. cbn [Sys.files Sys.log]. now apply Hkept.
    + intros p _ _ ->. now rewrite under_append in Hq.
Qed.

End SyncDispatch.

(** ** The listing *)

Lemma elem_of_dirents (root : string) (fs : gmap string string) (name : string) (d : bool) :
  (name, d) ∈ Sys.dirents root fs <->
  exists p rest,
    is_Some (fs !! p) /\ Sys.under root p = true
    /\ Str.split Str.slash (Sys.relativeTo root p) = name :: rest
    /\ d = negb (bool_decide (rest = [])).
Proof.
  unfold Sys.dirents.
  set (step := fun (acc : list (string * bool)) (p : string) =>
                 match Str.split Str.slash (Sys.relativeTo root p) with
                 | [] => acc
                 | [n] => setAdd (n, false) acc
                 | n :: _ => setAdd (n, true) acc
                 end).
  assert (Hfold : forall l acc,
             (name, d) ∈ fold_left step l acc <->
             (name, d) ∈ acc
             \/ exists p rest, p ∈ l
                  /\ Str.split Str.slash (Sys.relativeTo root p) = name :: rest
                  /\ d = negb (bool_decide (rest = []))).
  { induction l as [|p l IH]; intros acc; cbn [fold_left].
    - split; [auto|]. intros [?|(p & rest & Hp & _)]; [assumption|].
      now apply elem_of_nil in Hp.
    - rewrite IH. split.
      + intros [Hin|(q & rest & Hq & Hs & Hd)].
        * unfold step in Hin.
          destruct (Str.split Str.slash (Sys.relativeTo root p)) as [|n [|n' r]] eqn:Hs.
          -- now left.
          -- apply elem_of_setAdd in Hin as [[= -> ->]|Hin]; [|now left].
             right. exists p, []. split; [left|]. auto.
          -- apply elem_of_setAdd in Hin as [[= -> ->]|Hin]; [|now left].
             right. exists p, (n' :: r). split; [left|]. auto.
        * right. exists q, rest. split; [now right|]. auto.
      + intros [Hin|(q & rest & Hq & Hs & Hd)].
        * left. unfold step.
          destruct (Str.split Str.slash (Sys.relativeTo root p)) as [|n [|n' r]];
            [assumption|apply elem_of_setAdd; now right..].
        * apply elem_of_cons in Hq as [->|Hq].
          -- left. unfold step. rewrite Hs. subst d.
             destruct rest as [|n' r]; apply elem_of_setAdd; now left.
          -- right. exists q, rest. auto. }
  rewrite Hfold. split.
  - intros [Hin|(p & rest & Hp & Hs & Hd)]; [now apply elem_of_nil in Hin|].
    exists p, rest. apply list_elem_of_In, filter_In in Hp as [Hp Hu].
    apply list_elem_of_In, list_elem_of_fmap in Hp as ([k v] & -> & Hkv).
    apply elem_of_map_to_list in Hkv. cbn [fst] in *. eauto 6.
  - intros (p & rest & [v Hv] & Hu & Hs & Hd). right. exists p, rest.
    split; [|auto]. apply list_elem_of_In, filter_In. split; [|exact Hu].
    apply list_elem_of_In, list_elem_of_fmap. exists (p, v). split; [reflexivity|].
    now apply elem_of_map_to_list.
Qed.

Section ListingByDirectory.
Context `{Runtime}.
Variable COS_RETRY_COUNT : Z.
Variable legacyPrefixRoot : string.

(** [sort] returns the elements it was given. *)
Hypothesis sort_permutes : forall l, sortDescending l ≡ₚ l.

Lemma listVersionsByFsRoot_run (rootDir : string) (w : Sys.World) :
  exists versions,
    Storage.listVersionsByFsRoot rootDir w = (Ok versions, Sys.log (Sys.EReaddir rootDir) w)
    /\ forall v, v ∈ versions <->
                 Str.isNumeric v = true /\ (v, true) ∈ Sys.dirents rootDir (Sys.files w).
Proof.
  unfold Storage.listVersionsByFsRoot, tryCatch, bind, Sys.readdir.
  destruct (Sys.dirents rootDir (Sys.files w)) as [|e es] eqn:Hd.
  - exists []. split; [reflexivity|]. intros v. split.
    + intros Hv. now apply elem_of_nil in Hv.
    + intros [_ Hv]. now apply elem_of_nil in Hv.
  - rewrite <- Hd. eexists. split; [reflexivity|]. intros v.
    rewrite sort_permutes. rewrite list_elem_of_fmap. split.
    + intros ([n d] & -> & Hin). apply list_elem_of_In, filter_In in Hin as [Hin Hok].
      cbn [fst snd] in *. apply andb_prop in Hok as [-> Hnum].
      split; [exact Hnum|]. now apply list_elem_of_In.
    + intros [Hnum Hin]. exists (v, true). split; [reflexivity|].
      apply list_elem_of_In, filter_In. split; [now apply list_elem_of_In|].
      cbn [fst snd]. now rewrite Hnum.
Qed.

(** X17: without the bucket, that is with another driver than [cos] or
    with a mock root, [listAvailableVersions] never throws: it reads one
    directory and returns the names made of digits of the directories
    directly below it, and the empty list when the directory does not
    exist. *)
Theorem listAvailableVersions_by_directory (fuel : nat) (platform : string) (w : Sys.World) :
  let cos := String.eqb (toLowerCase (Paths.envOr "STORAGE_DRIVER" "local")) "cos" in
  let mockRoot := default "" (env !! "PULZZ_COS_MOCK_ROOT") in
  let cdnRoot := default "" (env !! "PULZZ_CDN_ROOT") in
  let root :=
    if cos then path_join [mockRoot; legacyPrefixRoot]
    else if Str.truthy cdnRoot then path_join [cdnRoot; legacyPrefixRoot]
         else path_join ["/opt/pulzz-hotupdate"; "cdn"; legacyPrefixRoot] in
  cos = false \/ Str.truthy mockRoot = true ->
  exists versions,
    Storage.listAvailableVersions COS_RETRY_COUNT legacyPrefixRoot fuel platform w
    = (Ok versions, Sys.log (Sys.EReaddir root) w)
    /\ (forall v, v ∈ versions <->
                  Str.isNumeric v = true
                  /\ exists p rest,
                       is_Some (Sys.files w !! p) /\ Sys.under root p = true
                       /\ Str.split Str.slash (Sys.relativeTo root p) = v :: rest
                       /\ rest <> [])
    /\ ((forall p, is_Some (Sys.files w !! p) -> Sys.under root p = false) -> versions = []).
Proof.
  intros cos mockRoot cdnRoot root Hcase.
  destruct (listVersionsByFsRoot_run root w) as (versions & Hrun & Hin).
  assert (Hin' : forall v, v ∈ versions <->
                   Str.isNumeric v = true
                   /\ exists p rest,
                        is_Some (Sys.files w !! p) /\ Sys.under root p = true
                        /\ Str.split Str.slash (Sys.relativeTo root p) = v :: rest
                        /\ rest <> []).
  { intros v. rewrite Hin, elem_of_dirents. split.
    - intros (Hnum & p & rest & Hp & Hu & Hs & Hd). split; [exact Hnum|].
      exists p, rest. repeat split; try assumption. intros ->.
      now rewrite bool_decide_eq_true_2 in Hd.
    - intros (Hnum & p & rest & Hp & Hu & Hs & Hne). split; [exact Hnum|].
      exists p, rest. repeat split; try assumption.
      now rewrite bool_decide_eq_false_2. }
  exists versions. split; [|split; [exact Hin'|]].
  - unfold Storage.listAvailableVersions. fold cos mockRoot cdnRoot.
    unfold root in Hrun. destruct cos.
    + destruct Hcase as [|Hmock]; [discriminate|]. now rewrite Hmock.
    + exact Hrun.
  - intros Hnone. destruct versions as [|v vs]; [reflexivity|].
    destruct (proj1 (Hin' v) ltac:(left)) as (_ & p & rest & Hp & Hu & _).
    rewrite (Hnone p Hp) in Hu. discriminate.
Qed.

End ListingByDirectory.

(** ** The listing of the bucket *)

Lemma elem_of_discover (pfx : string) (keys discovered : list string) (v : string) :
  v ∈ Storage.discover pfx keys discovered <->
  v ∈ discovered
  \/ (Str.isNumeric v = true /\ exists key, key ∈ keys /\ versionOfKey pfx key = v).
Proof.
  unfold Storage.discover. revert discovered.
  induction keys as [|key keys IH]; intros discovered; cbn [fold_left].
  - split; [auto|]. intros [?|(_ & key & Hk & _)]; [assumption|now apply elem_of_nil in Hk].
  - rewrite IH. fold (versionOfKey pfx key). split.
    + intros [Hin|(Hnum & k & Hk & Hv)].
      * destruct (Str.isNumeric (versionOfKey pfx key)) eqn:Hn; [|now left].
        apply elem_of_setAdd in Hin as [->|Hin]; [|now left].
        right. split; [exact Hn|]. exists key. split; [left|reflexivity].
      * right. split; [exact Hnum|]. exists k. split; [now right|exact Hv].
    + intros [Hin|(Hnum & k & Hk & Hv)].
      * left. destruct (Str.isNumeric (versionOfKey pfx key)); [|exact Hin].
        apply elem_of_setAdd. now right.
      * apply elem_of_cons in Hk as [->|Hk].
        -- left. rewrite Hv, Hnum. apply elem_of_setAdd. now left.
        -- right. split; [exact Hnum|]. exists k. auto.
Qed.

Lemma discover_app (pfx : string) (keys more discovered : list string) :
  Storage.discover pfx (keys ++ more) discovered
  = Storage.discover pfx more (Storage.discover pfx keys discovered).
Proof. unfold Storage.discover. apply fold_left_app. Qed.

(** The scan makes the requests of the key listing, and reads the versions
    off the keys it returns. *)
Lemma scanLoop_listLoop {R : Runtime} (COS_RETRY_COUNT : Z) (c : Storage.Client)
    (pfx : string) (fuel : nat) :
  forall marker all discovered w keys w',
    Storage.listLoop COS_RETRY_COUNT fuel c pfx marker all w = (Ok keys, w') ->
    exists more,
      keys = all ++ more
      /\ Storage.scanLoop COS_RETRY_COUNT fuel c pfx marker discovered w
         = (Ok (Storage.discover pfx more discovered), w').
Proof.
  induction fuel as [|fuel IH]; intros marker all discovered w keys w' Hrun; [discriminate|].
  cbn [Storage.listLoop Storage.scanLoop] in *. unfold bind at 1 in Hrun. unfold bind at 1.
  destruct (Storage.withRetry COS_RETRY_COUNT (Storage.getBucket c pfx marker 1000)
              Storage.noOptions w) as [[page|e|] w1]; try discriminate.
  destruct (negb (Storage.IsTruncated page)
            || (length (List.filter Str.truthy (Storage.Contents page)) =? 0)%nat).
  - injection Hrun as <- <-. eauto.
  - destruct (IH _ _ (Storage.discover pfx (List.filter Str.truthy (Storage.Contents page))
                        discovered) _ _ _ Hrun) as (more & -> & Hscan).
    eexists. split; [symmetry; apply app_assoc|]. now rewrite discover_app.
Qed.

Lemma createCosClient_anywhere {R : Runtime} (c : Storage.Client) (w w1 : Sys.World) :
  Storage.createCosClient w = (Ok c, w) -> Storage.createCosClient w1 = (Ok c, w1).
Proof.
  unfold Storage.createCosClient. destruct (_ || _); [discriminate|].
  unfold ret. now intros [= <-].
Qed.

Section ListingByBucket.
Context `{Runtime}.
Variable COS_RETRY_COUNT : Z.
Variable legacyPrefixRoot : string.

Hypothesis sort_permutes : forall l, sortDescending l ≡ₚ l.
Hypothesis retries_nonneg : 0 <= COS_RETRY_COUNT.

Lemma listVersionsFromCos_run (fuel : nat) (platform : string) (w : Sys.World)
    (c : Storage.Client) :
  Storage.createCosClient w = (Ok c, w) ->
  Sys.faults w = [] ->
  (length (Storage.keysUnder (Sys.bucket w) (legacyPrefixRoot +:+ "/")) < 1000 * fuel)%nat ->
  exists versions lists,
    Storage.listVersionsFromCos COS_RETRY_COUNT legacyPrefixRoot fuel platform w
    = (Ok versions, requested lists (Sys.bucket w) w)
    /\ Forall (isListing c (legacyPrefixRoot +:+ "/")) lists
    /\ forall v, v ∈ versions <->
                 Str.isNumeric v = true
                 /\ exists key, is_Some (Sys.bucket w !! key)
                                /\ Str.startsWith key (legacyPrefixRoot +:+ "/") = true
                                /\ versionOfKey (legacyPrefixRoot +:+ "/") key = v.
Proof.
  intros Hclient Hfaults Hfuel. set (pfx := legacyPrefixRoot +:+ "/") in *.
  assert (Hpfx : pfx <> EmptyString).
  { unfold pfx. destruct legacyPrefixRoot; discriminate. }
  destruct (listLoop_run COS_RETRY_COUNT retries_nonneg c pfx fuel Hpfx w "" []
              (Storage.keysUnder (Sys.bucket w) pfx) Hfaults eq_refl eq_refl Hfuel)
    as (lists & Hlist & Hlists).
  destruct (scanLoop_listLoop COS_RETRY_COUNT c pfx fuel "" [] [] w _ _ Hlist)
    as (more & Hmore & Hscan).
  cbn [app] in Hmore. subst more.
  eexists _, lists. split; [|split; [exact Hlists|]].
  - unfold Storage.listVersionsFromCos. unfold bind at 1. rewrite Hclient.
    fold pfx. unfold bind. rewrite Hscan. reflexivity.
  - intros v. rewrite sort_permutes, elem_of_discover. split.
    + intros [Hin|(Hnum & key & Hkey & Hv)]; [now apply elem_of_nil in Hin|].
      split; [exact Hnum|]. exists key. apply elem_of_keysUnder in Hkey as [Hb Hp]. auto.
    + intros (Hnum & key & Hb & Hp & Hv). right. split; [exact Hnum|]. exists key.
      split; [|exact Hv]. now apply elem_of_keysUnder.
Qed.

(** X18: with the [cos] driver, no mock root and a reliable network,
    [listAvailableVersions] makes listing requests for the prefix
    [root/] only and returns exactly the strings of digits that are the
    first segment after that prefix of some key of the bucket. *)
Theorem listAvailableVersions_by_bucket (fuel : nat) (platform : string) (w : Sys.World)
    (c : Storage.Client) :
  toLowerCase (Paths.envOr "STORAGE_DRIVER" "local") = "cos" ->
  default "" (env !! "PULZZ_COS_MOCK_ROOT") = "" ->
  Storage.createCosClient w = (Ok c, w) ->
  Sys.faults w = [] ->
  let pfx := legacyPrefixRoot +:+ "/" in
  (length (Storage.keysUnder (Sys.bucket w) pfx) < 1000 * fuel)%nat ->
  exists versions lists,
    Storage.listAvailableVersions COS_RETRY_COUNT legacyPrefixRoot fuel platform w
    = (Ok versions, requested lists (Sys.bucket w) w)
    /\ Forall (isListing c pfx) lists
    /\ forall v, v ∈ versions <->
                 Str.isNumeric v = true
                 /\ exists key, is_Some (Sys.bucket w !! key)
                                /\ Str.startsWith key pfx = true
                                /\ versionOfKey pfx key = v.
Proof.
  intros Hdriver Hmock Hclient Hfaults pfx Hfuel.
  destruct (listVersionsFromCos_run fuel platform w c Hclient Hfaults Hfuel)
    as (versions & lists & Hrun & Hlists & Hin).
  exists versions, lists. split; [|split; assumption].
  unfold Storage.listAvailableVersions. rewrite Hdriver, Hmock. exact Hrun.
Qed.

End ListingByBucket.

(** ** An upload is listed *)

Lemma append_assoc (a b c : string) : (a +:+ b) +:+ c = a +:+ (b +:+ c).
Proof. induction a as [|d a IH]; [reflexivity|]. rewrite !append_cons. now rewrite IH. Qed.

Lemma slice_append (a s : string) : Str.slice (String.length a) (a +:+ s) = s.
Proof. induction a as [|d a IH]; [now destruct s|]. rewrite append_cons. exact IH. Qed.

Lemma isDigit_not_slash (c : ascii) : Str.isDigit c = true -> Ascii.eqb c Str.slash = false.
Proof.
  intros Hc. apply Ascii.eqb_neq. intros ->. discriminate.
Qed.

(** A string of digits followed by a slash is the first segment. *)
Lemma split_digits (v rest : string) :
  Str.allDigits v = true ->
  Str.split Str.slash (v +:+ String Str.slash rest) = v :: Str.split Str.slash rest.
Proof.
  induction v as [|c v IH]; intros Hv.
  - cbn [Str.split String.append]. change ("" +:+ ?s) with s. cbn [Str.split].
    now rewrite Ascii.eqb_refl.
  - cbn [Str.allDigits] in Hv. apply andb_prop in Hv as [Hc Hv].
    rewrite append_cons. cbn [Str.split]. rewrite (isDigit_not_slash c Hc).
    now rewrite (IH Hv).
Qed.

Lemma key_below_root (root version rel : string) :
  (root +:+ "/" +:+ version +:+ "/") +:+ rel
  = (root +:+ "/") +:+ (version +:+ String Str.slash rel).
Proof. rewrite !append_assoc. reflexivity. Qed.

Lemma versionOfKey_mirrored (root version rel : string) :
  Str.isNumeric version = true ->
  versionOfKey (root +:+ "/") ((root +:+ "/" +:+ version +:+ "/") +:+ rel) = version.
Proof.
  intros Hnum. apply andb_prop in Hnum as [_ Hdigits]. unfold versionOfKey.
  rewrite key_below_root, slice_append. now rewrite (split_digits version rel Hdigits).
Qed.

Lemma mirrored_holds (pfx sourceDir : string) (local : gmap string string)
    (files : list string) (b : gmap string string) (file : string) :
  file ∈ files -> is_Some (mirrored pfx sourceDir local files b !! keyOf pfx sourceDir file).
Proof.
  unfold mirrored. revert b. induction files as [|f files IH]; intros b Hin.
  - now apply elem_of_nil in Hin.
  - cbn [fold_left]. apply elem_of_cons in Hin as [->|Hin]; [|now apply IH].
    clear IH. generalize (default "" (local !! f)). intros body.
    assert (Hkeep : forall l (b0 : gmap string string) k,
               is_Some (b0 !! k) ->
               is_Some (fold_left (fun b1 file0 =>
                                     <[keyOf pfx sourceDir file0 := default "" (local !! file0)]> b1)
                                  l b0 !! k)).
    { induction l as [|x l IHl]; intros b0 k Hk; [exact Hk|]. cbn [fold_left]. apply IHl.
      destruct (decide (keyOf pfx sourceDir x = k)) as [->|Hne].
      - rewrite lookup_insert_eq. eauto.
      - now rewrite lookup_insert_ne. }
    apply Hkeep. rewrite lookup_insert_eq. eauto.
Qed.

Section UploadThenList.
Context `{Runtime}.
Variable COS_RETRY_COUNT : Z.
Variable legacyPrefixRoot : string.

Hypothesis sort_permutes : forall l, sortDescending l ≡ₚ l.
Hypothesis retries_nonneg : 0 <= COS_RETRY_COUNT.

(** [listFiles] on a directory that holds a file. *)
Lemma listFiles_run (rootDir file : string) (w : Sys.World) :
  file ∈ filesBelow rootDir (Sys.files w) ->
  Storage.listFiles rootDir w
  = (Ok (filesBelow rootDir (Sys.files w)), Sys.log (Sys.EReaddir rootDir) w).
Proof.
  intros Hfile. unfold Storage.listFiles. fold (filesBelow rootDir (Sys.files w)).
  destruct (filesBelow rootDir (Sys.files w)); [|reflexivity]. now apply elem_of_nil in Hfile.
Qed.

(** What the sync to the bucket leaves on a reliable network, for a bundle
    that holds a file. *)
Lemma syncToCosReal_run (fuel : nat) (platform version sourceDir file : string)
    (w : Sys.World) (c : Storage.Client) :
  Storage.createCosClient w = (Ok c, w) ->
  Sys.faults w = [] ->
  file ∈ filesBelow sourceDir (Sys.files w) ->
  let pfx := legacyPrefixRoot +:+ "/" +:+ version +:+ "/" in
  let stale := Storage.keysUnder (Sys.bucket w) pfx in
  let chunks := Storage.chunksOf 1000 (length stale) stale in
  let files := filesBelow sourceDir (Sys.files w) in
  let b' := mirrored pfx sourceDir (Sys.files w) files (purged chunks (Sys.bucket w)) in
  (length stale < 1000 * fuel)%nat ->
  exists evs,
    Storage.syncToCosReal COS_RETRY_COUNT legacyPrefixRoot fuel platform version sourceDir w
    = (Ok tt, requested evs b' w).
Proof.
  intros Hclient Hfaults Hfile pfx stale chunks files b' Hfuel.
  assert (Hpfx : pfx <> EmptyString).
  { unfold pfx. destruct legacyPrefixRoot; discriminate. }
  destruct (listLoop_run COS_RETRY_COUNT retries_nonneg c pfx fuel Hpfx w "" [] stale
              Hfaults eq_refl eq_refl Hfuel) as (lists & Hlist & _).
  eexists.
  unfold Storage.syncToCosReal. unfold bind at 1. rewrite Hclient.
  unfold Storage.versionPrefixes. fold pfx. cbn [Storage.forEach].
  unfold bind at 1. unfold bind at 1. unfold bind at 1.
  unfold Storage.listAllKeysByPrefix. rewrite Hlist.
  rewrite (deleteKeys_run COS_RETRY_COUNT retries_nonneg) by exact Hfaults.
  fold stale. fold chunks.
  rewrite requested_requested. cbn [Sys.bucket requested]. unfold ret at 1.
  unfold bind at 1. rewrite (listFiles_run sourceDir file) by exact Hfile.
  cbn [Sys.files requested].
  match goal with
  | |- context [Sys.log ?e (requested ?evs ?b w)] =>
      change (Sys.log e (requested evs b w)) with (requested [e] b (requested evs b w))
  end.
  rewrite requested_requested. fold files.
  unfold bind at 1.
  rewrite (upload_run COS_RETRY_COUNT retries_nonneg).
  - unfold ret. rewrite requested_requested. cbn [Sys.files Sys.bucket requested].
    fold b'. reflexivity.
  - exact Hfaults.
  - intros f Hf. cbn [Sys.files requested]. now apply filesBelow_present in Hf.
Qed.

(** X19: with the [cos] driver on a reliable network, once the bundle of a
    version named by digits, with at least one file, has been synced, the
    listing that follows contains that version. *)
Theorem uploaded_version_is_listed (fuel : nat) (platform version sourceDir file : string)
    (w : Sys.World) (c : Storage.Client) :
  toLowerCase (Paths.envOr "STORAGE_DRIVER" "local") = "cos" ->
  default "" (env !! "PULZZ_COS_MOCK_ROOT") = "" ->
  Storage.createCosClient w = (Ok c, w) ->
  Sys.faults w = [] ->
  Str.isNumeric version = true ->
  file ∈ filesBelow sourceDir (Sys.files w) ->
  let pfx := legacyPrefixRoot +:+ "/" +:+ version +:+ "/" in
  let stale := Storage.keysUnder (Sys.bucket w) pfx in
  let b' := mirrored pfx sourceDir (Sys.files w) (filesBelow sourceDir (Sys.files w))
              (purged (Storage.chunksOf 1000 (length stale) stale) (Sys.bucket w)) in
  (length stale < 1000 * fuel)%nat ->
  (length (Storage.keysUnder b' (legacyPrefixRoot +:+ "/")) < 1000 * fuel)%nat ->
  exists w1 versions w2,
    Storage.syncUploadedVersion COS_RETRY_COUNT legacyPrefixRoot fuel platform version
      sourceDir w = (Ok tt, w1)
    /\ Storage.listAvailableVersions COS_RETRY_COUNT legacyPrefixRoot fuel platform w1
       = (Ok versions, w2)
    /\ version ∈ versions.
Proof.
  intros Hdriver Hmock Hclient Hfaults Hnum Hfile pfx stale b' Hfuel Hfuel'.
  destruct (syncToCosReal_run fuel platform version sourceDir file w c Hclient Hfaults
              Hfile Hfuel) as (evs & Hsync).
  fold pfx stale b' in Hsync. set (w1 := requested evs b' w) in *.
  destruct (listVersionsFromCos_run COS_RETRY_COUNT legacyPrefixRoot sort_permutes
              retries_nonneg fuel platform w1 c)
    as (versions & lists & Hlist & _ & Hin).
  { now apply (createCosClient_anywhere c w). }
  { exact Hfaults. }
  { exact Hfuel'. }
  exists w1, versions, (requested lists (Sys.bucket w1) w1). split; [|split].
  - unfold Storage.syncUploadedVersion. rewrite Hdriver, Hmock. exact Hsync.
  - unfold Storage.listAvailableVersions. rewrite Hdriver, Hmock. exact Hlist.
  - apply Hin. split; [exact Hnum|]. exists (keyOf pfx sourceDir file). split; [|split].
    + cbn [Sys.bucket w1 requested]. now apply mirrored_holds.
    + unfold keyOf, pfx. rewrite key_below_root. apply startsWith_append.
    + unfold keyOf, pfx. now apply versionOfKey_mirrored.
Qed.

End UploadThenList.

(** ** The sort of the reference platform *)

Lemma reference_sort_permutes (l : list string) : sortDescending (Runtime := Reference.runtime) l ≡ₚ l.
Proof. apply merge_sort_Permutation. Qed.

Lemma platform_sort_permutes (e : gmap string string) (l : list string) :
  sortDescending (Runtime := platformWith e) l ≡ₚ l.
Proof. apply merge_sort_Permutation. Qed.

(** ** The coordinator, the other paths *)

Section CoordinatorSteps.
Context `{Runtime}.
Variable COS_RETRY_COUNT : Z.
Variable legacyPrefixRoot : string.

Local Abbreviation statePath := Paths.getStateFilePath.
Local Abbreviation listing :=
  (Storage.listAvailableVersions COS_RETRY_COUNT legacyPrefixRoot).
Local Abbreviation applyVersion := (Server.applyVersion COS_RETRY_COUNT legacyPrefixRoot).
Local Abbreviation applyLocked := (Server.applyLocked COS_RETRY_COUNT legacyPrefixRoot).

Lemma currentDoc_same w w' :
  Sys.files w' !! statePath = Sys.files w !! statePath -> currentDoc w' = currentDoc w.
Proof. intros Hf. unfold currentDoc. now rewrite Hf. Qed.

Lemma currentDoc_afterRead w : JSON_lossless -> currentDoc (afterRead w) = currentDoc w.
Proof.
  intros Hlaw. unfold afterRead, currentDoc at 2.
  destruct (Sys.files w !! statePath) as [text|] eqn:Hf.
  - unfold currentDoc, readPresent. cbn [Sys.files Sys.log]. now rewrite Hf.
  - unfold currentDoc, readAbsent. cbn [Sys.files Sys.log]. rewrite files_written.
    rewrite lookup_insert_eq. now apply docOfText_textOf.
Qed.

Lemma files_released p w q : q <> p -> Sys.files (released p w) !! q = Sys.files w !! q.
Proof.
  intros Hq. unfold released. cbn [Sys.files Sys.log Sys.setFiles].
  now rewrite lookup_delete_ne by congruence.
Qed.

Lemma files_locked p w q : q <> p -> Sys.files (locked p w) !! q = Sys.files w !! q.
Proof.
  intros Hq. unfold locked. cbn [Sys.files Sys.log Sys.setFiles].
  now rewrite lookup_insert_ne by congruence.
Qed.

(** With the lock free, [applyVersion] ends in the world its critical
    section left, the lock released; what the section returned it returns,
    and what the section threw it rethrows or replaces. *)
Lemma applyVersion_free (fuel : nat) (version action : string) (w w3 : Sys.World)
    (r : Result Server.Applied) :
  Sys.files w !! Server.lockPath = None ->
  applyLocked fuel version action (locked Server.lockPath w) = (r, w3) ->
  r <> Pending ->
  (applyVersion fuel version action w).2 = released Server.lockPath w3
  /\ (forall a, r = Ok a -> (applyVersion fuel version action w).1 = Ok a)
  /\ (applyVersion fuel version action w).1 <> Pending.
Proof.
  intros Hfree Hrun Hr. unfold Server.applyVersion, tryCatch.
  rewrite (withFileLock_free _ _ w r w3 Hfree Hrun Hr).
  destruct r as [a|e|]; [| |congruence].
  - split; [reflexivity|]. split; [now intros a' [= <-]|discriminate].
  - destruct e as [|msg code status]; cbn [readCode].
    + split; [reflexivity|]. split; [discriminate|discriminate].
    + case_bool_decide; (split; [reflexivity|]); (split; discriminate).
Qed.

(** X20: [applyVersion] leaves no lock behind: when the lock file is absent
    at the call and the call ends, returning or throwing, the lock file is
    absent after it. *)
Theorem applyVersion_releases_lock (fuel : nat) (version action : string) (w : Sys.World) :
  Sys.files w !! Server.lockPath = None ->
  (applyVersion fuel version action w).1 <> Pending ->
  Sys.files (applyVersion fuel version action w).2 !! Server.lockPath = None.
Proof.
  intros Hfree Hends.
  destruct (applyLocked fuel version action (locked Server.lockPath w)) as [r w3] eqn:Hrun.
  assert (Hr : r <> Pending).
  { intros ->. apply Hends. unfold Server.applyVersion, tryCatch, Lock.withFileLock.
    cbn [Lock.noOptions Lock.retries Lock.retryDelayMs default].
    unfold bind at 1. change (Z.to_nat 60) with 60%nat.
    rewrite (acquire_free Server.lockPath 100 59 w Hfree).
    unfold tryFinally. now rewrite Hrun. }
  destruct (applyVersion_free fuel version action w w3 r Hfree Hrun Hr) as (-> & _).
  unfold released. cbn [Sys.files Sys.log Sys.setFiles]. apply lookup_delete_eq.
Qed.

Lemma afterRead_lookup w q :
  q <> statePath -> q <> State.tempPath ->
  Sys.files (afterRead w) !! q = Sys.files w !! q.
Proof.
  intros Hq Hq'. unfold afterRead. destruct (Sys.files w !! statePath); [reflexivity|].
  unfold readAbsent. cbn [Sys.files Sys.log]. rewrite files_written. cbn [Sys.files Sys.log].
  rewrite lookup_insert_ne by congruence. now rewrite lookup_delete_ne by congruence.
Qed.

(** What the critical section does for a listed version that is not the
    current one. *)
Lemma applyLocked_publishes (fuel : nat) (version action : string) (w w2 : Sys.World)
    (available : list string) :
  JSON_lossless ->
  listing fuel Server.ADMIN_PLATFORM w = (Ok available, w2) ->
  version ∈ available ->
  wellKept (currentDoc w) ->
  State.currentVersion (currentDoc w) <> version ->
  exists w3 vs' n,
    applyLocked fuel version action w = (Ok {| Server.alreadyCurrent := false |}, w3)
    /\ Sys.files w3 !! statePath
       = Some (textOf {| State.currentVersion := version;
                         State.versions := vs';
                         State.history :=
                           State.history (currentDoc w)
                           ++ [State.historyEntry action version (clock n)] |})
    /\ (forall q, q <> statePath -> q <> State.tempPath ->
                  Sys.files w3 !! q = Sys.files w !! q).
Proof.
  intros Hlaw Hlist Hin Hkept Hcur.
  assert (Hsame : Sys.files w2 = Sys.files w).
  { pose proof (keepsFiles_listAvailableVersions COS_RETRY_COUNT legacyPrefixRoot fuel
                  Server.ADMIN_PLATFORM w) as Hkeep.
    now rewrite Hlist in Hkeep. }
  assert (Hdoc2 : currentDoc w2 = currentDoc w) by (apply currentDoc_same; now rewrite Hsame).
  pose proof (readState_run w2 Hlaw) as Hread. rewrite Hdoc2 in Hread.
  destruct (setCurrentVersion_steps version action (afterRead w2) (currentDoc w)
              (afterRead (afterRead w2))) as (vs' & k & _ & Hset).
  { rewrite (readState_run _ Hlaw). now rewrite currentDoc_afterRead, Hdoc2. }
  { exact Hkept. }
  eexists _, vs', _. split; [|split].
  - unfold Server.applyLocked. unfold bind at 1. rewrite Hlist.
    rewrite bool_decide_eq_true_2 by assumption. cbn [negb].
    unfold bind at 1. rewrite Hread.
    replace (String.eqb (State.currentVersion (currentDoc w)) version) with false
      by (symmetry; now apply String.eqb_neq).
    unfold bind. rewrite Hset. reflexivity.
  - rewrite files_written. apply lookup_insert_eq.
  - intros q Hq Hq'. rewrite files_written, files_ticked.
    rewrite lookup_insert_ne by congruence. rewrite lookup_delete_ne by congruence.
    rewrite !afterRead_lookup by assumption. now rewrite Hsame.
Qed.


(** With the lock free, the version listed and already current,
    [applyVersion] only reads. *)
Lemma applyVersion_current (fuel : nat) (version action text : string) (w w2 : Sys.World)
    (available : list string) :
  Sys.files w !! Server.lockPath = None ->
  listing fuel Server.ADMIN_PLATFORM (locked Server.lockPath w) = (Ok available, w2) ->
  version ∈ available ->
  Sys.files w !! statePath = Some text ->
  State.currentVersion (docOfText text) = version ->
  applyVersion fuel version action w
  = (Ok {| Server.alreadyCurrent := true |}, released Server.lockPath (readPresent w2))
  /\ Sys.files (released Server.lockPath (readPresent w2)) = Sys.files w.
Proof.
  intros Hfree Hlist Hin Htext Hcur.
  assert (Hsame : Sys.files w2 = Sys.files (locked Server.lockPath w)).
  { pose proof (keepsFiles_listAvailableVersions COS_RETRY_COUNT legacyPrefixRoot fuel
                  Server.ADMIN_PLATFORM (locked Server.lockPath w)) as Hkeep.
    now rewrite Hlist in Hkeep. }
  split.
  - unfold Server.applyVersion, tryCatch.
    rewrite (withFileLock_free _ _ w (Ok {| Server.alreadyCurrent := true |})
               (readPresent w2) Hfree).
    + reflexivity.
    + unfold Server.applyLocked. unfold bind at 1. rewrite Hlist.
      rewrite bool_decide_eq_true_2 by assumption. cbn [negb].
      assert (Hstate : Sys.files w2 !! statePath = Some text).
      { rewrite Hsame, files_locked by (apply not_eq_sym, lockPath_neq). exact Htext. }
      unfold bind. rewrite (readState_present w2 text Hstate). rewrite Hcur.
      now rewrite String.eqb_refl.
    + discriminate.
  - unfold released, readPresent. cbn [Sys.files Sys.log Sys.setFiles].
    rewrite Hsame. unfold locked. cbn [Sys.files Sys.log Sys.setFiles].
    rewrite delete_insert_eq. now apply delete_id.
Qed.

(** X22: publishing twice records once: after an [applyVersion] that made
    a listed version current, a second [applyVersion] for that version,
    listed again, returns [{alreadyCurrent: true}] and leaves every file,
    and so the registry and its history, as the first call left them. *)
Theorem applyVersion_twice (fuel : nat) (version action action' : string)
    (w w2 w2' : Sys.World) (available available' : list string) :
  JSON_lossless ->
  Sys.files w !! Server.lockPath = None ->
  listing fuel Server.ADMIN_PLATFORM (locked Server.lockPath w) = (Ok available, w2) ->
  version ∈ available ->
  wellKept (currentDoc w) ->
  State.currentVersion (currentDoc w) <> version ->
  let first := applyVersion fuel version action w in
  listing fuel Server.ADMIN_PLATFORM (locked Server.lockPath first.2) = (Ok available', w2') ->
  version ∈ available' ->
  first.1 = Ok {| Server.alreadyCurrent := false |}
  /\ exists w'',
       applyVersion fuel version action' first.2 = (Ok {| Server.alreadyCurrent := true |}, w'')
       /\ Sys.files w'' = Sys.files first.2.
Proof.
  intros Hlaw Hfree Hlist Hin Hkept Hcur first Hlist' Hin'.
  assert (Hdoc : currentDoc (locked Server.lockPath w) = currentDoc w).
  { apply currentDoc_same, files_locked. apply not_eq_sym, lockPath_neq. }
  destruct (applyLocked_publishes fuel version action (locked Server.lockPath w) w2 available
              Hlaw Hlist Hin) as (w3 & vs' & n & Hrun & Hstate & _).
  { now rewrite Hdoc. }
  { now rewrite Hdoc. }
  destruct (applyVersion_free fuel version action w w3 _ Hfree Hrun ltac:(discriminate))
    as (Hworld & Hres & _).
  specialize (Hres _ eq_refl). fold first in Hworld, Hres.
  split; [exact Hres|].
  set (d' := {| State.currentVersion := version;
                State.versions := vs';
                State.history :=
                  State.history (currentDoc (locked Server.lockPath w))
                  ++ [State.historyEntry action version (clock n)] |}) in *.
  destruct (applyVersion_current fuel version action' (textOf d') first.2 w2' available')
    as (Hrun2 & Hfiles2); try eassumption.
  - rewrite Hworld. unfold released. cbn [Sys.files Sys.log Sys.setFiles].
    apply lookup_delete_eq.
  - rewrite Hworld, files_released by (apply not_eq_sym, lockPath_neq). exact Hstate.
  - rewrite (docOfText_textOf _ Hlaw). reflexivity.
  - eauto.
Qed.

End CoordinatorSteps.

(** ** The extractor, the accepting path *)

Lemma prefix_app_head (a x y : string) :
  String.prefix (a +:+ x) (a +:+ y) = String.prefix x y.
Proof.
  induction a as [|c a IH]; [reflexivity|]. rewrite !append_cons. cbn [String.prefix].
  destruct (ascii_dec c c); [exact IH|contradiction].
Qed.

Lemma prefix_refl (x : string) : String.prefix x x = true.
Proof.
  induction x as [|c x IH]; [reflexivity|]. cbn [String.prefix].
  destruct (ascii_dec c c); [exact IH|contradiction].
Qed.

Lemma prefix_weaken (x b s : string) :
  String.prefix x b = true -> String.prefix x (b +:+ s) = true.
Proof.
  revert b. induction x as [|c x IH]; intros b Hx; [now destruct (b +:+ s)|].
  destruct b as [|d b]; [discriminate|]. rewrite append_cons. cbn [String.prefix] in *.
  destruct (ascii_dec c d); [now apply IH|discriminate].
Qed.

(** Two prefixes of one string: one is a prefix of the other. *)
Lemma prefix_both (x y p : string) :
  String.prefix x p = true -> String.prefix y p = true ->
  String.prefix x y = true \/ String.prefix y x = true.
Proof.
  revert x y. induction p as [|c p IH]; intros x y Hx Hy.
  - destruct x; [|discriminate]. left. now destruct y.
  - destruct x as [|a x]; [left; now destruct y|].
    destruct y as [|b y]; [right; reflexivity|].
    cbn [String.prefix] in *.
    destruct (ascii_dec a c) as [->|]; [|discriminate].
    destruct (ascii_dec b c) as [->|]; [|discriminate].
    destruct (ascii_dec c c); [|contradiction]. now apply IH.
Qed.

Lemma apart_disjoint (a b p : string) :
  apart a b = true ->
  Sys.under a p = true \/ p = a ->
  Sys.under b p = true \/ p = b ->
  False.
Proof.
  unfold apart, Sys.under, Str.startsWith. intros Hab Ha Hb.
  apply andb_true_iff in Hab as [Hab Hba].
  apply negb_true_iff in Hab, Hba.
  change (String Str.slash EmptyString) with "/"%string in *.
  destruct Ha as [Ha| ->], Hb as [Hb|Hb].
  - destruct (prefix_both _ _ _ Ha Hb); congruence.
  - subst p. apply (prefix_weaken _ _ "/") in Ha. congruence.
  - apply (prefix_weaken _ _ "/") in Hb. congruence.
  - subst b. rewrite prefix_refl in Hab. discriminate.
Qed.

Lemma under_nested (a v n : string) :
  Sys.under (a +:+ String Str.slash v) (a +:+ String Str.slash n) = Sys.under v n.
Proof.
  unfold Sys.under, Str.startsWith. rewrite append_assoc, prefix_app_head.
  rewrite append_cons. cbn [String.prefix].
  destruct (ascii_dec Str.slash Str.slash); [reflexivity|contradiction].
Qed.

Lemma relativeTo_append (root rel : string) :
  Sys.relativeTo root (root +:+ String Str.slash rel) = rel.
Proof.
  pose proof (under_decompose _ _ (under_append root rel)) as Hd.
  apply append_inv_head in Hd. now injection Hd as <-.
Qed.

Lemma nested_assoc (a v r : string) :
  a +:+ String Str.slash (v +:+ String Str.slash r)
  = (a +:+ String Str.slash v) +:+ String Str.slash r.
Proof. rewrite append_assoc. now rewrite append_cons. Qed.

Lemma under_outer (a v q : string) :
  Sys.under (a +:+ String Str.slash v) q = true -> Sys.under a q = true.
Proof.
  intros Hq. rewrite (under_decompose _ _ Hq), <- nested_assoc. apply under_append.
Qed.

Lemma relativeTo_nested (a v n : string) :
  Sys.under v n = true ->
  Sys.relativeTo (a +:+ String Str.slash v) (a +:+ String Str.slash n) = Sys.relativeTo v n.
Proof.
  intros Hn. rewrite (under_decompose _ _ Hn) at 1. rewrite nested_assoc.
  apply relativeTo_append.
Qed.

Lemma apart_left (a b p : string) :
  apart a b = true -> Sys.under a p = true \/ p = a -> Sys.under b p = false /\ p <> b.
Proof.
  intros Hab Ha. split.
  - apply not_true_is_false. intros Hb. apply (apart_disjoint a b p); auto.
  - intros Hb. apply (apart_disjoint a b p); auto.
Qed.

Lemma apart_right (a b p : string) :
  apart a b = true -> Sys.under b p = true \/ p = b -> Sys.under a p = false /\ p <> a.
Proof.
  intros Hab Hb. split.
  - apply not_true_is_false. intros Ha. apply (apart_disjoint a b p); auto.
  - intros Ha. apply (apart_disjoint a b p); auto.
Qed.

Section ExtractorSteps.
Context `{Runtime}.

(** A plain path is left as it is by the normalization of entry names. *)
Lemma plainPath_normal (p : string) :
  plainPath p = true -> Archive.normalizeZipEntryName p = p.
Proof.
  unfold plainPath. intros Hp. apply andb_true_iff in Hp as [Hback Hsegs].
  apply negb_true_iff in Hback. unfold Archive.normalizeZipEntryName.
  rewrite (replaceAll_absent _ _ _ Hback). apply dropLeading_absent.
  destruct p as [|c p]; [reflexivity|]. unfold Str.startsWith. cbn [String.prefix].
  destruct (ascii_dec Str.slash c) as [<-|]; [|reflexivity].
  cbn [Str.split] in Hsegs. rewrite Ascii.eqb_refl in Hsegs. discriminate.
Qed.

Lemma plainEntry_file (e : Archive.ZipEntry) :
  plainEntry e = true -> Archive.isDirectory e = false ->
  Archive.normalizeZipEntryName (Archive.entryName e) = Archive.entryName e.
Proof.
  unfold plainEntry, entryPath. intros He Hfile. rewrite Hfile in He.
  apply andb_true_iff in He as [He _]. now apply plainPath_normal.
Qed.

(** What [plainArchive] says of the entries. *)
Lemma plainArchive_entries (zip : list Archive.ZipEntry) :
  plainArchive zip = true ->
  Forall (fun e => plainEntry e = true) zip /\ NoDup (Archive.entryName <$> zip).
Proof.
  unfold plainArchive. intros Hzip. apply andb_true_iff in Hzip as [Hzip _].
  apply andb_true_iff in Hzip as [Hplain Hnodup]. split.
  - apply Forall_forall. intros e He. rewrite forallb_forall in Hplain.
    apply Hplain. now apply list_elem_of_In.
  - now apply bool_decide_eq_true in Hnodup.
Qed.

Lemma extract_other (dst : string) (zip : list Archive.ZipEntry) (f : gmap string string)
    (q : string) :
  (forall e, e ∈ zip -> Archive.isDirectory e = false -> extractedTo dst e <> q) ->
  fold_left (extractEntry dst) zip f !! q = f !! q.
Proof.
  revert f. induction zip as [|a zip IH]; intros f Hq; [reflexivity|]. cbn [fold_left].
  rewrite IH by (intros e He; apply Hq; now right). unfold extractEntry.
  destruct (Archive.isDirectory a) eqn:Ha; [reflexivity|].
  apply lookup_insert_ne. apply Hq; [now left|exact Ha].
Qed.

Lemma extract_entry (dst : string) (zip : list Archive.ZipEntry) (f : gmap string string)
    (e : Archive.ZipEntry) :
  Forall (fun e => plainEntry e = true) zip ->
  NoDup (Archive.entryName <$> zip) ->
  e ∈ zip -> Archive.isDirectory e = false ->
  fold_left (extractEntry dst) zip f !! extractedTo dst e = Some (Archive.data e).
Proof.
  revert f. induction zip as [|a zip IH]; intros f Hplain Hnodup He Hfile.
  - now apply elem_of_nil in He.
  - cbn [fold_left]. apply Forall_cons in Hplain as [Ha Hplain].
    rewrite fmap_cons in Hnodup. apply NoDup_cons in Hnodup as [Hfresh Hnodup].
    apply elem_of_cons in He as [->|He]; [|now apply IH].
    rewrite extract_other.
    + unfold extractEntry. rewrite Hfile. apply lookup_insert_eq.
    + intros e He Hfile' Heq. apply Hfresh. unfold extractedTo in Heq.
      apply append_inv_head in Heq. injection Heq as Heq.
      rewrite Forall_forall in Hplain.
      rewrite (plainEntry_file e (Hplain e He) Hfile'), (plainEntry_file a Ha Hfile) in Heq.
      rewrite <- Heq. apply list_elem_of_fmap. now exists e.
Qed.

Lemma extract_from (dst : string) (zip : list Archive.ZipEntry) (f : gmap string string)
    (q : string) :
  is_Some (fold_left (extractEntry dst) zip f !! q) ->
  is_Some (f !! q)
  \/ exists e, e ∈ zip /\ Archive.isDirectory e = false /\ q = extractedTo dst e.
Proof.
  revert f. induction zip as [|a zip IH]; intros f Hq; [now left|]. cbn [fold_left] in Hq.
  destruct (IH _ Hq) as [Hf|(e & He & Hfile & ->)].
  - unfold extractEntry in Hf. destruct (Archive.isDirectory a) eqn:Ha; [now left|].
    destruct (decide (extractedTo dst a = q)) as [<-|Hne].
    + right. exists a. split; [now left|]. now split.
    + rewrite lookup_insert_ne in Hf by exact Hne. now left.
  - right. exists e. split; [now right|]. now split.
Qed.

(** The extraction of a plain archive: it writes every file entry at its
    name below [dst], and nothing else. *)
Lemma extractAllTo_run (zip : list Archive.ZipEntry) (dst : string) (w : Sys.World) :
  plainArchive zip = true ->
  exists w',
    Server.extractAllTo zip dst w = (Ok tt, w')
    /\ Sys.trace w' = Sys.trace w ++ [Sys.EExtractAll dst]
    /\ (forall e, e ∈ zip -> Archive.isDirectory e = false ->
                  Sys.files w' !! (dst +:+ String Str.slash (Archive.entryName e))
                  = Some (Archive.data e))
    /\ (forall q, is_Some (Sys.files w' !! q) ->
                  is_Some (Sys.files w !! q)
                  \/ exists e, e ∈ zip /\ Archive.isDirectory e = false
                               /\ q = dst +:+ String Str.slash (Archive.entryName e))
    /\ (forall q, Sys.under dst q = false -> Sys.files w' !! q = Sys.files w !! q).
Proof.
  intros Hzip. destruct (plainArchive_entries zip Hzip) as [Hplain Hnodup].
  eexists. split; [reflexivity|]. cbn [Sys.trace Sys.files Sys.log Sys.setFiles].
  split; [reflexivity|].
  change (fold_left _ zip (Sys.files w)) with (fold_left (extractEntry dst) zip (Sys.files w)).
  assert (Hnames : forall e, e ∈ zip -> Archive.isDirectory e = false ->
            extractedTo dst e = dst +:+ String Str.slash (Archive.entryName e)).
  { intros e He Hfile. unfold extractedTo. rewrite Forall_forall in Hplain.
    now rewrite (plainEntry_file e (Hplain e He) Hfile). }
  split; [|split].
  - intros e He Hfile. rewrite <- (Hnames e He Hfile). now apply extract_entry.
  - intros q Hq. destruct (extract_from _ _ _ _ Hq) as [Hf|(e & He & Hfile & ->)]; [now left|].
    right. exists e. split; [exact He|]. split; [exact Hfile|]. now apply Hnames.
  - intros q Hq. apply extract_other. intros e _ _ <-. unfold extractedTo in Hq.
    now rewrite under_append in Hq.
Qed.


(** Where the copy takes an extracted file entry from, and to. *)
Lemma installedAs_source (flatten : bool) (version tempDir name rel : string) :
  installedAs flatten version name = Some rel ->
  let sourceDir := if flatten then tempDir +:+ String Str.slash version else tempDir in
  Sys.under sourceDir (tempDir +:+ String Str.slash name) = true
  /\ Sys.relativeTo sourceDir (tempDir +:+ String Str.slash name) = rel.
Proof.
  unfold installedAs. destruct flatten.
  - destruct (Sys.under version name) eqn:Hu; [|discriminate]. intros [= <-]. cbv zeta.
    split; [now rewrite under_nested|now apply relativeTo_nested].
  - intros [= <-]. cbv zeta. split; [apply under_append|apply relativeTo_append].
Qed.

Lemma source_installedAs (flatten : bool) (version tempDir name : string) :
  let sourceDir := if flatten then tempDir +:+ String Str.slash version else tempDir in
  Sys.under sourceDir (tempDir +:+ String Str.slash name) = true ->
  installedAs flatten version name
  = Some (Sys.relativeTo sourceDir (tempDir +:+ String Str.slash name)).
Proof.
  unfold installedAs. destruct flatten; cbv zeta.
  - rewrite under_nested. intros Hu. rewrite Hu. now rewrite relativeTo_nested.
  - intros _. now rewrite relativeTo_append.
Qed.

(** What [extractZipToVersion] does with a plain archive that the
    inspector accepts, when the temporary directory is new and apart from
    the directory of the version. *)
Lemma extractZipToVersion_run (zip : list Archive.ZipEntry) (version uploadRoot : string)
    (w : Sys.World) :
  let layout := Archive.inspectArchiveLayout zip version in
  let tempDir := path_join [os_tmpdir; "pulzz-upload-"] +:+ tmpSuffix (Sys.temps w) in
  let destDir := path_join [uploadRoot; version] in
  let sourceDir := if Archive.flatten layout then path_join [tempDir; version] else tempDir in
  Archive.ok layout = true ->
  plainArchive zip = true ->
  path_join [tempDir; version] = tempDir +:+ String Str.slash version ->
  apart tempDir destDir = true ->
  (forall p, Sys.under tempDir p = true -> Sys.files w !! p = None) ->
  exists w',
    Server.extractZipToVersion zip version uploadRoot w = (Ok tt, w')
    /\ Sys.trace w'
       = Sys.trace w ++ [Sys.EMkdtemp tempDir; Sys.EExtractAll tempDir; Sys.ERmTree destDir;
                         Sys.EMkdir destDir; Sys.ECopyTree sourceDir destDir;
                         Sys.ERmTree tempDir]
    /\ (forall p, Sys.under tempDir p = true -> Sys.files w' !! p = None)
    /\ (forall e rel,
          e ∈ zip -> Archive.isDirectory e = false ->
          installedAs (Archive.flatten layout) version (Archive.entryName e) = Some rel ->
          Sys.files w' !! (destDir +:+ String Str.slash rel) = Some (Archive.data e))
    /\ (forall p,
          Sys.under destDir p = true -> is_Some (Sys.files w' !! p) ->
          exists e rel,
            e ∈ zip /\ Archive.isDirectory e = false
            /\ installedAs (Archive.flatten layout) version (Archive.entryName e) = Some rel
            /\ p = destDir +:+ String Str.slash rel)
    /\ (forall p, Sys.under destDir p = false -> p <> destDir ->
                  Sys.under tempDir p = false -> p <> tempDir ->
                  Sys.files w' !! p = Sys.files w !! p).
Proof.
  intros layout tempDir destDir sourceDir Hok Hzip Hjoin Hapart Hfresh.
  assert (Hsource : sourceDir = if Archive.flatten layout
                                then tempDir +:+ String Str.slash version else tempDir).
  { unfold sourceDir. now rewrite Hjoin. }
  assert (Hinside : forall q, Sys.under sourceDir q = true -> Sys.under tempDir q = true).
  { intros q. rewrite Hsource. destruct (Archive.flatten layout); [apply under_outer|auto]. }
  set (w1 := Sys.log (Sys.EMkdtemp tempDir) (Sys.tickTemp w)).
  destruct (extractAllTo_run zip tempDir w1 Hzip) as (w2 & Hx & Htr2 & Hput2 & Hfrom2 & Hkeep2).
  destruct (rmTree_run destDir w2) as (w3 & Hrm & Htr3 & _ & _ & Hgone3 & _ & Hkeep3).
  set (w4 := Sys.log (Sys.EMkdir destDir) w3).
  destruct (cpTree_run sourceDir destDir w4)
    as (w5 & Hcp & Htr5 & _ & _ & Hcopy5 & Hfrom5 & Hkeep5).
  destruct (rmTree_run tempDir w5) as (w6 & Hrm6 & Htr6 & _ & _ & Hgone6 & Hself6 & Hkeep6).
  assert (Htemp3 : forall q, Sys.under tempDir q = true ->
            Sys.files w4 !! q = Sys.files w2 !! q).
  { intros q Hq. destruct (apart_left _ _ q Hapart (or_introl Hq)) as [Hd Hd'].
    unfold w4. cbn [Sys.files Sys.log]. now apply Hkeep3. }
  exists w6. split; [|split; [|split; [|split; [|split]]]].
  - unfold Server.extractZipToVersion. fold layout. rewrite Hok. cbn [negb].
    unfold bind at 1, Sys.mkdtemp at 1. fold tempDir. fold w1. fold destDir.
    unfold tryFinally. unfold bind at 1. rewrite Hx. unfold bind at 1. rewrite Hrm.
    unfold bind at 1, Sys.mkdir at 1. fold w4. fold sourceDir. rewrite Hcp.
    now rewrite Hrm6.
  - rewrite Htr6, Htr5. unfold w4. cbn [Sys.trace Sys.log]. rewrite Htr3, Htr2.
    unfold w1. cbn [Sys.trace Sys.log Sys.tickTemp]. now rewrite <- !app_assoc.
  - exact Hgone6.
  - intros e rel He Hfile Hrel.
    destruct (installedAs_source _ _ tempDir _ _ Hrel) as [Hunder Hto].
    cbv zeta in Hunder, Hto. rewrite <- Hsource in Hunder, Hto.
    destruct (apart_right _ _ (destDir +:+ String Str.slash rel) Hapart
                (or_introl (under_append destDir rel))) as [Ht Ht'].
    rewrite Hkeep6 by assumption. rewrite <- Hto. apply Hcopy5; [exact Hunder|].
    rewrite Htemp3 by apply under_append. now apply Hput2.
  - intros p Hp Hsome.
    destruct (apart_right _ _ p Hapart (or_introl Hp)) as [Ht Ht'].
    rewrite Hkeep6 in Hsome by assumption.
    destruct (Hfrom5 p Hsome) as [[c Hc]|(q & Hq & Hsomeq & ->)].
    { unfold w4 in Hc. cbn [Sys.files Sys.log] in Hc. rewrite (Hgone3 p Hp) in Hc.
      discriminate. }
    rewrite (Htemp3 q (Hinside q Hq)) in Hsomeq.
    destruct (Hfrom2 q Hsomeq) as [[c Hc]|(e & He & Hfile & ->)].
    { unfold w1 in Hc. cbn [Sys.files Sys.log Sys.tickTemp] in Hc.
      rewrite (Hfresh q (Hinside q Hq)) in Hc. discriminate. }
    exists e, (Sys.relativeTo sourceDir (tempDir +:+ String Str.slash (Archive.entryName e))).
    split; [exact He|]. split; [exact Hfile|]. split; [|reflexivity].
    rewrite Hsource in Hq |- *. now apply source_installedAs.
  - intros p Hd Hd' Ht Ht'. rewrite Hkeep6 by assumption. rewrite Hkeep5.
    + unfold w4. cbn [Sys.files Sys.log]. rewrite Hkeep3 by assumption.
      rewrite Hkeep2 by assumption. reflexivity.
    + intros q _ _ ->. now rewrite under_append in Hd.
Qed.

(** X23: a plain archive that the inspector accepts is installed as the
    version.  [extractZipToVersion] returns after six calls: it makes a
    temporary directory, extracts into it, removes the directory of the
    version, makes it again, copies the extracted tree (or its folder
    named as the version) there and removes the temporary directory.
    Afterwards the files below the directory of the version are exactly
    the file entries of the archive, each with its content, at its name
    (without the folder of the version when the layout is flattened), so
    nothing of an earlier upload of that version stays; no file is left
    below the temporary directory; and the files elsewhere are as before.
    The temporary directory is new, and it and the directory of the
    version lie apart. *)
Theorem extractZipToVersion_installs (zip : list Archive.ZipEntry)
    (version uploadRoot : string) (w : Sys.World) :
  let layout := Archive.inspectArchiveLayout zip version in
  let tempDir := path_join [os_tmpdir; "pulzz-upload-"] +:+ tmpSuffix (Sys.temps w) in
  let destDir := path_join [uploadRoot; version] in
  let sourceDir := if Archive.flatten layout then path_join [tempDir; version] else tempDir in
  Archive.ok layout = true ->
  plainArchive zip = true ->
  path_join [tempDir; version] = tempDir +:+ String Str.slash version ->
  apart tempDir destDir = true ->
  (forall p, Sys.under tempDir p = true -> Sys.files w !! p = None) ->
  exists w',
    Server.extractZipToVersion zip version uploadRoot w = (Ok tt, w')
    /\ Sys.trace w'
       = Sys.trace w ++ [Sys.EMkdtemp tempDir; Sys.EExtractAll tempDir; Sys.ERmTree destDir;
                         Sys.EMkdir destDir; Sys.ECopyTree sourceDir destDir;
                         Sys.ERmTree tempDir]
    /\ (forall p content,
          Sys.under destDir p = true ->
          (Sys.files w' !! p = Some content
           <-> exists e rel,
                 e ∈ zip /\ Archive.isDirectory e = false
                 /\ installedAs (Archive.flatten layout) version (Archive.entryName e)
                    = Some rel
                 /\ p = destDir +:+ String Str.slash rel
                 /\ content = Archive.data e))
    /\ (forall p, Sys.under tempDir p = true -> Sys.files w' !! p = None)
    /\ (forall p, Sys.under destDir p = false -> p <> destDir ->
                  Sys.under tempDir p = false -> p <> tempDir ->
                  Sys.files w' !! p = Sys.files w !! p).
Proof.
  intros layout tempDir destDir sourceDir Hok Hzip Hjoin Hapart Hfresh.
  destruct (extractZipToVersion_run zip version uploadRoot w Hok Hzip Hjoin Hapart Hfresh)
    as (w' & Hrun & Htrace & Hclean & Hput & Hfrom & Hkeep).
  exists w'. split; [exact Hrun|]. split; [exact Htrace|].
  split; [|split; [exact Hclean|exact Hkeep]].
  intros p content Hp. split.
  - intros Hcontent. destruct (Hfrom p Hp ltac:(eauto)) as (e & rel & He & Hfile & Hrel & ->).
    exists e, rel. split; [exact He|]. split; [exact Hfile|]. split; [exact Hrel|].
    split; [reflexivity|]. rewrite (Hput e rel He Hfile Hrel) in Hcontent. congruence.
  - intros (e & rel & He & Hfile & Hrel & -> & ->). now apply Hput.
Qed.

End ExtractorSteps.

(** ** URLs *)

Lemma dropTrailing_snoc (c : ascii) (s : string) :
  Str.dropTrailing c (s +:+ String c EmptyString) = Str.dropTrailing c s.
Proof.
  induction s as [|d s IH].
  - change (Str.dropTrailing c (String c EmptyString) = EmptyString).
    cbn [Str.dropTrailing]. now rewrite Ascii.eqb_refl.
  - rewrite append_cons. cbn [Str.dropTrailing]. now rewrite IH.
Qed.

Lemma dropTrailing_idem (c : ascii) (s : string) :
  Str.dropTrailing c (Str.dropTrailing c s) = Str.dropTrailing c s.
Proof.
  induction s as [|d s IH]; [reflexivity|]. cbn [Str.dropTrailing].
  destruct (Str.dropTrailing c s) as [|e kept] eqn:Hs.
  - destruct (Ascii.eqb d c) eqn:Hd; [reflexivity|]. cbn. now rewrite Hd.
  - cbn [Str.dropTrailing]. cbn [Str.dropTrailing] in IH. now rewrite IH.
Qed.

Lemma dropTrailing_end (c : ascii) (s : string) :
  Str.endsWithChar (Str.dropTrailing c s) c = false.
Proof.
  induction s as [|d s IH]; [reflexivity|]. cbn [Str.dropTrailing].
  destruct (Str.dropTrailing c s) as [|e kept] eqn:Hs.
  - destruct (Ascii.eqb d c) eqn:Hd; [reflexivity|]. cbn. exact Hd.
  - exact IH.
Qed.

(** X24: [ensureNoTrailingSlash] returns a string that does not end with a
    slash and is idempotent; [joinUrl] gives the same URL whether or not
    the base ends with a slash and whether or not the path starts with
    one, and that URL is the stripped base, one slash and the path. *)
Theorem joinUrl_one_slash (base path : string) :
  Str.startsWith path "/" = false ->
  Str.endsWithChar (Server.ensureNoTrailingSlash base) Str.slash = false
  /\ Server.ensureNoTrailingSlash (Server.ensureNoTrailingSlash base)
     = Server.ensureNoTrailingSlash base
  /\ Server.joinUrl base path = Server.ensureNoTrailingSlash base +:+ "/" +:+ path
  /\ Server.joinUrl (base +:+ "/") path = Server.joinUrl base path
  /\ Server.joinUrl base ("/" +:+ path) = Server.joinUrl base path.
Proof.
  intros Hpath.
  assert (Hor : forall s, Str.or_else s "" = s) by (intros s; now destruct s).
  unfold Server.joinUrl, Server.ensureNoTrailingSlash. rewrite !Hor, Hpath.
  split; [apply dropTrailing_end|]. split; [apply dropTrailing_idem|].
  split; [reflexivity|]. split.
  - f_equal. exact (dropTrailing_snoc Str.slash base).
  - now rewrite (startsWith_append "/" path).
Qed.

(** The witness of X24: the CDN base with and without its final slash. *)
Lemma joinUrl_one_slash_witness :
  Server.joinUrl "https://cdn.kaukei.com/" "hotupdate" = "https://cdn.kaukei.com/hotupdate"
  /\ Server.joinUrl "https://cdn.kaukei.com" "/hotupdate" = "https://cdn.kaukei.com/hotupdate".
Proof.
  destruct (joinUrl_one_slash "https://cdn.kaukei.com" "hotupdate" eq_refl)
    as (_ & _ & Hjoin & Hbase & Hpath).
  split.
  - etransitivity; [exact Hbase|]. exact Hjoin.
  - etransitivity; [exact Hpath|]. exact Hjoin.
Defined.

(** ** The publish and switch routes *)

Section RouteFacts.
Context `{Runtime}.
Variable COS_RETRY_COUNT : Z.
Variable legacyPrefixRoot : string.
Variable stringify : json number -> string.
Variable Number_truthy : number -> bool.
Variable Number_toString : number -> string.

Local Abbreviation listing :=
  (Storage.listAvailableVersions COS_RETRY_COUNT legacyPrefixRoot).
Local Abbreviation handle :=
  (Routes.handlePublishOrSwitch COS_RETRY_COUNT legacyPrefixRoot stringify Number_truthy
     Number_toString).
Local Abbreviation failed := (Routes.failed stringify).
Local Abbreviation applied := (Routes.applied stringify).

Lemma isString_true (v : option (json number)) (s : string) :
  Routes.isString v s = true <-> v = Some (JStr s).
Proof.
  unfold Routes.isString. destruct v as [[| | |t| |]|]; try (split; discriminate).
  rewrite String.eqb_eq. split; [now intros ->|now intros [= ->]].
Qed.





End RouteFacts.

(** ** The upload route *)

Section UploadFacts.
Context `{Runtime}.
Variable COS_RETRY_COUNT : Z.
Variable legacyPrefixRoot : string.
Variable stringify : json number -> string.
Variable trim : string -> string.
Variable path_parse : string -> string * string.
Variable unzip : string -> Thrown + list Archive.ZipEntry.

Local Abbreviation statePath := Paths.getStateFilePath.
Local Abbreviation upload :=
  (Routes.upload COS_RETRY_COUNT legacyPrefixRoot stringify trim path_parse unzip).
Local Abbreviation failed := (Routes.failed stringify).
Local Abbreviation applied := (Routes.applied stringify).

(** The [version] that [parseVersionFromFilename] returns is the [name]
    of the parsed file name, and is made of digits. *)
Lemma parseVersionFromFilename_numeric (filename version : string) :
  Routes.parseVersionFromFilename path_parse filename = Some version ->
  Str.isNumeric version = true.
Proof.
  unfold Routes.parseVersionFromFilename.
  destruct (negb (String.eqb _ _)); [discriminate|].
  destruct (Str.isNumeric _) eqn:Hnum; [|discriminate]. cbn [negb]. now intros [= <-].
Qed.

(** What [recordUpload] leaves on a registry none of whose records is
    [null]. *)
Lemma recordUpload_records (version : string) (w : Sys.World) :
  JSON_lossless ->
  wellKept (currentDoc w) ->
  exists w',
    State.recordUpload version w
    = (Ok (existsb (recordOf version) (State.versions (currentDoc w))), w')
    /\ State.currentVersion (currentDoc w') = State.currentVersion (currentDoc w)
    /\ (exists r, r ∈ State.versions (currentDoc w')
                  /\ State.optProp r "version" = Some (JStr version))
    /\ (forall p, p <> statePath -> p <> State.tempPath ->
                  Sys.files w' !! p = Sys.files w !! p).
Proof.
  intros Hlaw Hkept.
  assert (Hrec : forall r : json number,
             recordOf version r = true -> State.optProp r "version" = Some (JStr version)).
  { intros r Hr. unfold recordOf in Hr.
    destruct (State.optProp r "version") as [[| | |s| |]|]; try discriminate.
    apply String.eqb_eq in Hr. now subst. }
  assert (Hfiles : forall found p, p <> statePath -> p <> State.tempPath ->
             Sys.files (written found (ticked 2 (afterRead w))) !! p = Sys.files w !! p).
  { intros found p Hp Hp'. rewrite files_written, files_ticked.
    rewrite lookup_insert_ne by congruence. rewrite lookup_delete_ne by congruence.
    now apply afterRead_lookup. }
  destruct (findFirst_nonnull version _ Hkept) as [[Hfind Hnone]|(i & r & Hfind & Hi & Hr)].
  - pose proof (recordUpload_by_find version w _ _ None (readState_run w Hlaw) Hfind) as Hrun.
    cbv zeta in Hrun. eexists. split; [|split; [|split]].
    + rewrite Hrun. f_equal. f_equal. rewrite bool_decide_eq_false_2 by (now intros [? ?]).
      symmetry. apply not_true_is_false. intros Hex.
      apply existsb_exists in Hex as (x & Hx & Hrx). apply list_elem_of_In in Hx.
      rewrite Forall_forall in Hnone. rewrite (Hnone x Hx) in Hrx. discriminate.
    + now rewrite (currentDoc_written _ _ Hlaw).
    + rewrite (currentDoc_written _ _ Hlaw). cbn [State.versions].
      eexists. split; [apply elem_of_app; right; left|].
      unfold State.optProp, State.uploadedRecord. now rewrite lookup_insert_eq.
    + apply Hfiles.
  - pose proof (recordUpload_by_find version w _ _ (Some i) (readState_run w Hlaw) Hfind)
      as Hrun.
    cbv zeta in Hrun. eexists. split; [|split; [|split]].
    + rewrite Hrun. f_equal. f_equal. rewrite bool_decide_eq_true_2 by eauto.
      symmetry. apply existsb_exists. exists r. split; [|exact Hr].
      apply list_elem_of_In. eapply list_elem_of_lookup_2; eauto.
    + now rewrite (currentDoc_written _ _ Hlaw).
    + rewrite (currentDoc_written _ _ Hlaw). cbn [State.versions].
      exists (State.setProp r "uploadedAt"
                (JStr (clock (Sys.ticks (afterRead w))))). split.
      * apply (list_elem_of_lookup_2 _ i). now rewrite list_lookup_alter_eq, Hi.
      * apply Hrec. now rewrite recordOf_setProp.
    + apply Hfiles.
Qed.



End UploadFacts.

(** * The statements at the reference platform *)

Section Witnesses.
Local Existing Instance Reference.runtime.

(** The witness of C4: a registry with version [100] published, written on
    an empty machine. *)
Lemma write_then_read_witness :
  let d : State.Doc :=
    {| State.currentVersion := "100";
       State.versions := [State.publishedRecord "100" "t0" "t1"];
       State.history := [State.historyEntry "publish" "100" "t2"] |} in
  State.readState (written (textOf d) Reference.fresh)
  = (Ok d, readPresent (written (textOf d) Reference.fresh)).
Proof.
  intros d.
  exact (proj2 (proj2 (proj2 (proj2 (write_then_read d Reference.fresh reference_lossless))))).
Defined.

(** The witness of C5: the live file holds text that is not JSON. *)
Lemma readState_never_fails_witness :
  exists d w',
    State.readState
      (Sys.setFiles {[ "/srv/app/config/state.json" := "{ not json" ]} Reference.fresh)
    = (Ok d, w').
Proof.
  destruct (readState_never_fails
              (Sys.setFiles {[ "/srv/app/config/state.json" := "{ not json" ]} Reference.fresh)
              reference_lossless) as (d & w' & Hrun & _).
  exists d, w'. exact Hrun.
Defined.

(** The witness of C9: an upload, a publish and a switch on an empty
    machine. *)
Lemma current_version_is_recorded_witness :
  exists d w',
    State.readState
      (runOps [RecordUpload "100"; SetCurrentVersion "100" "publish";
               SetCurrentVersion "101" "switch"] Reference.fresh)
    = (Ok d, w')
    /\ (State.currentVersion d = ""
        \/ exists r, r ∈ State.versions d
                     /\ State.optProp r "version" = Some (JStr (State.currentVersion d))).
Proof.
  apply (current_version_is_recorded _ Reference.fresh reference_lossless).
  rewrite (readState_run _ reference_lossless). reflexivity.
Defined.

(** The witness of C10: version [101] is published on a registry that knows
    version [100] only; the record it gets has an [uploadedAt]. *)
Lemma publish_unknown_version_witness :
  let w := written (textOf knows100) Reference.fresh in
  let t := Sys.ticks (readPresent w) in
  let record : json Z :=
    JObj (<["version" := JStr "101"]>
          (<["uploadedAt" := JStr (clock t)]>
           (<["publishedAt" := JStr (clock (S t))]> ∅))) in
  let d' :=
    {| State.currentVersion := "101";
       State.versions := State.versions knows100 ++ [record];
       State.history :=
         State.history knows100 ++ [State.historyEntry "publish" "101" (clock (S (S t)))] |} in
  exists w',
    State.setCurrentVersion "101" "publish" w = (Ok tt, w')
    /\ State.readState w' = (Ok d', afterRead w')
    /\ State.optProp record "uploadedAt" = Some (JStr (clock t)).
Proof.
  intros w t record d'.
  destruct (publish_unknown_version "101" "publish" w (readPresent w) knows100
              reference_lossless) as (w' & Hrun & Hread & _ & Hup & _).
  - rewrite (readState_present w (textOf knows100)).
    + now rewrite (docOfText_textOf _ reference_lossless).
    + unfold w. rewrite files_written. apply lookup_insert_eq.
  - intros r Hr. apply list_elem_of_singleton in Hr as ->. split; [discriminate|].
    unfold State.optProp, State.uploadedRecord. rewrite lookup_insert_eq. discriminate.
  - exists w'. split; [exact Hrun|]. split; [exact Hread|exact Hup].
Defined.

(** The witness of C3: version [100], which the bucket holds and the
    registry has as current, is published again. *)
Lemma apply_current_version_is_noop_witness :
  let w := written (textOf current100) bundle100 in
  let w2 := Sys.log (Sys.EGetBucket "pulzz-1250000000" "ap-guangzhou"
                       (legacyRoot +:+ "/") "" 1000)
                    (locked Server.lockPath w) in
  let w' := released Server.lockPath (readPresent w2) in
  Server.applyVersion 3 legacyRoot 1 "100" "publish" w
  = (Ok {| Server.alreadyCurrent := true |}, w')
  /\ Sys.files w' = Sys.files w
  /\ currentDoc w' = currentDoc w.
Proof.
  intros w w2 w'.
  destruct (apply_current_version_is_noop 3 legacyRoot 1 "100" "publish" (textOf current100)
              w w2 ["100"]) as (Hrun & _ & Hfiles & Hdoc).
  - unfold w. rewrite files_written.
    rewrite lookup_insert_ne by (apply not_eq_sym, lockPath_neq).
    rewrite lookup_delete_ne by (vm_compute; discriminate). reflexivity.
  - vm_compute. reflexivity.
  - left.
  - unfold w. rewrite files_written. apply lookup_insert_eq.
  - now rewrite (docOfText_textOf _ reference_lossless).
  - auto.
Defined.

(** The witness of C8: version [101], which the bucket does not hold, is
    published with the lock held, where the bucket can be listed and on a
    deployment that lacks the credentials to list it, and with the lock
    free. *)
Lemma lock_busy_is_not_version_not_found_witness :
  let held := Sys.setFiles {[ Server.lockPath := "" ]} bundle100 in
  let heldKeyless :=
    Sys.setFiles {[ Server.lockPath (H := platformWith keylessEnv) := "" ]} bundle100 in
  let w2 := Sys.log (Sys.EGetBucket "pulzz-1250000000" "ap-guangzhou"
                       (legacyRoot +:+ "/") "" 1000)
                    (locked Server.lockPath bundle100) in
  Server.applyVersion 3 legacyRoot 1 "101" "publish" held
  = (Err (newError "lock_busy" "LOCK_BUSY"), polled Server.lockPath 100 60 held)
  /\ Server.applyVersion (H := platformWith keylessEnv) 3 legacyRoot 1 "101" "publish"
       heldKeyless
     = (Err (newError "lock_busy" "LOCK_BUSY"),
        polled (Server.lockPath (H := platformWith keylessEnv)) 100 60 heldKeyless)
  /\ Server.applyVersion 3 legacyRoot 1 "101" "publish" bundle100
     = (Err (newError "version_not_found" "VERSION_NOT_FOUND"),
        released Server.lockPath w2).
Proof.
  intros held heldKeyless w2.
  destruct (lock_busy_is_not_version_not_found 3 legacyRoot 1 "101" "publish")
    as (Hbusy & Hfree & _).
  destruct (lock_busy_is_not_version_not_found (H := platformWith keylessEnv) 3 legacyRoot 1
              "101" "publish") as (Hkeyless & _).
  split; [|split].
  - refine (proj1 (Hbusy held _)). unfold held. cbn [Sys.files Sys.setFiles].
    rewrite lookup_singleton_eq. eauto.
  - refine (proj1 (Hkeyless heldKeyless _)). unfold heldKeyless. cbn [Sys.files Sys.setFiles].
    rewrite lookup_singleton_eq. eauto.
  - apply (Hfree bundle100 w2 ["100"]).
    + vm_compute. reflexivity.
    + vm_compute. reflexivity.
    + intros Hin. repeat (apply elem_of_cons in Hin as [Hin|Hin]; [discriminate|]).
      now apply elem_of_nil in Hin.
Defined.

(** The witness of C6: a put that meets two transient faults and then goes
    through makes three requests with sleeps of 250 and 500 ms between
    them; a put that is denied makes one request and no sleep. *)
Lemma withRetry_attempts_witness :
  let put := Storage.putObject client "100/config.json" "{}" in
  exists w' wE',
    Storage.withRetry 3 put Storage.noOptions
      (Sys.setFaults [Some unavailable; Some reset] Reference.fresh) = (Ok tt, w')
    /\ Sys.trace w'
       = [Sys.EPutObject "pulzz-1250000000" "ap-guangzhou" "100/config.json" "{}";
          Sys.ESleep 250;
          Sys.EPutObject "pulzz-1250000000" "ap-guangzhou" "100/config.json" "{}";
          Sys.ESleep 500;
          Sys.EPutObject "pulzz-1250000000" "ap-guangzhou" "100/config.json" "{}"]
    /\ Storage.withRetry 3 put Storage.noOptions
         (Sys.setFaults [Some denied] Reference.fresh) = (Err denied, wE')
    /\ Sys.trace wE'
       = [Sys.EPutObject "pulzz-1250000000" "ap-guangzhou" "100/config.json" "{}"].
Proof.
  intros put.
  eexists _, _.
  assert (Hfail : failing put 250 0 2
                    (Sys.setFaults [Some unavailable; Some reset] Reference.fresh)
                    (elapse 500 (put (elapse 250
                       (put (Sys.setFaults [Some unavailable; Some reset] Reference.fresh)).2)).2)).
  { eapply failing_more; [reflexivity|reflexivity|].
    eapply failing_more; [reflexivity|reflexivity|]. apply failing_none. }
  destruct (withRetry_attempts 3 put Storage.noOptions 2 ltac:(cbn; lia)) as [Hok Herr].
  split; [exact (Hok _ _ _ tt Hfail eq_refl)|]. split; [reflexivity|].
  split; [exact (Herr (Sys.setFaults [Some denied] Reference.fresh) _ denied eq_refl eq_refl)|].
  reflexivity.
Defined.


(** The witness of X5: an array is written where a registry document is
    expected. *)
Lemma atomicWriteState_normalizes_witness :
  State.atomicWriteState (JArr [JStr "100"]) Reference.fresh
  = (Ok tt, written (textOf State.DEFAULT_DOC) Reference.fresh)
  /\ (State.readState (written (textOf State.DEFAULT_DOC) Reference.fresh)).1
     = Ok State.DEFAULT_DOC.
Proof.
  destruct (atomicWriteState_normalizes (JArr [JStr "100"]) Reference.fresh reference_lossless)
    as (Hwrite & Hread & _).
  split; [exact Hwrite|exact Hread].
Defined.





(** The witness of X10: the registry file holds [null] as its only
    record. *)
Lemma null_record_blocks_publish_witness :
  let d := {| State.currentVersion := ""; State.versions := [JNull]; State.history := [] |} in
  exists w',
    State.setCurrentVersion "100" "publish" (written (textOf d) Reference.fresh)
    = (Err TypeError, w')
    /\ Sys.files w' = Sys.files (written (textOf d) Reference.fresh).
Proof.
  intros d.
  apply (null_record_blocks_publish "100" "publish" (textOf d)).
  - rewrite files_written. apply lookup_insert_eq.
  - rewrite (docOfText_textOf _ reference_lossless). left.
Defined.

(** The witness of X18: the bucket of [bundle100], which holds one key of
    version [100] under the legacy root and one under another root. *)
Lemma listAvailableVersions_by_bucket_witness :
  exists versions lists,
    Storage.listAvailableVersions 3 legacyRoot 1 "wxmini" bundle100
    = (Ok versions, requested lists (Sys.bucket bundle100) bundle100)
    /\ "100" ∈ versions.
Proof.
  destruct (listAvailableVersions_by_bucket 3 legacyRoot
              reference_sort_permutes ltac:(lia) 1 "wxmini" bundle100 client)
    as (versions & lists & Hrun & _ & Hin).
  - reflexivity.
  - reflexivity.
  - reflexivity.
  - reflexivity.
  - vm_compute. lia.
  - exists versions, lists. split; [exact Hrun|]. apply Hin. split; [reflexivity|].
    exists (legacyRoot +:+ "/100/old.bin"). split; [now exists "stale"|]. split; reflexivity.
Defined.

(** The witness of X19: the bundle of version [100] is synced, then the
    versions are listed. *)
Lemma uploaded_version_is_listed_witness :
  exists w1 versions w2,
    Storage.syncUploadedVersion 3 legacyRoot 1 "wxmini" "100"
      "/srv/cdn/gameres/wxmini/100" bundle100 = (Ok tt, w1)
    /\ Storage.listAvailableVersions 3 legacyRoot 1 "wxmini" w1 = (Ok versions, w2)
    /\ "100" ∈ versions.
Proof.
  apply (uploaded_version_is_listed 3 legacyRoot reference_sort_permutes
           ltac:(lia) 1 "wxmini" "100" "/srv/cdn/gameres/wxmini/100"
           "/srv/cdn/gameres/wxmini/100/config.json" bundle100 client).
  - reflexivity.
  - reflexivity.
  - reflexivity.
  - reflexivity.
  - reflexivity.
  - vm_compute. apply list_elem_of_here.
  - vm_compute. lia.
  - vm_compute. lia.
Defined.

(** The witness of X20: version [999], which the bucket does not hold, is
    published: the call throws, and the lock file is gone. *)
Lemma applyVersion_releases_lock_witness :
  Sys.files (Server.applyVersion 3 legacyRoot 1 "999" "publish" bundle100).2
  !! Server.lockPath = None.
Proof.
  apply (applyVersion_releases_lock 3 legacyRoot 1 "999" "publish" bundle100).
  - reflexivity.
  - vm_compute. discriminate.
Defined.


(** The witness of X23: the archive [folder99] is uploaded as version
    [99] on a machine that holds a file of an earlier upload of that
    version. *)
Lemma extractZipToVersion_installs_witness :
  let w := Sys.setFiles {[ "/srv/cdn/gameres/wxmini/99/old.bin" := "stale" ]}
                        Reference.fresh in
  exists w',
    Server.extractZipToVersion folder99 "99" "/srv/cdn/gameres/wxmini" w = (Ok tt, w')
    /\ Sys.trace w'
       = [Sys.EMkdtemp "/tmp/pulzz-upload-0"; Sys.EExtractAll "/tmp/pulzz-upload-0";
          Sys.ERmTree "/srv/cdn/gameres/wxmini/99"; Sys.EMkdir "/srv/cdn/gameres/wxmini/99";
          Sys.ECopyTree "/tmp/pulzz-upload-0/99" "/srv/cdn/gameres/wxmini/99";
          Sys.ERmTree "/tmp/pulzz-upload-0"]
    /\ Sys.files w' !! "/srv/cdn/gameres/wxmini/99/config.json" = Some "{}"
    /\ Sys.files w' !! "/srv/cdn/gameres/wxmini/99/old.bin" = None.
Proof.
  intros w.
  destruct (extractZipToVersion_installs folder99 "99" "/srv/cdn/gameres/wxmini" w)
    as (w' & Hrun & Htrace & Hfiles & _).
  - reflexivity.
  - reflexivity.
  - reflexivity.
  - reflexivity.
  - intros p Hp. apply lookup_singleton_ne. intros <-. vm_compute in Hp. discriminate.
  - exists w'. split; [exact Hrun|]. split; [exact Htrace|]. split.
    + apply (Hfiles "/srv/cdn/gameres/wxmini/99/config.json" "{}"); [reflexivity|].
      exists (Archive.mkEntry "99/config.json" false "{}"), "config.json".
      split; [right; left|]. repeat split.
    + destruct (Sys.files w' !! "/srv/cdn/gameres/wxmini/99/old.bin") as [c|] eqn:Hold;
        [exfalso|reflexivity].
      apply Hfiles in Hold as (e & rel & He & Hfile & Hrel & Hp & _); [|reflexivity].
      apply elem_of_cons in He as [->|He]; [discriminate|].
      apply list_elem_of_singleton in He as ->. vm_compute in Hrel.
      injection Hrel as <-. vm_compute in Hp. discriminate.
Defined.

(** The witness of X22: version [100] is published, then switched to. *)
Lemma applyVersion_twice_witness :
  let w := written (textOf knows100) bundle100 in
  let first := Server.applyVersion 3 legacyRoot 1 "100" "publish" w in
  first.1 = Ok {| Server.alreadyCurrent := false |}
  /\ exists w'',
       Server.applyVersion 3 legacyRoot 1 "100" "switch" first.2
       = (Ok {| Server.alreadyCurrent := true |}, w'')
       /\ Sys.files w'' = Sys.files first.2.
Proof.
  intros w first.
  apply (applyVersion_twice 3 legacyRoot 1 "100" "publish" "switch" w
           (Sys.log (Sys.EGetBucket "pulzz-1250000000" "ap-guangzhou"
                       (legacyRoot +:+ "/") "" 1000) (locked Server.lockPath w))
           (Sys.log (Sys.EGetBucket "pulzz-1250000000" "ap-guangzhou"
                       (legacyRoot +:+ "/") "" 1000) (locked Server.lockPath first.2))
           ["100"] ["100"] reference_lossless).
  - unfold w. rewrite files_written.
    rewrite lookup_insert_ne by (apply not_eq_sym, lockPath_neq).
    rewrite lookup_delete_ne by (vm_compute; discriminate). reflexivity.
  - vm_compute. reflexivity.
  - left.
  - unfold w. rewrite (currentDoc_written _ _ reference_lossless).
    repeat constructor. discriminate.
  - unfold w. rewrite (currentDoc_written _ _ reference_lossless). discriminate.
  - vm_compute. reflexivity.
  - left.
Defined.






End Witnesses.

(** * The statements at other deployments *)

(** C2, the sync at work.  With the mocked bucket, the upload of the
    archive of version [101] that holds [config.json] for the platform
    [wxmini] is copied below the legacy prefix and nowhere else: the file
    [pulzz-gameres/wxmini/101/config.json] of the primary prefix does not
    exist afterwards.  With the real driver, the sync of version [100]
    makes its requests for the legacy prefix only: the primary prefix
    gets no copy of the bundle and keeps its stale object. *)
Lemma sync_skips_primary_prefix :
  (let w := Sys.setFiles {[ "/srv/cdn/gameres/wxmini/101/config.json" := "{k:2}" ]}
                         Reference.fresh in
   let r := Storage.syncUploadedVersion (H := platformWith mockEnv) 3 legacyRoot 1 "wxmini"
              "101" "/srv/cdn/gameres/wxmini/101" w in
   r.1 = Ok tt
   /\ Sys.trace r.2
      = [Sys.ERmTree ("/srv/mock/" +:+ legacyRoot +:+ "/101");
         Sys.EMkdir ("/srv/mock/" +:+ legacyRoot);
         Sys.ECopyTree "/srv/cdn/gameres/wxmini/101" ("/srv/mock/" +:+ legacyRoot +:+ "/101")]
   /\ Sys.files r.2 !! ("/srv/mock/" +:+ legacyRoot +:+ "/101/config.json") = Some "{k:2}"
   /\ Sys.files r.2
      !! ("/srv/mock/" +:+ Storage.primaryPrefix "pulzz-gameres" "wxmini" "101"
          +:+ "config.json") = None)
  /\ (let r := Storage.syncUploadedVersion (H := Reference.runtime) 3 legacyRoot 1 "wxmini"
                 "100" "/srv/cdn/gameres/wxmini/100" bundle100 in
      r.1 = Ok tt
      /\ Sys.trace r.2
         = [Sys.EGetBucket "pulzz-1250000000" "ap-guangzhou" (legacyRoot +:+ "/100/") "" 1000;
            Sys.EDeleteMultipleObject "pulzz-1250000000" "ap-guangzhou"
              [legacyRoot +:+ "/100/old.bin"];
            Sys.EReaddir "/srv/cdn/gameres/wxmini/100";
            Sys.EReadFile "/srv/cdn/gameres/wxmini/100/config.json";
            Sys.EPutObject "pulzz-1250000000" "ap-guangzhou"
              (legacyRoot +:+ "/100/config.json") "{k:1}"]
      /\ Sys.bucket r.2 !! (legacyRoot +:+ "/100/config.json") = Some "{k:1}"
      /\ Sys.bucket r.2
         !! (Storage.primaryPrefix "pulzz-gameres" "wxmini" "100" +:+ "config.json") = None
      /\ Sys.bucket r.2
         !! (Storage.primaryPrefix "pulzz-gameres" "wxmini" "100" +:+ "old.bin")
         = Some "stale").
Proof. vm_compute. repeat split; reflexivity. Qed.


(** The witness of X16: the bundle of version [100] is synced to the mock
    root, where a stale file of that version lies. *)
Lemma sync_mock_replaces_tree_witness :
  let stale := legacyRoot +:+ "/100/old.bin" in
  let w := Sys.setFiles (<["/srv/mock/" +:+ stale := "stale"]> (Sys.files bundle100)) bundle100 in
  exists w',
    Storage.syncUploadedVersion (H := platformWith mockEnv) 3 legacyRoot 1 "wxmini" "100"
      "/srv/cdn/gameres/wxmini/100" w = (Ok tt, w')
    /\ Sys.files w' !! ("/srv/mock/" +:+ legacyRoot +:+ "/100/config.json") = Some "{k:1}"
    /\ Sys.files w' !! ("/srv/mock/" +:+ stale) = None.
Proof.
  intros stale w.
  destruct (sync_mock_replaces_tree (H := platformWith mockEnv) 3 legacyRoot 1 "wxmini" "100"
              "/srv/cdn/gameres/wxmini/100" "/srv/mock" w)
    as (w' & Hrun & _ & _ & Hcopied & Hfrom & _).
  - reflexivity.
  - reflexivity.
  - reflexivity.
  - exists "/srv/cdn/gameres/wxmini/100/config.json". split; [reflexivity|]. now exists "{k:1}".
  - intros p Hp. pose proof (under_decompose _ _ Hp) as Hd.
    set (r := Sys.relativeTo _ p) in Hd. clearbody r. subst p.
    split; [vm_compute; reflexivity|]. intros Heq. vm_compute in Heq. discriminate.
  - exists w'. split; [exact Hrun|]. split.
    + apply (Hcopied "/srv/cdn/gameres/wxmini/100/config.json" "{k:1}"); reflexivity.
    + destruct (Sys.files w' !! ("/srv/mock/" +:+ stale)) as [c|] eqn:Hc; [|reflexivity].
      exfalso. destruct (Hfrom ("/srv/mock/" +:+ stale)) as (p & Hp & [c' Hsome] & Heq).
      * reflexivity.
      * rewrite Hc. eauto.
      * pose proof (under_decompose _ _ Hp) as Hd.
        set (r := Sys.relativeTo _ p) in *. clearbody r. vm_compute in Heq.
        injection Heq as <-. subst p. vm_compute in Hsome. discriminate.
Defined.

(** The witness of X17: a deployment that names no driver, with version
    [100] and a folder [beta] below the directory the listing reads. *)
Lemma listAvailableVersions_by_directory_witness :
  let root := "/opt/pulzz-hotupdate/cdn/" +:+ legacyRoot in
  let w := Sys.setFiles (<[root +:+ "/100/config.json" := "{}"]>
                           {[ root +:+ "/beta/config.json" := "{}" ]}) Reference.fresh in
  exists versions,
    Storage.listAvailableVersions (H := platformWith localEnv) 3 legacyRoot 1 "wxmini" w
    = (Ok versions, Sys.log (Sys.EReaddir root) w)
    /\ "100" ∈ versions.
Proof.
  intros root w.
  destruct (listAvailableVersions_by_directory (H := platformWith localEnv) 3 legacyRoot
              (platform_sort_permutes localEnv) 1 "wxmini" w)
    as (versions & Hrun & Hin & _).
  - left. reflexivity.
  - exists versions. split; [exact Hrun|]. apply Hin. split; [reflexivity|].
    exists (root +:+ "/100/config.json"), ["config.json"].
    split; [now exists "{}"|]. split; [reflexivity|]. split; [reflexivity|discriminate].
Defined.

Lemma platform_lossless (e : gmap string string) : JSON_lossless (H := platformWith e).
Proof. exact reference_lossless. Qed.

